(** * mdsim: the step-synchronised capture of [MDSimulation] and the lazily
    cached derived quantities of [TrajectoryAnalyzer]

    A shallow embedding of [src/mdsim/simulation.py] and
    [src/mdsim/traj_analyzer.py].

    - Python floats are IEEE binary64 numbers: Rocq's primitive [float].
    - Python ints are [Z]; array lengths and normalised indices are [nat].
    - numpy arrays that are allocated and mutated by the code live in a heap
      ([gmap loc ndarray]); an attribute holding such an array holds its
      location, so two attributes may alias the same array.
    - methods are computations in a state-and-exception monad; an exception
      leaves the mutations made before it in place, as in Python.
    - the collaborators the code only consumes (the force field, the
      ensemble, the integrator, the unit library [duq], the element table and
      [helpers.convert_to_unit]) are interfaces: type classes whose instances
      are the concrete collaborators.
    - a read of a name that [TrajectoryAnalyzer] neither defines nor assigns
      ([atomic_numbers], [velocities], [masses] and the four
      [energy_potential_*] series without underscore) raises
      [AttributeError], as it does in Python. *)

From Stdlib Require Import ZArith Floats Uint63.
From stdpp Require Import gmap strings list fin_maps.

(** ** Python exceptions and the state-and-exception monad *)

Inductive exn : Type :=
| ValueError (msg : string)
| TypeError (msg : string)
| IndexError (msg : string)
| KeyError (msg : string)
| AttributeError (msg : string)
| AxisError (msg : string)
| SystemError (msg : string)
| CollaboratorError (msg : string).

Inductive Result (A : Type) : Type :=
| Ok (a : A)
| Raise (e : exn).
Arguments Ok {A} a.
Arguments Raise {A} e.

Definition M (S A : Type) : Type := S → Result A * S.

Definition ret {S A} (a : A) : M S A := λ s, (Ok a, s).

Definition bind {S A B} (m : M S A) (f : A → M S B) : M S B := λ s,
  match m s with
  | (Ok a, s') => f a s'
  | (Raise e, s') => (Raise e, s')
  end.

Notation "'let*' x := m 'in' k" := (bind m (λ x, k))
  (at level 10, x name, m at level 100, k at level 200, only parsing).
Notation "'let*' ' p := m 'in' k" := (bind m (λ x, match x with p => k end))
  (at level 10, p pattern, m at level 100, k at level 200, only parsing).
Notation "m ';;;' k" := (bind m (λ _, k))
  (at level 100, k at level 200, right associativity, only parsing).

Definition raise {S A} (e : exn) : M S A := λ s, (Raise e, s).

Definition lift_result {S A} (r : Result A) : M S A := λ s, (r, s).

Definition get_state {S} : M S S := λ s, (Ok s, s).

Definition modify {S} (f : S → S) : M S unit := λ s, (Ok tt, f s).

(** A computation on the second component of a pair of states. *)
Definition on_world {S W A} (m : M W A) : M (S * W) A := λ sw,
  match m sw.2 with
  | (r, w') => (r, (sw.1, w'))
  end.

(** A computation on the first component ([self]). *)
Definition on_self {S W A} (m : M S A) : M (S * W) A := λ sw,
  match m sw.1 with
  | (r, s') => (r, (s', sw.2))
  end.

(** Bind on plain results (exceptions of pure numpy operations). *)
Definition rbind {A B} (r : Result A) (f : A → Result B) : Result B :=
  match r with
  | Ok a => f a
  | Raise e => Raise e
  end.

(** ** Relations that a method respects

    Used to say what a method leaves as it is. *)

(** A relation between the state before and the state after, whatever the
    outcome. *)
Definition respects {S A} (R : S → S → Prop) (m : M S A) : Prop :=
  ∀ s r s', m s = (r, s') → R s s'.

(** The same for the outcomes that are exceptions. *)
Definition respects_raising {S A} (R : S → S → Prop) (m : M S A) : Prop :=
  ∀ s e s', m s = (Raise e, s') → R s s'.

(** ** numpy arrays *)

Module np.

(** An array is its shape and its elements in row-major (C) order. *)
Record ndarray : Type := { shape : list nat; data : list float }.

Definition size_of (shp : list nat) : nat := foldr Nat.mul 1%nat shp.

(** The elements fill the shape. *)
Definition well_formed (a : ndarray) : Prop := length (data a) = size_of (shape a).

(** A Python float used as an array operand. *)
Definition scalar (x : float) : ndarray := {| shape := []; data := [x] |}.

(** [np.array(xs)] of a list of floats. *)
Definition array (xs : list float) : ndarray :=
  {| shape := [length xs]; data := xs |}.

(** [np.zeros(shp)]: float64 zeros; a negative dimension is refused. *)
Definition zeros (shp : list Z) : Result ndarray :=
  if forallb (Z.leb 0) shp
  then Ok {| shape := Z.to_nat <$> shp;
             data := replicate (size_of (Z.to_nat <$> shp)) 0%float |}
  else Raise (ValueError "negative dimensions are not allowed").

(** An integer index on an axis of length [len]: negative indices count from
    the end, anything outside [-len, len) is an [IndexError]. *)
Definition normalize_index (len : nat) (i : Z) : Result nat :=
  if ((0 <=? i) && (i <? Z.of_nat len))%Z then Ok (Z.to_nat i)
  else if ((- Z.of_nat len <=? i) && (i <? 0))%Z then Ok (Z.to_nat (i + Z.of_nat len))
  else Raise (IndexError "index is out of bounds for axis 0").

(** *** Broadcasting *)

(** Leading dimensions of length one are dropped from the source while it has
    more dimensions than the target (assignment only), then the source is
    padded with ones on the left. *)
Fixpoint strip_ones (n : nat) (src : list nat) : list nat :=
  match n, src with
  | S n', 1%nat :: src' => strip_ones n' src'
  | _, _ => src
  end.

Definition align (src tgt : list nat) : option (list nat) :=
  let src' := strip_ones (length src - length tgt) src in
  if (length src' <=? length tgt)%nat
  then Some (replicate (length tgt - length src') 1%nat ++ src')
  else None.

Fixpoint compatible (src tgt : list nat) : bool :=
  match src, tgt with
  | [], [] => true
  | s :: src', t :: tgt' => ((s =? t)%nat || (s =? 1)%nat) && compatible src' tgt'
  | _, _ => false
  end.

(** The elements of an array of shape [src], repeated to fill shape [tgt]
    (same number of dimensions, each one equal or of length one). *)
Fixpoint expand (src tgt : list nat) (d : list float) : list float :=
  match src, tgt with
  | s :: src', t :: tgt' =>
      let r := size_of src' in
      if (s =? t)%nat
      then flat_map (λ o, expand src' tgt' (take r (drop (o * r) d))) (seq 0 s)
      else concat (replicate t (expand src' tgt' d))
  | _, _ => d
  end.

Definition broadcast_to (a : ndarray) (tgt : list nat) : Result (list float) :=
  match align (shape a) tgt with
  | Some src =>
      if compatible src tgt then Ok (expand src tgt (data a))
      else Raise (ValueError "could not broadcast input array")
  | None => Raise (ValueError "could not broadcast input array")
  end.

(** The common shape of two operands, aligned on the right. *)
Fixpoint broadcast_dims (s1 s2 : list nat) : option (list nat) :=
  match s1, s2 with
  | [], [] => Some []
  | a :: s1', b :: s2' =>
      match broadcast_dims s1' s2' with
      | Some s =>
          if (a =? b)%nat then Some (a :: s)
          else if (a =? 1)%nat then Some (b :: s)
          else if (b =? 1)%nat then Some (a :: s)
          else None
      | None => None
      end
  | _, _ => None
  end.

Definition broadcast_shapes (s1 s2 : list nat) : option (list nat) :=
  let n := max (length s1) (length s2) in
  broadcast_dims (replicate (n - length s1) 1%nat ++ s1)
                 (replicate (n - length s2) 1%nat ++ s2).

(** [a op b] on two arrays. *)
Definition binop (f : float → float → float) (a b : ndarray) : Result ndarray :=
  match broadcast_shapes (shape a) (shape b) with
  | Some s =>
      rbind (broadcast_to a s) (λ da,
      rbind (broadcast_to b s) (λ db,
      Ok {| shape := s; data := zip_with f da db |}))
  | None => Raise (ValueError "operands could not be broadcast together")
  end.

(** [x op a] and [a op x] for a Python float [x]. *)
Definition scalar_l (f : float → float → float) (x : float) (a : ndarray) : ndarray :=
  {| shape := shape a; data := f x <$> data a |}.

Definition scalar_r (f : float → float → float) (a : ndarray) (x : float) : ndarray :=
  {| shape := shape a; data := (λ y, f y x) <$> data a |}.

(** *** Item assignment on the first axis *)

(** [a[i] = rhs] and [a[i, ...] = rhs]: the index is resolved first, then
    [rhs] is broadcast to the shape of one slot and copied into it. The
    normalised index is returned with the updated array. *)
Definition with_slot (a : ndarray) (k : nat) (row : list float) : ndarray :=
  let r := size_of (tail (shape a)) in
  {| shape := shape a;
     data := take (k * r) (data a) ++ row ++ drop ((k + 1) * r) (data a) |}.

Definition setitem (a : ndarray) (i : Z) (rhs : ndarray) : Result (nat * ndarray) :=
  match shape a with
  | [] => Raise (IndexError "too many indices for array")
  | len :: rest =>
      rbind (normalize_index len i) (λ k,
      rbind (broadcast_to rhs rest) (λ row,
      Ok (k, with_slot a k row)))
  end.

(** [a[None] = rhs] and [a[None, ...] = rhs]: [None] is [np.newaxis], the
    target is the whole array seen with one more leading axis. *)
Definition setitem_newaxis (a : ndarray) (rhs : ndarray) : Result ndarray :=
  rbind (broadcast_to rhs (1%nat :: shape a)) (λ d,
  Ok {| shape := shape a; data := d |}).

(** Slot [k] of the first axis. *)
Definition slot (a : ndarray) (k : nat) : list float :=
  let r := size_of (tail (shape a)) in
  take r (drop (k * r) (data a)).

(** Row [i] of a two-dimensional array: the elements [a[i, 0]], [a[i, 1]], ... *)
Definition row (a : ndarray) (i : nat) : list float :=
  let n := default 0%nat (shape a !! 1%nat) in
  (λ j, nth (i * n + j) (data a) 0%float) <$> seq 0 n.

(** *** Reductions along an axis *)

(** [np.add.reduce] on one lane of floats. numpy chooses the order of the
    additions (pairwise blocks on long contiguous lanes), so the summation is
    an interface of the library. *)
Class AddReduce : Type := add_reduce : list float → float.

Definition float_of_nat (n : nat) : float :=
  PrimFloat.of_uint63 (Uint63.of_Z (Z.of_nat n)).

(** Element [(o, k, i)] of an array seen as [outer x d x inner]. *)
Definition lane (a : ndarray) (d inner o i : nat) : list float :=
  (λ k, nth ((o * d + k) * inner + i) (data a) 0%float) <$> seq 0 d.

Definition reduce_axis (f : list float → float) (axis : nat) (a : ndarray) : Result ndarray :=
  match shape a !! axis with
  | None => Raise (AxisError "axis is out of bounds for array")
  | Some d =>
      let outer := size_of (take axis (shape a)) in
      let inner := size_of (drop (S axis) (shape a)) in
      Ok {| shape := take axis (shape a) ++ drop (S axis) (shape a);
            data := flat_map (λ o, (λ i, f (lane a d inner o i)) <$> seq 0 inner)
                             (seq 0 outer) |}
  end.

Section reductions.
Context {numpy_sum : AddReduce}.

(** [a.sum(axis)] *)
Definition sum_lane (xs : list float) : float := add_reduce xs.

(** [a.mean(axis)]: the sum divided by the number of items. *)
Definition mean_lane (xs : list float) : float :=
  (add_reduce xs / float_of_nat (length xs))%float.

(** [np.linalg.norm(a, axis=axis)]: [sqrt(add.reduce(a * a, axis))]. *)
Definition norm_lane (xs : list float) : float :=
  PrimFloat.sqrt (add_reduce ((λ x, (x * x)%float) <$> xs)).

Definition sum (a : ndarray) (axis : nat) : Result ndarray := reduce_axis sum_lane axis a.
Definition mean (a : ndarray) (axis : nat) : Result ndarray := reduce_axis mean_lane axis a.
Definition linalg_norm (a : ndarray) (axis : nat) : Result ndarray := reduce_axis norm_lane axis a.

End reductions.

End np.


(** ** The world shared by all objects

    The heap of arrays, and the trace of what the program did to what it does
    not own exclusively: every store into an array (with the slot written) and
    every call into the unit library, in program order. *)

Abbreviation loc := positive.

Inductive event : Type :=
| Store (l : loc) (idx : option nat)
| UnitOp (name : string).

Record World : Type := { heap : gmap positive np.ndarray; trace : list event }.

Definition emit (e : event) : M World unit := λ w,
  (Ok tt, {| heap := heap w; trace := trace w ++ [e] |}).

(** A new array object: a location no live object has. *)
Definition alloc (a : np.ndarray) : M World loc := λ w,
  let l := fresh (dom (heap w)) in
  (Ok l, {| heap := <[l := a]> (heap w); trace := trace w |}).

Definition load (l : loc) : M World np.ndarray := λ w,
  match heap w !! l with
  | Some a => (Ok a, w)
  | None => (Raise (SystemError "no such object"), w)
  end.

(** An operand that must be an array ([None] has no arithmetic). *)
Definition load_operand (v : option loc) : M World np.ndarray :=
  match v with
  | Some l => load l
  | None => raise (TypeError "unsupported operand type(s): 'NoneType'")
  end.

(** The array at [l] becomes [a]; the store and its slot are recorded. *)
Definition write (l : loc) (idx : option nat) (a : np.ndarray) : M World unit := λ w,
  (Ok tt, {| heap := <[l := a]> (heap w); trace := trace w ++ [Store l idx] |}).

Definition np_zeros (shp : list Z) : M World loc :=
  let* a := lift_result (np.zeros shp) in alloc a.

(** [target[idx] = rhs] and [target[idx, ...] = rhs], where the attribute
    [target] and the index [idx] may each be [None]. *)
Definition store_item (target : option loc) (idx : option Z) (rhs : np.ndarray) : M World unit :=
  match target with
  | None => raise (TypeError "'NoneType' object does not support item assignment")
  | Some l =>
      let* a := load l in
      match idx with
      | Some i =>
          let* '(k, a') := lift_result (np.setitem a i rhs) in
          write l (Some k) a'
      | None =>
          let* a' := lift_result (np.setitem_newaxis a rhs) in
          write l None a'
      end
  end.

(** ** The unit library (duq), consumed through its interface *)

(** What an attribute that holds a unit may hold: [None], a label, or a
    resolved [duq.Unit]. *)
Inductive pyunit (U : Type) : Type :=
| PNone
| PStr (label : string)
| PUnit (u : U).
Arguments PNone {U}.
Arguments PStr {U} label.
Arguments PUnit {U} u.

(** [duq.Unit(label)], the operators [*], [/] and [**] on units (each returns
    a unit or raises), and the value of
    [duq.predefined_constants.boltzmann_const.convert_unit(u)]. *)
Class UnitSystem (U : Type) : Type := {
  duq_Unit : string → Result U;
  duq_mul : pyunit U → pyunit U → Result U;
  duq_truediv : pyunit U → pyunit U → Result U;
  duq_pow : pyunit U → Z → Result U;
  duq_boltzmann_value : U → Result float;
}.

(** [helpers.convert_to_unit(unit, dimension, name)]; the module [helpers]
    of the repository is not among the sources, so the function is a
    parameter of the model. *)
Class Helpers (U : Type) : Type :=
  convert_to_unit : pyunit U → string → string → Result (pyunit U).

(** [data[z]["mass_Da"]] of [mdsim/data/elements_data.py] (not among the
    sources): the mass of the element with atomic number [z], a [KeyError]
    for a number the table does not have. *)
Class ElementsData : Type := mass_Da : Z → Result float.

Section unit_calls.
Context {U : Type} {duq : UnitSystem U}.

(** Calls into the unit library, each recorded in the trace. *)
Definition Unit_ (label : string) : M World U :=
  emit (UnitOp "Unit");;; lift_result (duq_Unit label).

Definition unit_mul (a b : pyunit U) : M World U :=
  emit (UnitOp "__mul__");;; lift_result (duq_mul a b).

Definition unit_truediv (a b : pyunit U) : M World U :=
  emit (UnitOp "__truediv__");;; lift_result (duq_truediv a b).

Definition unit_pow (a : pyunit U) (n : Z) : M World U :=
  emit (UnitOp "__pow__");;; lift_result (duq_pow a n).

Definition boltzmann_const_convert_unit (u : U) : M World float :=
  emit (UnitOp "convert_unit");;; lift_result (duq_boltzmann_value u).

End unit_calls.

(** [list(map(f, xs))] for an [f] that may raise. *)
Fixpoint map_result {A B} (f : A → Result B) (xs : list A) : Result (list B) :=
  match xs with
  | [] => Ok []
  | x :: xs' => rbind (f x) (λ y, rbind (map_result f xs') (λ ys, Ok (y :: ys)))
  end.

(** ** Relations between worlds *)

(** A relation on worlds, seen on the states of a method. *)
Definition in_world {S} (R : World → World → Prop) (st st' : S * World) : Prop :=
  R st.2 st'.2.

(** The heap is as it was, and the trace grew by calls into the unit library. *)
Definition is_unit_op (e : event) : Prop := ∃ name, e = UnitOp name.

Definition units_only (w w' : World) : Prop :=
  heap w' = heap w ∧ ∃ evs, trace w' = trace w ++ evs ∧ Forall is_unit_op evs.

(** Old arrays are as they were (new ones may have appeared), and the trace
    grew by calls into the unit library. *)
Definition grows (w w' : World) : Prop :=
  (∀ l a, heap w !! l = Some a → heap w' !! l = Some a)
  ∧ ∃ evs, trace w' = trace w ++ evs ∧ Forall is_unit_op evs.

(** A relation on [self] together with a relation on the world. *)
Definition frame {S} (Rs : S → S → Prop) (Rw : World → World → Prop)
    (st st' : S * World) : Prop :=
  Rs st.1 st'.1 ∧ Rw st.2 st'.2.

(** ** [TrajectoryAnalyzer] (traj_analyzer.py) *)

Module TrajectoryAnalyzer.

(** The attributes assigned once in [__init__] and only read afterwards. The
    six force-field series are the arrays the driver filled: the analyzer
    holds their locations, not copies. *)
Record Data : Type := {
  _positions : np.ndarray;
  _velocities : np.ndarray;
  _timestamps : np.ndarray;
  _atomic_numbers : list Z;
  _molecule_ids : list Z;
  _connectivity_matrix : list (list bool);
  _energy_potential_coulomb : option loc;
  _energy_potential_lennard_jones : option loc;
  _energy_potential_bond_vibration : option loc;
  _energy_potential_angle_vibration : option loc;
  _distances_interatomic : option loc;
  _bond_angles : option loc;
  _masses : np.ndarray;
}.

(** The unit attributes. *)
Record Units (U : Type) : Type := {
  _unit_mass : pyunit U;
  _unit_length : pyunit U;
  _unit_time : pyunit U;
  _unit_velocity : pyunit U;
  _unit_energy : pyunit U;
  _unit_angle : pyunit U;
  _unit_momentum : pyunit U;
  _unit_temperature : pyunit U;
}.
Arguments _unit_mass {U} _.
Arguments _unit_length {U} _.
Arguments _unit_time {U} _.
Arguments _unit_velocity {U} _.
Arguments _unit_energy {U} _.
Arguments _unit_angle {U} _.
Arguments _unit_momentum {U} _.
Arguments _unit_temperature {U} _.

(** The attributes that cache the derived quantities: [None] until computed. *)
Record Cache : Type := {
  _speeds : option loc;
  _momenta : option loc;
  _energy_kinetic_per_atom : option loc;
  _temperature : option loc;
  _energy_kinetic_total : option loc;
  _energy_potential_total : option loc;
  _energy_total : option loc;
  _bond_lengths : option loc;
}.

Record t (U : Type) : Type := { data : Data; units : Units U; cache : Cache }.
Arguments data {U} _.
Arguments units {U} _.
Arguments cache {U} _.

Section methods.
Context {U : Type} {duq : UnitSystem U} {helpers : Helpers U}.
Context {elements_data : ElementsData} {numpy_sum : np.AddReduce}.

Abbreviation Self := (t U * World)%type.

(** *** Attribute assignment *)

Definition set_units (f : Units U → Units U) : M Self unit :=
  modify (λ sw, ({| data := data sw.1; units := f (units sw.1); cache := cache sw.1 |}, sw.2)).

Definition set_data (f : Data → Data) : M Self unit :=
  modify (λ sw, ({| data := f (data sw.1); units := units sw.1; cache := cache sw.1 |}, sw.2)).

Definition set_cache (f : Cache → Cache) : M Self unit :=
  modify (λ sw, ({| data := data sw.1; units := units sw.1; cache := f (cache sw.1) |}, sw.2)).

Definition with_masses (v : np.ndarray) (d : Data) : Data :=
  {| _positions := _positions d; _velocities := _velocities d;
     _timestamps := _timestamps d; _atomic_numbers := _atomic_numbers d;
     _molecule_ids := _molecule_ids d; _connectivity_matrix := _connectivity_matrix d;
     _energy_potential_coulomb := _energy_potential_coulomb d;
     _energy_potential_lennard_jones := _energy_potential_lennard_jones d;
     _energy_potential_bond_vibration := _energy_potential_bond_vibration d;
     _energy_potential_angle_vibration := _energy_potential_angle_vibration d;
     _distances_interatomic := _distances_interatomic d;
     _bond_angles := _bond_angles d; _masses := v |}.

Definition with_unit_mass (v : pyunit U) (u : Units U) : Units U :=
  {| _unit_mass := v; _unit_length := _unit_length u; _unit_time := _unit_time u;
     _unit_velocity := _unit_velocity u; _unit_energy := _unit_energy u;
     _unit_angle := _unit_angle u; _unit_momentum := _unit_momentum u;
     _unit_temperature := _unit_temperature u |}.

Definition with_unit_length (v : pyunit U) (u : Units U) : Units U :=
  {| _unit_mass := _unit_mass u; _unit_length := v; _unit_time := _unit_time u;
     _unit_velocity := _unit_velocity u; _unit_energy := _unit_energy u;
     _unit_angle := _unit_angle u; _unit_momentum := _unit_momentum u;
     _unit_temperature := _unit_temperature u |}.

Definition with_unit_time (v : pyunit U) (u : Units U) : Units U :=
  {| _unit_mass := _unit_mass u; _unit_length := _unit_length u; _unit_time := v;
     _unit_velocity := _unit_velocity u; _unit_energy := _unit_energy u;
     _unit_angle := _unit_angle u; _unit_momentum := _unit_momentum u;
     _unit_temperature := _unit_temperature u |}.

Definition with_unit_velocity (v : pyunit U) (u : Units U) : Units U :=
  {| _unit_mass := _unit_mass u; _unit_length := _unit_length u; _unit_time := _unit_time u;
     _unit_velocity := v; _unit_energy := _unit_energy u;
     _unit_angle := _unit_angle u; _unit_momentum := _unit_momentum u;
     _unit_temperature := _unit_temperature u |}.

Definition with_unit_energy (v : pyunit U) (u : Units U) : Units U :=
  {| _unit_mass := _unit_mass u; _unit_length := _unit_length u; _unit_time := _unit_time u;
     _unit_velocity := _unit_velocity u; _unit_energy := v;
     _unit_angle := _unit_angle u; _unit_momentum := _unit_momentum u;
     _unit_temperature := _unit_temperature u |}.

Definition with_unit_angle (v : pyunit U) (u : Units U) : Units U :=
  {| _unit_mass := _unit_mass u; _unit_length := _unit_length u; _unit_time := _unit_time u;
     _unit_velocity := _unit_velocity u; _unit_energy := _unit_energy u;
     _unit_angle := v; _unit_momentum := _unit_momentum u;
     _unit_temperature := _unit_temperature u |}.

Definition with_unit_momentum (v : pyunit U) (u : Units U) : Units U :=
  {| _unit_mass := _unit_mass u; _unit_length := _unit_length u; _unit_time := _unit_time u;
     _unit_velocity := _unit_velocity u; _unit_energy := _unit_energy u;
     _unit_angle := _unit_angle u; _unit_momentum := v;
     _unit_temperature := _unit_temperature u |}.

Definition with_unit_temperature (v : pyunit U) (u : Units U) : Units U :=
  {| _unit_mass := _unit_mass u; _unit_length := _unit_length u; _unit_time := _unit_time u;
     _unit_velocity := _unit_velocity u; _unit_energy := _unit_energy u;
     _unit_angle := _unit_angle u; _unit_momentum := _unit_momentum u;
     _unit_temperature := v |}.

Definition with_speeds (v : option loc) (c : Cache) : Cache :=
  {| _speeds := v; _momenta := _momenta c;
     _energy_kinetic_per_atom := _energy_kinetic_per_atom c; _temperature := _temperature c;
     _energy_kinetic_total := _energy_kinetic_total c;
     _energy_potential_total := _energy_potential_total c;
     _energy_total := _energy_total c; _bond_lengths := _bond_lengths c |}.

Definition with_momenta (v : option loc) (c : Cache) : Cache :=
  {| _speeds := _speeds c; _momenta := v;
     _energy_kinetic_per_atom := _energy_kinetic_per_atom c; _temperature := _temperature c;
     _energy_kinetic_total := _energy_kinetic_total c;
     _energy_potential_total := _energy_potential_total c;
     _energy_total := _energy_total c; _bond_lengths := _bond_lengths c |}.

Definition with_energy_kinetic_per_atom (v : option loc) (c : Cache) : Cache :=
  {| _speeds := _speeds c; _momenta := _momenta c;
     _energy_kinetic_per_atom := v; _temperature := _temperature c;
     _energy_kinetic_total := _energy_kinetic_total c;
     _energy_potential_total := _energy_potential_total c;
     _energy_total := _energy_total c; _bond_lengths := _bond_lengths c |}.

Definition with_temperature (v : option loc) (c : Cache) : Cache :=
  {| _speeds := _speeds c; _momenta := _momenta c;
     _energy_kinetic_per_atom := _energy_kinetic_per_atom c; _temperature := v;
     _energy_kinetic_total := _energy_kinetic_total c;
     _energy_potential_total := _energy_potential_total c;
     _energy_total := _energy_total c; _bond_lengths := _bond_lengths c |}.

Definition with_energy_kinetic_total (v : option loc) (c : Cache) : Cache :=
  {| _speeds := _speeds c; _momenta := _momenta c;
     _energy_kinetic_per_atom := _energy_kinetic_per_atom c; _temperature := _temperature c;
     _energy_kinetic_total := v;
     _energy_potential_total := _energy_potential_total c;
     _energy_total := _energy_total c; _bond_lengths := _bond_lengths c |}.

Definition with_energy_potential_total (v : option loc) (c : Cache) : Cache :=
  {| _speeds := _speeds c; _momenta := _momenta c;
     _energy_kinetic_per_atom := _energy_kinetic_per_atom c; _temperature := _temperature c;
     _energy_kinetic_total := _energy_kinetic_total c;
     _energy_potential_total := v;
     _energy_total := _energy_total c; _bond_lengths := _bond_lengths c |}.

Definition with_energy_total (v : option loc) (c : Cache) : Cache :=
  {| _speeds := _speeds c; _momenta := _momenta c;
     _energy_kinetic_per_atom := _energy_kinetic_per_atom c; _temperature := _temperature c;
     _energy_kinetic_total := _energy_kinetic_total c;
     _energy_potential_total := _energy_potential_total c;
     _energy_total := v; _bond_lengths := _bond_lengths c |}.

(** Reading an attribute of [self]. *)
Definition attr {A} (f : t U → A) : M Self A := λ sw, (Ok (f sw.1), sw).

(** *** Unit properties *)

Definition unit_mass : M Self (pyunit U) :=
  let* v := attr (λ self, _unit_mass (units self)) in
  match v with
  | PStr label =>
      let* u := on_world (Unit_ label) in
      set_units (with_unit_mass (PUnit u))
  | _ => ret tt
  end;;;
  attr (λ self, _unit_mass (units self)).

Definition unit_length : M Self (pyunit U) :=
  let* v := attr (λ self, _unit_length (units self)) in
  match v with
  | PStr label =>
      let* u := on_world (Unit_ label) in
      set_units (with_unit_length (PUnit u))
  | _ => ret tt
  end;;;
  attr (λ self, _unit_length (units self)).

Definition unit_time : M Self (pyunit U) :=
  let* v := attr (λ self, _unit_time (units self)) in
  match v with
  | PStr label =>
      let* u := on_world (Unit_ label) in
      set_units (with_unit_time (PUnit u))
  | _ => ret tt
  end;;;
  attr (λ self, _unit_time (units self)).

Definition unit_velocity : M Self (pyunit U) :=
  let* v := attr (λ self, _unit_velocity (units self)) in
  match v with
  | PNone =>
      let* l := unit_length in
      let* tm := unit_time in
      let* u := on_world (unit_truediv l tm) in
      set_units (with_unit_velocity (PUnit u))
  | _ => ret tt
  end;;;
  attr (λ self, _unit_velocity (units self)).

Definition unit_momentum : M Self (pyunit U) :=
  let* v := attr (λ self, _unit_momentum (units self)) in
  match v with
  | PNone =>
      let* m := unit_mass in
      let* vel := unit_velocity in
      let* u := on_world (unit_mul m vel) in
      set_units (with_unit_momentum (PUnit u))
  | _ => ret tt
  end;;;
  attr (λ self, _unit_momentum (units self)).

(** [self.unit_mass * self.unit_length ** 2 / self.unit_time ** 2] *)
Definition unit_energy : M Self (pyunit U) :=
  let* v := attr (λ self, _unit_energy (units self)) in
  match v with
  | PNone =>
      let* m := unit_mass in
      let* l := unit_length in
      let* l2 := on_world (unit_pow l 2) in
      let* ml2 := on_world (unit_mul m (PUnit l2)) in
      let* tm := unit_time in
      let* t2 := on_world (unit_pow tm 2) in
      let* u := on_world (unit_truediv (PUnit ml2) (PUnit t2)) in
      set_units (with_unit_energy (PUnit u))
  | _ => ret tt
  end;;;
  attr (λ self, _unit_energy (units self)).

Definition unit_temperature : M Self (pyunit U) :=
  attr (λ self, _unit_temperature (units self)).

(** *** Names the class does not define

    [__init__] reads [self.atomic_numbers], [_calculate_speeds] reads
    [self.velocities], [_calculate_momenta] reads [self.masses] and
    [_calculate_energy_potential_total] reads the four
    [self.energy_potential_*]. The class assigns the attributes of these
    names with a leading underscore and defines no property, attribute or
    [__getattr__] for the names themselves, and it has no base class: the
    read raises [AttributeError]. *)

Definition atomic_numbers : M Self (list Z) :=
  raise (AttributeError "'TrajectoryAnalyzer' object has no attribute 'atomic_numbers'").
Definition velocities : M Self np.ndarray :=
  raise (AttributeError "'TrajectoryAnalyzer' object has no attribute 'velocities'").
Definition masses : M Self np.ndarray :=
  raise (AttributeError "'TrajectoryAnalyzer' object has no attribute 'masses'").
Definition energy_potential_coulomb : M Self (option loc) :=
  raise (AttributeError "'TrajectoryAnalyzer' object has no attribute 'energy_potential_coulomb'").
Definition energy_potential_lennard_jones : M Self (option loc) :=
  raise (AttributeError
           "'TrajectoryAnalyzer' object has no attribute 'energy_potential_lennard_jones'").
Definition energy_potential_bond_vibration : M Self (option loc) :=
  raise (AttributeError
           "'TrajectoryAnalyzer' object has no attribute 'energy_potential_bond_vibration'").
Definition energy_potential_angle_vibration : M Self (option loc) :=
  raise (AttributeError
           "'TrajectoryAnalyzer' object has no attribute 'energy_potential_angle_vibration'").

(** *** Derived quantities: computed on first read, cached *)

(** A computed array becomes a new object. *)
Definition new_array (r : Result np.ndarray) : M Self (option loc) :=
  let* a := lift_result r in
  let* l := on_world (alloc a) in
  ret (Some l).

Definition _calculate_speeds : M Self unit :=
  let* v := velocities in
  let* r := new_array (np.linalg_norm v 2) in
  set_cache (with_speeds r).

Definition speeds : M Self (option loc) :=
  let* c := attr (λ self, _speeds (cache self)) in
  match c with
  | None => _calculate_speeds
  | Some _ => ret tt
  end;;;
  attr (λ self, _speeds (cache self)).

Definition _calculate_momenta : M Self unit :=
  let* m := masses in
  let* sp := speeds in
  let* a := on_world (load_operand sp) in
  let* r := new_array (np.binop PrimFloat.mul m a) in
  set_cache (with_momenta r).

Definition momenta : M Self (option loc) :=
  let* c := attr (λ self, _momenta (cache self)) in
  match c with
  | None => _calculate_momenta
  | Some _ => ret tt
  end;;;
  attr (λ self, _momenta (cache self)).

(** [0.5 * self.momenta * self.speeds] *)
Definition _calculate_energy_kinetic_per_atom : M Self unit :=
  let* mo := momenta in
  let* p := on_world (load_operand mo) in
  let* sp := speeds in
  let* a := on_world (load_operand sp) in
  let* r := new_array (np.binop PrimFloat.mul (np.scalar_l PrimFloat.mul 0.5%float p) a) in
  set_cache (with_energy_kinetic_per_atom r).

Definition energy_kinetic_per_atom : M Self (option loc) :=
  let* c := attr (λ self, _energy_kinetic_per_atom (cache self)) in
  match c with
  | None => _calculate_energy_kinetic_per_atom
  | Some _ => ret tt
  end;;;
  attr (λ self, _energy_kinetic_per_atom (cache self)).

Definition _calculate_energy_kinetic_total : M Self unit :=
  let* ke := energy_kinetic_per_atom in
  let* a := on_world (load_operand ke) in
  let* r := new_array (np.sum a 1) in
  set_cache (with_energy_kinetic_total r).

Definition energy_kinetic_total : M Self (option loc) :=
  let* c := attr (λ self, _energy_kinetic_total (cache self)) in
  match c with
  | None => _calculate_energy_kinetic_total
  | Some _ => ret tt
  end;;;
  attr (λ self, _energy_kinetic_total (cache self)).

Definition _calculate_energy_potential_total : M Self unit :=
  let* c := energy_potential_coulomb in
  let* ac := on_world (load_operand c) in
  let* lj := energy_potential_lennard_jones in
  let* alj := on_world (load_operand lj) in
  let* s1 := lift_result (np.binop PrimFloat.add ac alj) in
  let* b := energy_potential_bond_vibration in
  let* ab := on_world (load_operand b) in
  let* s2 := lift_result (np.binop PrimFloat.add s1 ab) in
  let* an := energy_potential_angle_vibration in
  let* aan := on_world (load_operand an) in
  let* r := new_array (np.binop PrimFloat.add s2 aan) in
  set_cache (with_energy_potential_total r).

Definition energy_potential_total : M Self (option loc) :=
  let* c := attr (λ self, _energy_potential_total (cache self)) in
  match c with
  | None => _calculate_energy_potential_total
  | Some _ => ret tt
  end;;;
  attr (λ self, _energy_potential_total (cache self)).

Definition _calculate_energy_total : M Self unit :=
  let* pe := energy_potential_total in
  let* ap := on_world (load_operand pe) in
  let* ke := energy_kinetic_total in
  let* ak := on_world (load_operand ke) in
  let* r := new_array (np.binop PrimFloat.add ap ak) in
  set_cache (with_energy_total r).

Definition energy_total : M Self (option loc) :=
  let* c := attr (λ self, _energy_total (cache self)) in
  match c with
  | None => _calculate_energy_total
  | Some _ => ret tt
  end;;;
  attr (λ self, _energy_total (cache self)).

Definition _calculate_temperature : M Self unit :=
  let* ue := unit_energy in
  let* ut := unit_temperature in
  let* unit_boltzmann_const := on_world (unit_truediv ue ut) in
  let* boltzmann_const := on_world (boltzmann_const_convert_unit unit_boltzmann_const) in
  let* ke := energy_kinetic_per_atom in
  let* a := on_world (load_operand ke) in
  let* m := lift_result (np.mean a 1) in
  let* r := new_array (Ok (np.scalar_r PrimFloat.div m ((3 / 2) * boltzmann_const)%float)) in
  set_cache (with_temperature r).

Definition temperature : M Self (option loc) :=
  let* c := attr (λ self, _temperature (cache self)) in
  match c with
  | None => _calculate_temperature
  | Some _ => ret tt
  end;;;
  attr (λ self, _temperature (cache self)).

(** *** The constructor *)

(** The object under construction: [m] runs on it, and [__init__] hands it
    over when [m] returns; when [m] raises the object is lost, and what [m]
    did to the world stays. *)
Definition construct {A} (self : t U) (m : M Self A) : M World (t U) := λ w,
  match m (self, w) with
  | (Ok _, (self', w')) => (Ok self', w')
  | (Raise e, (_, w')) => (Raise e, w')
  end.

(** Lines 119-120:
    [self._unit_momentum = self.unit_mass * self.unit_velocity] and
    [self._unit_temperature = duq.Unit("K")]. *)
Definition __init__units : M Self unit :=
  let* m := unit_mass in
  let* v := unit_velocity in
  let* mv := on_world (unit_mul m v) in
  set_units (with_unit_momentum (PUnit mv));;;
  let* k := on_world (Unit_ "K") in
  set_units (with_unit_temperature (PUnit k)).

Definition empty_cache : Cache :=
  {| _speeds := None; _momenta := None; _energy_kinetic_per_atom := None;
     _temperature := None; _energy_kinetic_total := None;
     _energy_potential_total := None; _energy_total := None;
     _bond_lengths := None |}.

(** Lines 90-130. The first twelve assignments store the arguments; then
    line 107 reads [self.atomic_numbers] for the masses, and the assignments
    of the masses, of the units and of the cache follow it. An attribute that
    is not assigned yet is shown here with an empty value; [__init__] reads
    none of them before it assigns it. *)
Definition __init__
    (positions velocities timestamps : np.ndarray)
    (atomic_numbers0 molecule_ids : list Z)
    (connectivity_matrix : list (list bool))
    (energy_potential_coulomb energy_potential_lennard_jones
     energy_potential_bond_vibration energy_potential_angle_vibration
     distances_interatomic bond_angles : option loc)
    (unit_length unit_time unit_velocity unit_energy unit_angle : pyunit U)
    : M World (t U) :=
  construct
    {| data := {| _positions := positions; _velocities := velocities;
                  _timestamps := timestamps; _atomic_numbers := atomic_numbers0;
                  _molecule_ids := molecule_ids;
                  _connectivity_matrix := connectivity_matrix;
                  _energy_potential_coulomb := energy_potential_coulomb;
                  _energy_potential_lennard_jones := energy_potential_lennard_jones;
                  _energy_potential_bond_vibration := energy_potential_bond_vibration;
                  _energy_potential_angle_vibration := energy_potential_angle_vibration;
                  _distances_interatomic := distances_interatomic;
                  _bond_angles := bond_angles;
                  _masses := np.array [] |};
       units := {| _unit_mass := PNone; _unit_length := PNone; _unit_time := PNone;
                   _unit_velocity := PNone; _unit_energy := PNone; _unit_angle := PNone;
                   _unit_momentum := PNone; _unit_temperature := PNone |};
       cache := empty_cache |}
    (let* zs := atomic_numbers in
     let* ms := lift_result (map_result mass_Da zs) in
     set_data (with_masses (np.array ms));;;
     let* da := on_world (Unit_ "Da") in
     set_units (with_unit_mass (PUnit da));;;
     let* ul := lift_result (convert_to_unit unit_length "L" "unit_length") in
     set_units (with_unit_length ul);;;
     let* ut := lift_result (convert_to_unit unit_time "T" "unit_time") in
     set_units (with_unit_time ut);;;
     let* uv := lift_result (convert_to_unit unit_velocity "L.T^-1" "unit_velocity") in
     set_units (with_unit_velocity uv);;;
     let* ue := lift_result (convert_to_unit unit_energy "E" "unit_energy") in
     set_units (with_unit_energy ue);;;
     let* ua := lift_result (convert_to_unit unit_angle "dimensionless" "unit_angle") in
     set_units (with_unit_angle ua);;;
     __init__units;;;
     set_cache (λ _, empty_cache)).

(** The seven derived quantities, by name. *)
Inductive quantity : Type :=
| Speeds
| Momenta
| EnergyKineticPerAtom
| EnergyKineticTotal
| EnergyPotentialTotal
| EnergyTotal
| Temperature.

Definition read (q : quantity) : M Self (option loc) :=
  match q with
  | Speeds => speeds
  | Momenta => momenta
  | EnergyKineticPerAtom => energy_kinetic_per_atom
  | EnergyKineticTotal => energy_kinetic_total
  | EnergyPotentialTotal => energy_potential_total
  | EnergyTotal => energy_total
  | Temperature => temperature
  end.

(** The unit properties, by name. *)
Inductive unit_property : Type :=
| UnitMass
| UnitLength
| UnitTime
| UnitVelocity
| UnitMomentum
| UnitEnergy
| UnitTemperature.

Definition read_unit (p : unit_property) : M Self (pyunit U) :=
  match p with
  | UnitMass => unit_mass
  | UnitLength => unit_length
  | UnitTime => unit_time
  | UnitVelocity => unit_velocity
  | UnitMomentum => unit_momentum
  | UnitEnergy => unit_energy
  | UnitTemperature => unit_temperature
  end.

(** *** The vocabulary of the statements about the cache *)

(** The shape of the seven properties: compute when the attribute is [None],
    then return the attribute. *)
Definition lazy (field : Cache → option loc) (calc : M Self unit) : M Self (option loc) :=
  let* c := attr (λ self, field (cache self)) in
  match c with
  | None => calc
  | Some _ => ret tt
  end;;;
  attr (λ self, field (cache self)).

(** The attribute that caches a quantity. *)
Definition cache_field (q : quantity) : Cache → option loc :=
  match q with
  | Speeds => _speeds
  | Momenta => _momenta
  | EnergyKineticPerAtom => _energy_kinetic_per_atom
  | EnergyKineticTotal => _energy_kinetic_total
  | EnergyPotentialTotal => _energy_potential_total
  | EnergyTotal => _energy_total
  | Temperature => _temperature
  end.

(** The three derived unit properties. *)
Definition derived_unit (p : unit_property) : Prop :=
  p = UnitVelocity ∨ p = UnitMomentum ∨ p = UnitEnergy.

Definition unit_field (p : unit_property) : Units U → pyunit U :=
  match p with
  | UnitMass => _unit_mass
  | UnitLength => _unit_length
  | UnitTime => _unit_time
  | UnitVelocity => _unit_velocity
  | UnitMomentum => _unit_momentum
  | UnitEnergy => _unit_energy
  | UnitTemperature => _unit_temperature
  end.

(** *** What the properties leave as it is

    Between two states of an analyzer: the constructor's data, the cached
    temperature and the temperature unit are the same, old arrays are as they
    were, and (when [k], [e] are set) a cached kinetic energy per atom and a
    present energy unit stay. *)
Definition ta_rel (k e : bool) (st st' : Self) : Prop :=
  data st'.1 = data st.1
  ∧ _temperature (cache st'.1) = _temperature (cache st.1)
  ∧ _unit_temperature (units st'.1) = _unit_temperature (units st.1)
  ∧ grows st.2 st'.2
  ∧ (k → ∀ l, _energy_kinetic_per_atom (cache st.1) = Some l →
            _energy_kinetic_per_atom (cache st'.1) = Some l)
  ∧ (e → _unit_energy (units st.1) ≠ PNone →
         _unit_energy (units st'.1) = _unit_energy (units st.1)).

(** The array at [l] is the temperature of the state [st]: the mean over
    axis 1 of the cached kinetic energy per atom, divided by [3/2] times the
    Boltzmann constant as the unit library gives it in the unit
    [unit_energy / unit_temperature]. *)
Definition temperature_of (st : Self) (l : loc) : Prop :=
  ∃ lk ke ub kB m,
    _energy_kinetic_per_atom (cache st.1) = Some lk
    ∧ heap st.2 !! lk = Some ke
    ∧ _unit_energy (units st.1) ≠ PNone
    ∧ duq_truediv (_unit_energy (units st.1)) (_unit_temperature (units st.1)) = Ok ub
    ∧ duq_boltzmann_value ub = Ok kB
    ∧ np.mean ke 1 = Ok m
    ∧ heap st.2 !! l = Some (np.scalar_r PrimFloat.div m ((3 / 2) * kB)%float).

End methods.

End TrajectoryAnalyzer.

(** ** The collaborators of the driver, consumed through their interfaces *)

(** A Python object as the driver's constructor sees it: its class with the
    linearised list of the classes it derives from (itself first, as in
    [__mro__]), the names of its attributes, and the state its methods act on. *)
Record pyclass : Type := { cls_name : string; cls_mro : list string }.

Record pyobject (A : Type) : Type := {
  ob_class : pyclass;
  ob_attrs : list string;
  ob_value : A;
}.
Arguments ob_class {A} _.
Arguments ob_attrs {A} _.
Arguments ob_value {A} _.

Definition issubclass (c : pyclass) (name : string) : bool :=
  bool_decide (name ∈ cls_mro c).

Definition isinstance {A} (o : pyobject A) (name : string) : bool :=
  issubclass (ob_class o) name.

Module mdforce.

(** [mdforce.models.forcefield_superclass.ForceField]: the operations the
    driver calls on a force field with state [FF]. A method returns or raises,
    and leaves the force field in a new state either way. *)
Class ForceField (U FF : Type) : Type := {
  initialize_forcefield : FF → list nat → option np.ndarray → Result unit * FF;
  fit_units_to_input_data : FF → pyunit U → pyunit U → Result unit * FF;
  __call__ : FF → np.ndarray → Result unit * FF;
  energy_coulomb : FF → float;
  energy_lennard_jones : FF → float;
  energy_bond_vibration : FF → float;
  energy_angle_vibration : FF → float;
  bond_angles : FF → np.ndarray;
  distances : FF → np.ndarray;
  acceleration : FF → np.ndarray;
  unit_energy : FF → pyunit U;
  unit_angle : FF → pyunit U;
}.

Definition class_name : string := "mdforce.models.forcefield_superclass.ForceField".

End mdforce.

Module ensemble_generator.

(** [mdsim.ensemble_generator.superclass.EnsembleGenerator]: the read-only
    accessors of an ensemble [EN]. *)
Class EnsembleGenerator (U EN : Type) : Type := {
  positions : EN → np.ndarray;
  velocities : EN → np.ndarray;
  atomic_numbers : EN → list Z;
  molecule_ids : EN → list Z;
  connectivity_matrix : EN → list (list bool);
  box_lengths : EN → np.ndarray;
  unit_positions : EN → pyunit U;
  unit_time : EN → pyunit U;
  unit_velocities : EN → pyunit U;
  number_molecules_total : EN → Z;
  number_atoms_total : EN → Z;
}.

Definition class_name : string := "mdsim.ensemble_generator.superclass.EnsembleGenerator".

End ensemble_generator.

Module ode.

(** What [numintegrator.integrate] does with the function [f] it is given: it
    returns the three series, raises, or calls [f] on some positions and goes
    on with the acceleration it gets back. An exception of [f] ends the
    integration. *)
Inductive Integration : Type :=
| Return (positions velocities timestamps : np.ndarray)
| Fail (e : exn)
| CallF (q : np.ndarray) (k : np.ndarray → Integration).

(** [ode.integrate(integrator=ODE_2_EXPLICIT_VELOCITY_VERLET, f, x0, v0, dt, n_steps)] *)
Class Integrator : Type :=
  integrate : np.ndarray → np.ndarray → float → Z → Integration.

End ode.

(** ** [MDSimulation] (simulation.py) *)

Module MDSimulation.

(** The six arrays that store the force-field calculations. *)
Record Buffers : Type := {
  _energy_potential_coulomb : option loc;
  _energy_potential_lennard_jones : option loc;
  _energy_potential_bond_vibration : option loc;
  _energy_potential_angle_vibration : option loc;
  _bond_angles : option loc;
  _distances_interatomic : option loc;
}.

Record t (U FF EN : Type) : Type := {
  _forcefield : pyobject FF;
  _ensemble : pyobject EN;
  _trajectory : option (TrajectoryAnalyzer.t U);
  _positions : option np.ndarray;
  _velocities : option np.ndarray;
  _timestamps : option np.ndarray;
  buffers : Buffers;
  _curr_step : option Z;
}.
Arguments _forcefield {U FF EN} _.
Arguments _ensemble {U FF EN} _.
Arguments _trajectory {U FF EN} _.
Arguments _positions {U FF EN} _.
Arguments _velocities {U FF EN} _.
Arguments _timestamps {U FF EN} _.
Arguments buffers {U FF EN} _.
Arguments _curr_step {U FF EN} _.

Section methods.
Context {U FF EN : Type}.
Context {duq : UnitSystem U} {helpers : Helpers U}.
Context {elements_data : ElementsData} {numpy_sum : np.AddReduce}.
Context {forcefield_ops : mdforce.ForceField U FF}.
Context {ensemble_ops : ensemble_generator.EnsembleGenerator U EN}.
Context {numintegrator : ode.Integrator}.

Abbreviation Self := (t U FF EN * World)%type.

Definition __init__ (forcefield : pyobject FF) (ensemble : pyobject EN) : Result (t U FF EN) :=
  if negb (isinstance forcefield mdforce.class_name)
     || negb (issubclass (ob_class forcefield) mdforce.class_name)
  then Raise (ValueError "Argument `forcefield` should either be an instance or a subclass of `mdforce.models.forcefield_superclass.ForceField`.")
  else
    if negb (isinstance ensemble ensemble_generator.class_name)
       || negb (issubclass (ob_class ensemble) ensemble_generator.class_name)
    then Raise (ValueError "Argument `ensemble` should either be an instance or a subclass of `mdsim.ensemble_generator.superclass.EnsembleGenerator`.")
    else
      Ok {| _forcefield := forcefield;
            _ensemble := ensemble;
            _trajectory := None;
            _positions := None;
            _velocities := None;
            _timestamps := None;
            buffers := {| _energy_potential_coulomb := None;
                          _energy_potential_lennard_jones := None;
                          _energy_potential_bond_vibration := None;
                          _energy_potential_angle_vibration := None;
                          _bond_angles := None;
                          _distances_interatomic := None |};
            _curr_step := None |}.

Definition trajectory (self : t U FF EN) : Result (TrajectoryAnalyzer.t U) :=
  match _trajectory self with
  | None => Raise (ValueError "The simulation has not yet been run.")
  | Some tr => Ok tr
  end.

Definition ensemble (self : t U FF EN) : pyobject EN := _ensemble self.

Definition forcefield (self : t U FF EN) : pyobject FF := _forcefield self.

(** *** Attribute assignment *)

Definition attr {A} (f : t U FF EN → A) : M Self A := λ sw, (Ok (f sw.1), sw).

Definition with_buffers (f : Buffers → Buffers) (self : t U FF EN) : t U FF EN :=
  {| _forcefield := _forcefield self; _ensemble := _ensemble self;
     _trajectory := _trajectory self; _positions := _positions self;
     _velocities := _velocities self; _timestamps := _timestamps self;
     buffers := f (buffers self); _curr_step := _curr_step self |}.

Definition with_curr_step (v : option Z) (self : t U FF EN) : t U FF EN :=
  {| _forcefield := _forcefield self; _ensemble := _ensemble self;
     _trajectory := _trajectory self; _positions := _positions self;
     _velocities := _velocities self; _timestamps := _timestamps self;
     buffers := buffers self; _curr_step := v |}.

Definition with_results (p v ts : np.ndarray) (self : t U FF EN) : t U FF EN :=
  {| _forcefield := _forcefield self; _ensemble := _ensemble self;
     _trajectory := _trajectory self; _positions := Some p;
     _velocities := Some v; _timestamps := Some ts;
     buffers := buffers self; _curr_step := _curr_step self |}.

Definition with_trajectory (v : option (TrajectoryAnalyzer.t U)) (self : t U FF EN) : t U FF EN :=
  {| _forcefield := _forcefield self; _ensemble := _ensemble self;
     _trajectory := v; _positions := _positions self;
     _velocities := _velocities self; _timestamps := _timestamps self;
     buffers := buffers self; _curr_step := _curr_step self |}.

(** The force-field object is the same object; its state changes. *)
Definition with_forcefield_state (ff : FF) (self : t U FF EN) : t U FF EN :=
  {| _forcefield := {| ob_class := ob_class (_forcefield self);
                       ob_attrs := ob_attrs (_forcefield self);
                       ob_value := ff |};
     _ensemble := _ensemble self;
     _trajectory := _trajectory self; _positions := _positions self;
     _velocities := _velocities self; _timestamps := _timestamps self;
     buffers := buffers self; _curr_step := _curr_step self |}.

Definition with_energy_potential_coulomb (v : option loc) (b : Buffers) : Buffers :=
  {| _energy_potential_coulomb := v;
     _energy_potential_lennard_jones := _energy_potential_lennard_jones b;
     _energy_potential_bond_vibration := _energy_potential_bond_vibration b;
     _energy_potential_angle_vibration := _energy_potential_angle_vibration b;
     _bond_angles := _bond_angles b;
     _distances_interatomic := _distances_interatomic b |}.

Definition with_energy_potential_lennard_jones (v : option loc) (b : Buffers) : Buffers :=
  {| _energy_potential_coulomb := _energy_potential_coulomb b;
     _energy_potential_lennard_jones := v;
     _energy_potential_bond_vibration := _energy_potential_bond_vibration b;
     _energy_potential_angle_vibration := _energy_potential_angle_vibration b;
     _bond_angles := _bond_angles b;
     _distances_interatomic := _distances_interatomic b |}.

Definition with_energy_potential_bond_vibration (v : option loc) (b : Buffers) : Buffers :=
  {| _energy_potential_coulomb := _energy_potential_coulomb b;
     _energy_potential_lennard_jones := _energy_potential_lennard_jones b;
     _energy_potential_bond_vibration := v;
     _energy_potential_angle_vibration := _energy_potential_angle_vibration b;
     _bond_angles := _bond_angles b;
     _distances_interatomic := _distances_interatomic b |}.

Definition with_energy_potential_angle_vibration (v : option loc) (b : Buffers) : Buffers :=
  {| _energy_potential_coulomb := _energy_potential_coulomb b;
     _energy_potential_lennard_jones := _energy_potential_lennard_jones b;
     _energy_potential_bond_vibration := _energy_potential_bond_vibration b;
     _energy_potential_angle_vibration := v;
     _bond_angles := _bond_angles b;
     _distances_interatomic := _distances_interatomic b |}.

Definition with_bond_angles (v : option loc) (b : Buffers) : Buffers :=
  {| _energy_potential_coulomb := _energy_potential_coulomb b;
     _energy_potential_lennard_jones := _energy_potential_lennard_jones b;
     _energy_potential_bond_vibration := _energy_potential_bond_vibration b;
     _energy_potential_angle_vibration := _energy_potential_angle_vibration b;
     _bond_angles := v;
     _distances_interatomic := _distances_interatomic b |}.

Definition with_distances_interatomic (v : option loc) (b : Buffers) : Buffers :=
  {| _energy_potential_coulomb := _energy_potential_coulomb b;
     _energy_potential_lennard_jones := _energy_potential_lennard_jones b;
     _energy_potential_bond_vibration := _energy_potential_bond_vibration b;
     _energy_potential_angle_vibration := _energy_potential_angle_vibration b;
     _bond_angles := _bond_angles b;
     _distances_interatomic := v |}.

Definition set_self (f : t U FF EN → t U FF EN) : M Self unit :=
  modify (λ sw, (f sw.1, sw.2)).

(** A method call on [self._forcefield]. *)
Definition forcefield_call (method : FF → Result unit * FF) : M Self unit := λ sw,
  match method (ob_value (_forcefield sw.1)) with
  | (r, ff') => (r, (with_forcefield_state ff' sw.1, sw.2))
  end.

(** [self.<target>[self._curr_step] = self._forcefield.<source>] (and the
    form with [, ...]). *)
Definition record_step (target : Buffers → option loc) (source : FF → np.ndarray) : M Self unit :=
  let* tgt := attr (λ self, target (buffers self)) in
  let* idx := attr _curr_step in
  let* rhs := attr (λ self, source (ob_value (_forcefield self))) in
  on_world (store_item tgt idx rhs).

(** *** The force function handed to the integrator *)

Definition _force (q : np.ndarray) : M Self np.ndarray :=
  forcefield_call (λ ff, mdforce.__call__ ff q);;;
  record_step _energy_potential_coulomb (λ ff, np.scalar (mdforce.energy_coulomb ff));;;
  record_step _energy_potential_lennard_jones (λ ff, np.scalar (mdforce.energy_lennard_jones ff));;;
  record_step _energy_potential_bond_vibration (λ ff, np.scalar (mdforce.energy_bond_vibration ff));;;
  record_step _energy_potential_angle_vibration (λ ff, np.scalar (mdforce.energy_angle_vibration ff));;;
  record_step _bond_angles mdforce.bond_angles;;;
  record_step _distances_interatomic mdforce.distances;;;
  let* c := attr _curr_step in
  match c with
  | Some n => set_self (with_curr_step (Some (n + 1)%Z))
  | None => raise (TypeError "unsupported operand type(s) for +=: 'NoneType' and 'int'")
  end;;;
  attr (λ self, mdforce.acceleration (ob_value (_forcefield self))).

(** The integration with [f = self._force]. *)
Fixpoint integrate_with_force (i : ode.Integration)
    : M Self (np.ndarray * np.ndarray * np.ndarray) :=
  match i with
  | ode.Return p v ts => ret (p, v, ts)
  | ode.Fail e => raise e
  | ode.CallF q k => let* a := _force q in integrate_with_force (k a)
  end.

(** *** [run] *)

(** Lines 120-140: the arrays for the force-field calculations, the
    force-field initialisation and unit fit, the step counter. *)
Definition run_prepare (num_steps : Z) (pbc : bool) : M Self unit :=
  let* b := on_world (np_zeros [num_steps + 1]%Z) in
  set_self (with_buffers (with_energy_potential_coulomb (Some b)));;;
  let* b := on_world (np_zeros [num_steps + 1]%Z) in
  set_self (with_buffers (with_energy_potential_lennard_jones (Some b)));;;
  let* b := on_world (np_zeros [num_steps + 1]%Z) in
  set_self (with_buffers (with_energy_potential_bond_vibration (Some b)));;;
  let* b := on_world (np_zeros [num_steps + 1]%Z) in
  set_self (with_buffers (with_energy_potential_angle_vibration (Some b)));;;
  let* ens := attr (λ self, ob_value (ensemble self)) in
  let* b := on_world (np_zeros [num_steps + 1; ensemble_generator.number_molecules_total ens]%Z) in
  set_self (with_buffers (with_bond_angles (Some b)));;;
  let* b := on_world (np_zeros [num_steps + 1; ensemble_generator.number_atoms_total ens;
                                ensemble_generator.number_atoms_total ens]%Z) in
  set_self (with_buffers (with_distances_interatomic (Some b)));;;
  forcefield_call (λ ff, mdforce.initialize_forcefield ff
    (np.shape (ensemble_generator.positions ens))
    (if pbc then Some (ensemble_generator.box_lengths ens) else None));;;
  forcefield_call (λ ff, mdforce.fit_units_to_input_data ff
    (ensemble_generator.unit_positions ens) (ensemble_generator.unit_time ens));;;
  set_self (with_curr_step (Some 0%Z)).

(** Lines 141-170: the integration and the [TrajectoryAnalyzer] made of its
    results. *)
Definition run_integrate (num_steps : Z) (dt : float) : M Self unit :=
  let* ens := attr (λ self, ob_value (ensemble self)) in
  let* '(p, v, ts) := integrate_with_force
    (ode.integrate (ensemble_generator.positions ens) (ensemble_generator.velocities ens)
                   dt num_steps) in
  set_self (with_results p v ts);;;
  let* self := attr id in
  let* tr := on_world (TrajectoryAnalyzer.__init__
    p v ts
    (ensemble_generator.atomic_numbers ens)
    (ensemble_generator.molecule_ids ens)
    (ensemble_generator.connectivity_matrix ens)
    (_energy_potential_coulomb (buffers self))
    (_energy_potential_lennard_jones (buffers self))
    (_energy_potential_bond_vibration (buffers self))
    (_energy_potential_angle_vibration (buffers self))
    (_distances_interatomic (buffers self))
    (_bond_angles (buffers self))
    (ensemble_generator.unit_positions ens)
    (ensemble_generator.unit_time ens)
    (ensemble_generator.unit_velocities ens)
    (mdforce.unit_energy (ob_value (forcefield self)))
    (mdforce.unit_angle (ob_value (forcefield self)))) in
  set_self (with_trajectory (Some tr)).

Definition run (num_steps : Z) (dt : float) (pbc : bool) : M Self unit :=
  run_prepare num_steps pbc;;;
  run_integrate num_steps dt.

(** *** The vocabulary of the statements about the driver *)

(** The six diagnostic quantities, in the order [_force] records them: the
    attribute that holds the array, and what the force field supplies. *)
Inductive channel : Type :=
| Coulomb
| LennardJones
| BondVibration
| AngleVibration
| BondAngles
| Distances.

Global Instance channel_eq_dec : EqDecision channel.
Proof. solve_decision. Defined.

Definition channels : list channel :=
  [Coulomb; LennardJones; BondVibration; AngleVibration; BondAngles; Distances].

Definition target (ch : channel) : Buffers → option loc :=
  match ch with
  | Coulomb => _energy_potential_coulomb
  | LennardJones => _energy_potential_lennard_jones
  | BondVibration => _energy_potential_bond_vibration
  | AngleVibration => _energy_potential_angle_vibration
  | BondAngles => _bond_angles
  | Distances => _distances_interatomic
  end.

Definition source (ch : channel) (ff : FF) : np.ndarray :=
  match ch with
  | Coulomb => np.scalar (mdforce.energy_coulomb ff)
  | LennardJones => np.scalar (mdforce.energy_lennard_jones ff)
  | BondVibration => np.scalar (mdforce.energy_bond_vibration ff)
  | AngleVibration => np.scalar (mdforce.energy_angle_vibration ff)
  | BondAngles => mdforce.bond_angles ff
  | Distances => mdforce.distances ff
  end.

(** The shape of one slot of a buffer, for [m] molecules and [n] atoms. *)
Definition slot_shape (m n : nat) (ch : channel) : list nat :=
  match ch with
  | BondAngles => [m]
  | Distances => [n; n]
  | _ => []
  end.

(** The arrays of the channels [chs] are allocated with [len] slots. *)
Definition channels_ready (chs : list channel) (b : Buffers) (w : World) (len m n : nat) : Prop :=
  ∀ ch, ch ∈ chs → ∃ l a, target ch b = Some l ∧ heap w !! l = Some a
                          ∧ np.well_formed a ∧ np.shape a = len :: slot_shape m n ch.

(** No two channels share an array. *)
Definition distinct_targets (b : Buffers) : Prop :=
  ∀ ch ch', target ch b = target ch' b → ch = ch'.

(** The shape [run] gives the buffer of a channel. *)
Definition buffer_shape (num_steps : Z) (ens : EN) (ch : channel) : list Z :=
  match ch with
  | BondAngles => [num_steps + 1; ensemble_generator.number_molecules_total ens]%Z
  | Distances => [num_steps + 1; ensemble_generator.number_atoms_total ens;
                  ensemble_generator.number_atoms_total ens]%Z
  | _ => [num_steps + 1]%Z
  end.

(** The buffers as [run] allocates them: six different arrays with [len]
    slots each. *)
Definition buffers_allocated (self : t U FF EN) (w : World) (len m n : nat) : Prop :=
  channels_ready channels (buffers self) w len m n ∧ distinct_targets (buffers self).

(** The force field supplies diagnostics of the shape of a slot. *)
Definition conformant (m n : nat) (ff : FF) : Prop :=
  ∀ ch, np.well_formed (source ch ff) ∧ np.shape (source ch ff) = slot_shape m n ch.

(** The stores of one invocation that writes slot [i]. *)
Definition stores (b : Buffers) (i : nat) : list event :=
  omap (λ ch, (λ l, Store l (Some i)) <$> target ch b) channels.

(** The world after the stores of the channels [chs] into slot [c], with
    the diagnostics of the force-field state [ff]. *)
Definition record_world_step (ch : channel) (b : Buffers) (ff : FF) (c : nat) (w : World) : World :=
  match target ch b with
  | Some l =>
      match heap w !! l with
      | Some a =>
          {| heap := <[l := np.with_slot a c (np.data (source ch ff))]> (heap w);
             trace := trace w ++ [Store l (Some c)] |}
      | None => w
      end
  | None => w
  end.

Definition record_world (chs : list channel) (b : Buffers) (ff : FF) (c : nat) (w : World) : World :=
  foldl (λ w ch, record_world_step ch b ff c w) w chs.

(** [record_step] for the channels [chs], then [k]. *)
Definition record_then {A} (chs : list channel) (k : M Self A) : M Self A :=
  foldr (λ ch k, record_step (target ch) (source ch);;; k) k chs.

(** The callback invoked on the positions [qs], one after the other, as an
    integrator does. *)
Fixpoint force_calls (qs : list np.ndarray) : M Self (list np.ndarray) :=
  match qs with
  | [] => ret []
  | q :: qs' =>
      let* a := _force q in
      let* accs := force_calls qs' in
      ret (a :: accs)
  end.

(** The states of the force field after each of its evaluations on [qs], when
    none of them raises. *)
Fixpoint evaluations (ff : FF) (qs : list np.ndarray) : option (list FF) :=
  match qs with
  | [] => Some []
  | q :: qs' =>
      match mdforce.__call__ ff q with
      | (Ok _, ff') => (ff' ::.) <$> evaluations ff' qs'
      | (Raise _, _) => None
      end
  end.

(** The part of the integrator's contract about its result: when it returns,
    the position series has [frames] frames. *)
Inductive yields_frames (frames : nat) : ode.Integration → Prop :=
| yields_return p v ts :
    head (np.shape p) = Some frames → yields_frames frames (ode.Return p v ts)
| yields_fail e : yields_frames frames (ode.Fail e)
| yields_call q k :
    (∀ a, yields_frames frames (k a)) → yields_frames frames (ode.CallF q k).

(** The capability contracts as the specification words them (its section on
    external interfaces): a force field is an object with the operations to
    initialise, to fit its units and to evaluate positions, and with fields
    for the four energy components, the pairwise distances and the bond
    angles; an ensemble is an object with accessors for positions,
    velocities, atomic numbers, molecule ids, connectivity, box lengths and
    the declared length, time and velocity units. The names are those the
    driver uses. *)
Definition forcefield_operations : list string :=
  ["initialize_forcefield"; "fit_units_to_input_data"; "__call__";
   "energy_coulomb"; "energy_lennard_jones"; "energy_bond_vibration";
   "energy_angle_vibration"; "distances"; "bond_angles"].

Definition ensemble_operations : list string :=
  ["positions"; "velocities"; "atomic_numbers"; "molecule_ids";
   "connectivity_matrix"; "box_lengths"; "unit_positions"; "unit_time";
   "unit_velocities"].

Definition has_operations {A} (ops : list string) (o : pyobject A) : bool :=
  forallb (λ name, bool_decide (name ∈ ob_attrs o)) ops.

Definition satisfies_forcefield_contract (o : pyobject FF) : bool :=
  has_operations forcefield_operations o.

Definition satisfies_ensemble_contract (o : pyobject EN) : bool :=
  has_operations ensemble_operations o.

(** The drivers on which no [run] has completed: a new one, and one on which
    a [run] raised. *)
Inductive never_completed : Self → Prop :=
| never_new forcefield ensemble self w :
    __init__ forcefield ensemble = Ok self → never_completed (self, w)
| never_failed st num_steps dt pbc e st' :
    never_completed st → run num_steps dt pbc st = (Raise e, st') →
    never_completed st'.

(** *** Relations between the states of the driver *)

(** The state of the driver after one more evaluation of the force field. *)
Definition stepped (ff' : FF) (c : nat) (self : t U FF EN) : t U FF EN :=
  with_curr_step (Some (Z.of_nat (S c))) (with_forcefield_state ff' self).

(** What [run_prepare] leaves as it is. *)
Definition prepare_frame (st st' : Self) : Prop :=
  _trajectory st'.1 = _trajectory st.1
  ∧ _ensemble st'.1 = _ensemble st.1
  ∧ (∀ l a, heap st.2 !! l = Some a → heap st'.2 !! l = Some a)
  ∧ trace st'.2 = trace st.2.

(** What the integration leaves as it is: the attributes that hold the buffers, the trajectory and the ensemble are
    the same; no array appears; an array keeps its shape, and its contents
    unless it is one of the buffers; the trace grows by stores into the
    buffers and calls into the unit library. *)
Definition buffer_event (b : Buffers) (e : event) : Prop :=
  is_unit_op e ∨ ∃ ch l k, target ch b = Some l ∧ e = Store l k.

Definition driver_frame (st st' : Self) : Prop :=
  buffers st'.1 = buffers st.1
  ∧ _trajectory st'.1 = _trajectory st.1
  ∧ _ensemble st'.1 = _ensemble st.1
  ∧ (∀ l, heap st.2 !! l = None → heap st'.2 !! l = None)
  ∧ (∀ l a, heap st.2 !! l = Some a →
       ∃ a', heap st'.2 !! l = Some a' ∧ np.shape a' = np.shape a
             ∧ ((∀ ch, target ch (buffers st.1) ≠ Some l) → a' = a))
  ∧ (∃ evs, trace st'.2 = trace st.2 ++ evs ∧ Forall (buffer_event (buffers st.1)) evs).

End methods.

End MDSimulation.

(** ** Concrete collaborators

    Small instances of the interfaces, used to run the model on concrete
    inputs. *)

Module Stub.

(** Units as the expressions that built them. *)
Inductive unit_expr : Type :=
| Base (label : string)
| Mul (a b : unit_expr)
| Div (a b : unit_expr)
| Pow (a : unit_expr) (n : Z).

(** An operand of unit arithmetic: a unit, or a label that is resolved. *)
Definition operand (v : pyunit unit_expr) : Result unit_expr :=
  match v with
  | PUnit u => Ok u
  | PStr label => Ok (Base label)
  | PNone => Raise (TypeError "unsupported operand type(s): 'NoneType'")
  end.

Global Instance units : UnitSystem unit_expr := {|
  duq_Unit label := Ok (Base label);
  duq_mul a b := rbind (operand a) (λ x, rbind (operand b) (λ y, Ok (Mul x y)));
  duq_truediv a b := rbind (operand a) (λ x, rbind (operand b) (λ y, Ok (Div x y)));
  duq_pow a n := rbind (operand a) (λ x, Ok (Pow x n));
  duq_boltzmann_value u := Ok 2%float;
|}.

(** Modelled from the spec: [helpers.convert_to_unit] (the module [helpers]
    is not among the sources). A unit input is sometimes a label and
    sometimes a resolved handle; a label is resolved, a handle is kept, and an
    absent unit stays absent. *)
Global Instance helpers : Helpers unit_expr := λ v dimension name,
  match v with
  | PStr label => Ok (PUnit (Base label))
  | PUnit u => Ok (PUnit u)
  | PNone => Ok PNone
  end.

(** Two rows of the element table. *)
Global Instance elements : ElementsData := λ z,
  if (z =? 1)%Z then Ok 1%float
  else if (z =? 8)%Z then Ok 16%float
  else Raise (KeyError "atomic number").

(** Summation from left to right. *)
Global Instance add_reduce_sequential : np.AddReduce :=
  foldl PrimFloat.add 0%float.

(** A force field that counts its evaluations and reports the count in every
    diagnostic quantity; [fail_init] makes its initialisation raise and
    [fail_at] makes the evaluation with that number raise. *)
Record force_field : Type := {
  calls : nat;
  n_atoms : nat;
  n_molecules : nat;
  fail_init : bool;
  fail_at : option nat;
}.

Definition evaluated (ff : force_field) : force_field :=
  {| calls := S (calls ff); n_atoms := n_atoms ff; n_molecules := n_molecules ff;
     fail_init := fail_init ff; fail_at := fail_at ff |}.

Definition filled (shp : list nat) (x : float) : np.ndarray :=
  {| np.shape := shp; np.data := replicate (np.size_of shp) x |}.

Global Instance force_field_ops : mdforce.ForceField unit_expr force_field := {|
  mdforce.initialize_forcefield ff shp box :=
    if fail_init ff then (Raise (CollaboratorError "initialize_forcefield"), ff)
    else (Ok tt, ff);
  mdforce.fit_units_to_input_data ff ul ut := (Ok tt, ff);
  mdforce.__call__ ff q :=
    if bool_decide (fail_at ff = Some (calls ff))
    then (Raise (CollaboratorError "__call__"), ff)
    else (Ok tt, evaluated ff);
  mdforce.energy_coulomb ff := np.float_of_nat (calls ff);
  mdforce.energy_lennard_jones ff := np.float_of_nat (10 + calls ff);
  mdforce.energy_bond_vibration ff := np.float_of_nat (20 + calls ff);
  mdforce.energy_angle_vibration ff := np.float_of_nat (30 + calls ff);
  mdforce.bond_angles ff := filled [n_molecules ff] (np.float_of_nat (40 + calls ff));
  mdforce.distances ff := filled [n_atoms ff; n_atoms ff] (np.float_of_nat (50 + calls ff));
  mdforce.acceleration ff := filled [n_atoms ff; 3%nat] 0%float;
  mdforce.unit_energy ff := PStr "kJ.mol^-1";
  mdforce.unit_angle ff := PStr "rad";
|}.

(** An ensemble given by its data. *)
Record ensemble : Type := {
  ens_positions : np.ndarray;
  ens_velocities : np.ndarray;
  ens_atomic_numbers : list Z;
  ens_molecule_ids : list Z;
  ens_number_molecules : Z;
}.

Global Instance ensemble_ops : ensemble_generator.EnsembleGenerator unit_expr ensemble := {|
  ensemble_generator.positions := ens_positions;
  ensemble_generator.velocities := ens_velocities;
  ensemble_generator.atomic_numbers := ens_atomic_numbers;
  ensemble_generator.molecule_ids := ens_molecule_ids;
  ensemble_generator.connectivity_matrix en := (λ _, (λ _, false) <$> ens_atomic_numbers en) <$> ens_atomic_numbers en;
  ensemble_generator.box_lengths en := filled [3%nat] 10%float;
  ensemble_generator.unit_positions en := PStr "nm";
  ensemble_generator.unit_time en := PStr "ps";
  ensemble_generator.unit_velocities en := PStr "nm.ps^-1";
  ensemble_generator.number_molecules_total := ens_number_molecules;
  ensemble_generator.number_atoms_total en := Z.of_nat (length (ens_atomic_numbers en));
|}.

(** Modelled from the spec: the Integrator capability (the package
    [numintegrator] is not among the sources). It calls the step function on
    the initial positions and once after each of the [n_steps] position
    updates of an explicit velocity-Verlet scheme, and returns the series of
    [n_steps + 1] frames; [extra] more calls model an integrator that breaks
    the contract. *)
Definition pointwise (f : float → float → float) (a b : np.ndarray) : np.ndarray :=
  {| np.shape := np.shape a; np.data := zip_with f (np.data a) (np.data b) |}.

Definition stack (frames : list np.ndarray) (frame_shape : list nat) : np.ndarray :=
  {| np.shape := length frames :: frame_shape;
     np.data := frames ≫= np.data |}.

Fixpoint extra_calls (extra : nat) (x : np.ndarray) (result : ode.Integration) : ode.Integration :=
  match extra with
  | O => result
  | S extra' => ode.CallF x (λ _, extra_calls extra' x result)
  end.

Fixpoint verlet (n : nat) (extra : nat) (dt : float) (x v a : np.ndarray)
    (xs vs : list np.ndarray) (ts : list float) (now : float) : ode.Integration :=
  match n with
  | O =>
      extra_calls extra x
        (ode.Return (stack (reverse xs) (np.shape x)) (stack (reverse vs) (np.shape x))
                    (np.array (reverse ts)))
  | S n' =>
      let x' := pointwise PrimFloat.add x
                  (pointwise PrimFloat.add (np.scalar_r PrimFloat.mul v dt)
                     (np.scalar_r PrimFloat.mul a (0.5 * dt * dt)%float)) in
      ode.CallF x' (λ a',
        let v' := pointwise PrimFloat.add v
                    (np.scalar_r PrimFloat.mul (pointwise PrimFloat.add a a') (0.5 * dt)%float) in
        let now' := (now + dt)%float in
        verlet n' extra dt x' v' a' (x' :: xs) (v' :: vs) (now' :: ts) now')
  end.

Definition integrator (extra : nat) : ode.Integrator := λ x0 v0 dt n_steps,
  if (n_steps <? 0)%Z then ode.Fail (ValueError "n_steps must not be negative")
  else ode.CallF x0 (λ a0, verlet (Z.to_nat n_steps) extra dt x0 v0 a0 [x0] [v0] [0%float] 0%float).

(** The objects handed to the driver. *)
Definition forcefield_attrs : list string :=
  ["initialize_forcefield"; "fit_units_to_input_data"; "__call__";
   "energy_coulomb"; "energy_lennard_jones"; "energy_bond_vibration";
   "energy_angle_vibration"; "distances"; "bond_angles"; "acceleration";
   "unit_energy"; "unit_angle"].

Definition ensemble_attrs : list string :=
  ["positions"; "velocities"; "atomic_numbers"; "molecule_ids";
   "connectivity_matrix"; "box_lengths"; "unit_positions"; "unit_time";
   "unit_velocities"; "number_molecules_total"; "number_atoms_total"].

Definition forcefield_class : pyclass :=
  {| cls_name := "StubForceField";
     cls_mro := ["StubForceField"; mdforce.class_name; "object"] |}.

Definition ensemble_class : pyclass :=
  {| cls_name := "StubEnsemble";
     cls_mro := ["StubEnsemble"; ensemble_generator.class_name; "object"] |}.

(** A class with every operation of a force field that does not derive from
    [ForceField]. *)
Definition duck_class : pyclass :=
  {| cls_name := "DuckForceField"; cls_mro := ["DuckForceField"; "object"] |}.

Definition two_atoms : ensemble :=
  {| ens_positions := {| np.shape := [2; 3]%nat;
                         np.data := [0; 0; 0; 1; 0; 0]%float |};
     ens_velocities := {| np.shape := [2; 3]%nat;
                          np.data := [3; 4; 0; 0; 0; 2]%float |};
     ens_atomic_numbers := [1; 8]%Z;
     ens_molecule_ids := [0; 0]%Z;
     ens_number_molecules := 1 |}.

Definition a_force_field : force_field :=
  {| calls := 0; n_atoms := 2; n_molecules := 1; fail_init := false; fail_at := None |}.

Definition forcefield_object (ff : force_field) : pyobject force_field :=
  {| ob_class := forcefield_class; ob_attrs := forcefield_attrs; ob_value := ff |}.

Definition duck_object (ff : force_field) : pyobject force_field :=
  {| ob_class := duck_class; ob_attrs := forcefield_attrs; ob_value := ff |}.

Definition ensemble_object (en : ensemble) : pyobject ensemble :=
  {| ob_class := ensemble_class; ob_attrs := ensemble_attrs; ob_value := en |}.

Definition empty_world : World := {| heap := ∅; trace := [] |}.

(** A new driver on the two-atom ensemble, as the constructor makes it. *)
Definition new_driver (ff : force_field) : MDSimulation.t unit_expr force_field ensemble :=
  {| MDSimulation._forcefield := forcefield_object ff;
     MDSimulation._ensemble := ensemble_object two_atoms;
     MDSimulation._trajectory := None;
     MDSimulation._positions := None;
     MDSimulation._velocities := None;
     MDSimulation._timestamps := None;
     MDSimulation.buffers :=
       {| MDSimulation._energy_potential_coulomb := None;
          MDSimulation._energy_potential_lennard_jones := None;
          MDSimulation._energy_potential_bond_vibration := None;
          MDSimulation._energy_potential_angle_vibration := None;
          MDSimulation._bond_angles := None;
          MDSimulation._distances_interatomic := None |};
     MDSimulation._curr_step := None |}.

(** The driver as [run(2, ...)] prepares it for the integration. *)
Definition prepared : MDSimulation.t unit_expr force_field ensemble * World :=
  (MDSimulation.run_prepare 2 false (new_driver a_force_field, empty_world)).2.

Definition three_positions : list np.ndarray := replicate 3 (ens_positions two_atoms).

Definition three_evaluations : list force_field :=
  [evaluated a_force_field; evaluated (evaluated a_force_field);
   evaluated (evaluated (evaluated a_force_field))].

(** The driver after [run(2, 1.0)] with an integrator that keeps its
    contract: the preparation and the integration were done, and the run
    raised in the constructor of the analyzer. *)
Definition after_run : MDSimulation.t unit_expr force_field ensemble * World :=
  (MDSimulation.run (numintegrator := integrator 0) 2 1 false
     (new_driver a_force_field, empty_world)).2.

(** A force field whose second evaluation raises. *)
Definition failing_force_field : force_field :=
  {| calls := 0; n_atoms := 2; n_molecules := 1; fail_init := false; fail_at := Some 1%nat |}.

(** Two frames of the velocities of the two atoms. *)
Definition two_frames : np.ndarray :=
  {| np.shape := [2; 2; 3]%nat;
     np.data := [3; 4; 0; 0; 0; 2; 0; 0; 1; 6; 8; 0]%float |}.

(** The constructor of the analyzer on the two frames, without force-field
    series, in the empty world, with the units declared as labels. *)
Definition constructed : Result (TrajectoryAnalyzer.t unit_expr) * World :=
  TrajectoryAnalyzer.__init__ two_frames two_frames (np.array [0; 1]%float)
    [1; 8]%Z [0; 0]%Z [[false; false]; [false; false]]
    None None None None None None
    (PStr "nm") (PStr "ps") (PStr "km.h^-1") (PStr "kJ.mol^-1") (PStr "rad")
    empty_world.

(** The speeds of the two atoms in the two frames, and their momenta with
    the masses 1 and 16. *)
Definition two_speeds : np.ndarray :=
  {| np.shape := [2; 2]%nat; np.data := [5; 2; 1; 10]%float |}.

Definition two_momenta : np.ndarray :=
  {| np.shape := [2; 2]%nat; np.data := [5; 32; 1; 160]%float |}.

Definition declared_units : TrajectoryAnalyzer.Units unit_expr :=
  {| TrajectoryAnalyzer._unit_mass := PUnit (Base "Da");
     TrajectoryAnalyzer._unit_length := PUnit (Base "nm");
     TrajectoryAnalyzer._unit_time := PUnit (Base "ps");
     TrajectoryAnalyzer._unit_velocity := PUnit (Base "km.h^-1");
     TrajectoryAnalyzer._unit_energy := PUnit (Base "kJ.mol^-1");
     TrajectoryAnalyzer._unit_angle := PUnit (Base "rad");
     TrajectoryAnalyzer._unit_momentum := PUnit (Mul (Base "Da") (Base "km.h^-1"));
     TrajectoryAnalyzer._unit_temperature := PUnit (Base "K") |}.

(** A [TrajectoryAnalyzer] object whose attributes were assigned by hand
    (the constructor returns none): the two frames, the masses 1 and 16, the
    units as unit objects with the velocity unit km/h and the energy unit
    kJ/mol, and the speeds and the momenta of the atoms in the attributes
    [_speeds] and [_momenta]; no force-field series and nothing else in the
    cache. *)
Definition analyzer : TrajectoryAnalyzer.t unit_expr * World :=
  ({| TrajectoryAnalyzer.data :=
        {| TrajectoryAnalyzer._positions := two_frames;
           TrajectoryAnalyzer._velocities := two_frames;
           TrajectoryAnalyzer._timestamps := np.array [0; 1]%float;
           TrajectoryAnalyzer._atomic_numbers := [1; 8]%Z;
           TrajectoryAnalyzer._molecule_ids := [0; 0]%Z;
           TrajectoryAnalyzer._connectivity_matrix := [[false; false]; [false; false]];
           TrajectoryAnalyzer._energy_potential_coulomb := None;
           TrajectoryAnalyzer._energy_potential_lennard_jones := None;
           TrajectoryAnalyzer._energy_potential_bond_vibration := None;
           TrajectoryAnalyzer._energy_potential_angle_vibration := None;
           TrajectoryAnalyzer._distances_interatomic := None;
           TrajectoryAnalyzer._bond_angles := None;
           TrajectoryAnalyzer._masses := np.array [1; 16]%float |};
      TrajectoryAnalyzer.units := declared_units;
      TrajectoryAnalyzer.cache :=
        {| TrajectoryAnalyzer._speeds := Some 1%positive;
           TrajectoryAnalyzer._momenta := Some 2%positive;
           TrajectoryAnalyzer._energy_kinetic_per_atom := None;
           TrajectoryAnalyzer._temperature := None;
           TrajectoryAnalyzer._energy_kinetic_total := None;
           TrajectoryAnalyzer._energy_potential_total := None;
           TrajectoryAnalyzer._energy_total := None;
           TrajectoryAnalyzer._bond_lengths := None |} |},
   {| heap := {[1%positive := two_speeds; 2%positive := two_momenta]}; trace := [] |}).

(** [run(2, 1.0)] with a force field whose second evaluation raises: the
    integration loop fails after the first slot was written. *)
Definition failed_run :
    Result unit * (MDSimulation.t unit_expr force_field ensemble * World) :=
  MDSimulation.run (numintegrator := integrator 0) 2 1 false
    (new_driver failing_force_field, empty_world).

(** A second run, [run(1, 1.0)], on the driver that ran [run(2, 1.0)]. *)
Definition second_run :
    Result unit * (MDSimulation.t unit_expr force_field ensemble * World) :=
  MDSimulation.run (numintegrator := integrator 0) 1 1 false after_run.

(** [analyzer] with the velocity, momentum and energy units absent and the
    length and time units held as the labels they were declared with. *)
Definition underived : TrajectoryAnalyzer.t unit_expr * World :=
  ({| TrajectoryAnalyzer.data := TrajectoryAnalyzer.data analyzer.1;
      TrajectoryAnalyzer.units :=
        {| TrajectoryAnalyzer._unit_mass := PUnit (Base "Da");
           TrajectoryAnalyzer._unit_length := PStr "nm";
           TrajectoryAnalyzer._unit_time := PStr "ps";
           TrajectoryAnalyzer._unit_velocity := PNone;
           TrajectoryAnalyzer._unit_energy := PNone;
           TrajectoryAnalyzer._unit_angle := PUnit (Base "rad");
           TrajectoryAnalyzer._unit_momentum := PNone;
           TrajectoryAnalyzer._unit_temperature := PUnit (Base "K") |};
      TrajectoryAnalyzer.cache := TrajectoryAnalyzer.cache analyzer.1 |}, analyzer.2).

(** The first read of the energy unit of [underived]. *)
Definition energy_unit_read :
    Result (pyunit unit_expr) * (TrajectoryAnalyzer.t unit_expr * World) :=
  TrajectoryAnalyzer.unit_energy underived.

(** The integration of [run(2, 1.0)] on the prepared driver, and the series
    it returns. *)
Definition integrated :
    Result (np.ndarray * np.ndarray * np.ndarray)
    * (MDSimulation.t unit_expr force_field ensemble * World) :=
  MDSimulation.integrate_with_force
    (integrator 0 (ens_positions two_atoms) (ens_velocities two_atoms) 1%float 2%Z) prepared.

Definition series : np.ndarray * np.ndarray * np.ndarray :=
  match integrated.1 with
  | Ok pvt => pvt
  | Raise _ => (np.array [], np.array [], np.array [])
  end.

(** The first read of the temperature of [analyzer]. *)
Definition temperature_read :
    Result (option loc) * (TrajectoryAnalyzer.t unit_expr * World) :=
  TrajectoryAnalyzer.temperature analyzer.

(** The first read of the total kinetic energy of [analyzer]. *)
Definition kinetic_read :
    Result (option loc) * (TrajectoryAnalyzer.t unit_expr * World) :=
  TrajectoryAnalyzer.read TrajectoryAnalyzer.EnergyKineticTotal analyzer.

End Stub.

(** ** The vocabulary of the statements about the reads of an analyzer *)

Module Derived.

(** [a[i]] and [a[i, j]] of an array in row-major order. *)
Definition item1 (a : np.ndarray) (i : nat) : float := nth i (np.data a) 0%float.

Definition item2 (a : np.ndarray) (i j : nat) : float :=
  nth (i * default 0%nat (np.shape a !! 1%nat) + j) (np.data a) 0%float.

Section reads.
Context {numpy_sum : np.AddReduce}.

Import TrajectoryAnalyzer.

(** The attributes of the cache a read of [q] can assign: that of [q], and
    those of the quantities it reads whose computation can return. The
    computations of the speeds, of the momenta and of the total potential
    energy raise before they assign. *)
Definition assigns (q q' : quantity) : bool :=
  match q, q' with
  | EnergyKineticPerAtom, EnergyKineticPerAtom => true
  | EnergyKineticTotal, (EnergyKineticTotal | EnergyKineticPerAtom) => true
  | EnergyTotal, (EnergyTotal | EnergyKineticTotal | EnergyKineticPerAtom) => true
  | Temperature, (Temperature | EnergyKineticPerAtom) => true
  | _, _ => false
  end.

(** The name whose read raises when a quantity is read with nothing in the
    cache. *)
Definition missing (q : quantity) : string :=
  match q with
  | Speeds => "velocities"
  | Momenta | EnergyKineticPerAtom | EnergyKineticTotal | Temperature => "masses"
  | EnergyPotentialTotal | EnergyTotal => "energy_potential_coulomb"
  end.

Definition no_attribute (name : string) : exn :=
  AttributeError ("'TrajectoryAnalyzer' object has no attribute '" +:+ name +:+ "'").

Global Instance quantity_eq_dec : EqDecision quantity.
Proof. solve_decision. Defined.

(** Between two states of an analyzer: the data are the same, old arrays are
    as they were and the trace grew by calls into the unit library, and each
    attribute of the cache selected by [sel] that held an array holds the
    same array. *)
Definition cache_kept {U} (sel : quantity → Prop) (st st' : t U * World) : Prop :=
  data st'.1 = data st.1
  ∧ grows st.2 st'.2
  ∧ ∀ q l, sel q → cache_field q (cache st.1) = Some l → cache_field q (cache st'.1) = Some l.

(** Between two states of an analyzer: the attributes of the cache outside
    [sel] are the same. *)
Definition cache_same {U} (sel : quantity → Prop) (st st' : t U * World) : Prop :=
  ∀ q, ¬ sel q → cache_field q (cache st'.1) = cache_field q (cache st.1).

(** What a read of a unit property leaves as it is. *)
Definition unit_read_frame {U} (st st' : t U * World) : Prop :=
  data st'.1 = data st.1 ∧ cache st'.1 = cache st.1 ∧ units_only st.2 st'.2.

(** The state after a computation stored its array [a] at the new location
    [l] and assigned it to its attribute. *)
Definition stored {U} (f : option loc → Cache → Cache) (l : loc) (a : np.ndarray)
    (st : t U * World) : t U * World :=
  ({| data := data st.1; units := units st.1; cache := f (Some l) (cache st.1) |},
   {| heap := <[l := a]> (heap st.2); trace := trace st.2 |}).

(** The three unit properties that resolve a label. *)
Definition base_unit (p : unit_property) : Prop :=
  p = UnitMass ∨ p = UnitLength ∨ p = UnitTime.

(** The states an analyzer goes through while its properties are read, in
    any order and whatever the reads return. *)
Inductive later {U} `{UnitSystem U, Helpers U, ElementsData}
    : t U * World → t U * World → Prop :=
| later_now st : later st st
| later_read q st r s1 s2 : read q st = (r, s1) → later s1 s2 → later st s2
| later_read_unit p st r s1 s2 : read_unit p st = (r, s1) → later s1 s2 → later st s2.

End reads.

End Derived.

(** ** The evaluations an integration makes

    The vocabulary of the statements about a whole [run]. *)

Module Recording.

Section evaluations.
Context {U FF : Type} {forcefield_ops : mdforce.ForceField U FF}.

(** The positions on which the integration [i] calls the force function,
    one after the other, on a force field that starts in the state [ff]: each
    call evaluates the force field and hands its acceleration back to the
    integrator. The list ends where the integration ends or an evaluation
    raises. *)
Fixpoint integration_calls (i : ode.Integration) (ff : FF) : list np.ndarray :=
  match i with
  | ode.CallF q k =>
      match mdforce.__call__ ff q with
      | (Ok _, ff') => q :: integration_calls (k (mdforce.acceleration ff')) ff'
      | (Raise _, _) => []
      end
  | _ => []
  end.

(** The states of the force field after each of these evaluations. *)
Fixpoint integration_evaluations (i : ode.Integration) (ff : FF) : list FF :=
  match i with
  | ode.CallF q k =>
      match mdforce.__call__ ff q with
      | (Ok _, ff') => ff' :: integration_evaluations (k (mdforce.acceleration ff')) ff'
      | (Raise _, _) => []
      end
  | _ => []
  end.

(** What is left of the integration [i] after its calls were answered with
    the accelerations [accs]. *)
Fixpoint after_calls (i : ode.Integration) (accs : list np.ndarray) {struct accs}
    : ode.Integration :=
  match accs, i with
  | a :: accs', ode.CallF q k => after_calls (k a) accs'
  | _, _ => i
  end.

End evaluations.

End Recording.


(** ** Reads of the hand-built analyzers, and the runs of the driver *)

Module Scenario.
Import Stub.

(** [analyzer] with nothing in its cache: the cache as lines 122-129 of the
    constructor would leave it. *)
Definition blank : TrajectoryAnalyzer.t unit_expr * World :=
  ({| TrajectoryAnalyzer.data := TrajectoryAnalyzer.data analyzer.1;
      TrajectoryAnalyzer.units := TrajectoryAnalyzer.units analyzer.1;
      TrajectoryAnalyzer.cache := TrajectoryAnalyzer.empty_cache |}, analyzer.2).

(** Reads of [analyzer], one after the other: the temperature, then the
    length unit, then the total energy, then the total kinetic energy. *)
Definition first_temperature
    : Result (option loc) * (TrajectoryAnalyzer.t unit_expr * World) :=
  TrajectoryAnalyzer.read TrajectoryAnalyzer.Temperature analyzer.

Definition then_unit_length
    : Result (pyunit unit_expr) * (TrajectoryAnalyzer.t unit_expr * World) :=
  TrajectoryAnalyzer.read_unit TrajectoryAnalyzer.UnitLength first_temperature.2.

Definition then_energy_total
    : Result (option loc) * (TrajectoryAnalyzer.t unit_expr * World) :=
  TrajectoryAnalyzer.read TrajectoryAnalyzer.EnergyTotal then_unit_length.2.

Definition then_kinetic_total
    : Result (option loc) * (TrajectoryAnalyzer.t unit_expr * World) :=
  TrajectoryAnalyzer.read TrajectoryAnalyzer.EnergyKineticTotal then_energy_total.2.

(** The first read of the kinetic energies per atom of [analyzer], and the
    array it makes. *)
Definition kinetic_per_atom_read
    : Result (option loc) * (TrajectoryAnalyzer.t unit_expr * World) :=
  TrajectoryAnalyzer.read TrajectoryAnalyzer.EnergyKineticPerAtom analyzer.

Definition two_kinetic_energies : np.ndarray :=
  {| np.shape := [2; 2]%nat; np.data := [12.5; 32; 0.5; 800]%float |}.

(** A [TrajectoryAnalyzer] object whose attributes [_energy_kinetic_total]
    and [_energy_potential_total] were assigned by hand, with two frames
    each. *)
Definition kinetic_totals : np.ndarray :=
  {| np.shape := [2]%nat; np.data := [44.5; 800.5]%float |}.

Definition potential_totals : np.ndarray :=
  {| np.shape := [2]%nat; np.data := [-4; 1.5]%float |}.

Definition with_energies : TrajectoryAnalyzer.t unit_expr * World :=
  ({| TrajectoryAnalyzer.data := TrajectoryAnalyzer.data analyzer.1;
      TrajectoryAnalyzer.units := TrajectoryAnalyzer.units analyzer.1;
      TrajectoryAnalyzer.cache :=
        {| TrajectoryAnalyzer._speeds := None;
           TrajectoryAnalyzer._momenta := None;
           TrajectoryAnalyzer._energy_kinetic_per_atom := None;
           TrajectoryAnalyzer._temperature := None;
           TrajectoryAnalyzer._energy_kinetic_total := Some 1%positive;
           TrajectoryAnalyzer._energy_potential_total := Some 2%positive;
           TrajectoryAnalyzer._energy_total := None;
           TrajectoryAnalyzer._bond_lengths := None |} |},
   {| heap := {[1%positive := kinetic_totals; 2%positive := potential_totals]};
      trace := [] |}).

(** [analyzer] with its length unit held as the label [nm], and the read of
    the length unit there. *)
Definition labelled : TrajectoryAnalyzer.t unit_expr * World :=
  ({| TrajectoryAnalyzer.data := TrajectoryAnalyzer.data analyzer.1;
      TrajectoryAnalyzer.units :=
        {| TrajectoryAnalyzer._unit_mass :=
             TrajectoryAnalyzer._unit_mass (TrajectoryAnalyzer.units analyzer.1);
           TrajectoryAnalyzer._unit_length := PStr "nm";
           TrajectoryAnalyzer._unit_time :=
             TrajectoryAnalyzer._unit_time (TrajectoryAnalyzer.units analyzer.1);
           TrajectoryAnalyzer._unit_velocity :=
             TrajectoryAnalyzer._unit_velocity (TrajectoryAnalyzer.units analyzer.1);
           TrajectoryAnalyzer._unit_energy :=
             TrajectoryAnalyzer._unit_energy (TrajectoryAnalyzer.units analyzer.1);
           TrajectoryAnalyzer._unit_angle :=
             TrajectoryAnalyzer._unit_angle (TrajectoryAnalyzer.units analyzer.1);
           TrajectoryAnalyzer._unit_momentum :=
             TrajectoryAnalyzer._unit_momentum (TrajectoryAnalyzer.units analyzer.1);
           TrajectoryAnalyzer._unit_temperature :=
             TrajectoryAnalyzer._unit_temperature (TrajectoryAnalyzer.units analyzer.1) |};
      TrajectoryAnalyzer.cache := TrajectoryAnalyzer.cache analyzer.1 |}, analyzer.2).

Definition label_read
    : Result (pyunit unit_expr) * (TrajectoryAnalyzer.t unit_expr * World) :=
  TrajectoryAnalyzer.read_unit TrajectoryAnalyzer.UnitLength labelled.

(** The evaluations of the force field in the integration of [run(2, 1.0)],
    with an integrator that makes [extra] calls more. *)
Definition run_evaluations (extra : nat) : list force_field :=
  Recording.integration_evaluations
    (integrator extra (ens_positions two_atoms) (ens_velocities two_atoms) 1%float 2%Z)
    (ob_value (MDSimulation._forcefield prepared.1)).

End Scenario.

(** ** The monad *)

Lemma bind_Ok {S A B} (m : M S A) (f : A → M S B) s b s2 :
  bind m f s = (Ok b, s2) → ∃ a s1, m s = (Ok a, s1) ∧ f a s1 = (Ok b, s2).
Proof.
  unfold bind. destruct (m s) as [[a|e] s1]; [eauto | discriminate].
Qed.

Lemma bind_cases {S A B} (m : M S A) (f : A → M S B) s r s2 :
  bind m f s = (r, s2) →
  (∃ e, m s = (Raise e, s2) ∧ r = Raise e) ∨ (∃ a s1, m s = (Ok a, s1) ∧ f a s1 = (r, s2)).
Proof.
  unfold bind. destruct (m s) as [[a|e] s1]; intros Hb.
  - right. eauto.
  - left. inversion Hb; subst. eauto.
Qed.

Lemma bind_eq_Ok {S A B} (m : M S A) (f : A → M S B) s a s1 :
  m s = (Ok a, s1) → bind m f s = f a s1.
Proof. unfold bind. intros ->. reflexivity. Qed.

Lemma bind_eq_Raise {S A B} (m : M S A) (f : A → M S B) s e s1 :
  m s = (Raise e, s1) → bind m f s = (Raise e, s1).
Proof. unfold bind. intros ->. reflexivity. Qed.

Lemma respects_bind {S A B} (R : S → S → Prop) `{!Transitive R}
    (m : M S A) (f : A → M S B) :
  respects R m → (∀ a, respects R (f a)) → respects R (bind m f).
Proof.
  intros Hm Hf s r s' Hb. apply bind_cases in Hb as [(e & Hm' & _)|(a & s1 & Hm' & Hf')].
  - eapply Hm, Hm'.
  - etrans; [eapply Hm, Hm' | eapply Hf, Hf'].
Qed.

Lemma respects_ret {S A} (R : S → S → Prop) `{!Reflexive R} (a : A) : respects R (ret a).
Proof. intros s r s' [= _ <-]. reflexivity. Qed.

Lemma respects_raise {S A} (R : S → S → Prop) `{!Reflexive R} e : respects R (raise (A := A) e).
Proof. intros s r s' [= _ <-]. reflexivity. Qed.

Lemma respects_lift_result {S A} (R : S → S → Prop) `{!Reflexive R} (x : Result A) :
  respects R (lift_result x).
Proof. intros s r s' [= _ <-]. reflexivity. Qed.

Lemma on_world_inv {S W A} (m : M W A) (st : S * W) r st' :
  on_world m st = (r, st') → st'.1 = st.1 ∧ m st.2 = (r, st'.2).
Proof.
  unfold on_world. destruct (m st.2) as [r0 w'] eqn:Hm. intros [= -> <-]. done.
Qed.

Lemma modify_inv {S} (f : S → S) s r s' : modify f s = (r, s') → r = Ok tt ∧ s' = f s.
Proof. by intros [= <- <-]. Qed.

Lemma respects_raising_bind {S A B} (R : S → S → Prop) `{!Transitive R}
    (m : M S A) (f : A → M S B) :
  respects R m → (∀ a, respects_raising R (f a)) → respects_raising R (bind m f).
Proof.
  intros Hm Hf s e s' Hb. apply bind_cases in Hb as [(e' & Hm' & _)|(a & s1 & Hm' & Hf')].
  - eapply Hm, Hm'.
  - etrans; [eapply Hm, Hm' | eapply Hf, Hf'].
Qed.

Lemma respects_raising_modify {S} (R : S → S → Prop) (f : S → S) :
  respects_raising R (modify f).
Proof. intros s e s' [=]. Qed.

(** ** numpy *)

Lemma size_of_cons d shp : np.size_of (d :: shp) = (d * np.size_of shp)%nat.
Proof. reflexivity. Qed.

Lemma zeros_inv shp a :
  np.zeros shp = Ok a →
  Forall (λ d, 0 ≤ d)%Z shp ∧ np.shape a = Z.to_nat <$> shp
  ∧ np.data a = replicate (np.size_of (np.shape a)) 0%float.
Proof.
  unfold np.zeros. destruct (forallb _ _) eqn:Hall; [|discriminate].
  intros [= <-]. simpl. split_and!; try done.
  apply Forall_forall. intros d Hd. rewrite forallb_forall in Hall.
  apply Z.leb_le, Hall. by apply list_elem_of_In.
Qed.

Lemma normalize_index_in_range len i :
  (0 ≤ i < Z.of_nat len)%Z → np.normalize_index len i = Ok (Z.to_nat i).
Proof.
  intros [H0 H1]. unfold np.normalize_index.
  apply Z.leb_le in H0. apply Z.ltb_lt in H1. by rewrite H0, H1.
Qed.

Lemma normalize_index_overflow len i :
  (Z.of_nat len ≤ i)%Z → ∃ msg, np.normalize_index len i = Raise (IndexError msg).
Proof.
  intros Hi. unfold np.normalize_index.
  assert ((i <? Z.of_nat len)%Z = false) as -> by (apply Z.ltb_ge; lia).
  assert ((i <? 0)%Z = false) as -> by (apply Z.ltb_ge; lia).
  rewrite !andb_false_r. eauto.
Qed.

Lemma chunks_take {A} (r : nat) (d : list A) (n : nat) :
  flat_map (λ o, take r (drop (o * r) d)) (seq 0 n) = take (n * r) d.
Proof.
  induction n as [|n IH]; [done|].
  rewrite seq_S, flat_map_app, IH. simpl. rewrite app_nil_r.
  rewrite take_take_drop. f_equal. lia.
Qed.

Lemma flat_map_seq_ext {A} (f g : nat → list A) (n : nat) :
  (∀ o, (o < n)%nat → f o = g o) → flat_map f (seq 0 n) = flat_map g (seq 0 n).
Proof.
  induction n as [|n IH]; intros Hfg; [done|].
  rewrite seq_S, !flat_map_app. simpl. rewrite IH, Hfg by auto with lia. done.
Qed.

Lemma expand_same shp d :
  length d = np.size_of shp → np.expand shp shp d = d.
Proof.
  revert d. induction shp as [|s shp IH]; intros d Hd; [done|].
  simpl. rewrite Nat.eqb_refl.
  rewrite (flat_map_seq_ext _ (λ o, take (np.size_of shp) (drop (o * np.size_of shp) d))).
  - rewrite chunks_take. apply take_ge. rewrite size_of_cons in Hd. lia.
  - intros o Ho. apply IH. rewrite length_take, length_drop.
    rewrite size_of_cons in Hd. nia.
Qed.

Lemma compatible_same shp : np.compatible shp shp = true.
Proof. induction shp as [|s shp IH]; [done|]. simpl. by rewrite Nat.eqb_refl, IH. Qed.

Lemma align_same shp : np.align shp shp = Some shp.
Proof.
  unfold np.align. rewrite Nat.sub_diag.
  assert (np.strip_ones 0 shp = shp) as -> by (by destruct shp).
  cbv zeta. rewrite Nat.leb_refl, Nat.sub_diag. done.
Qed.

(** A source that already has the shape of the target is copied as it is. *)
Lemma broadcast_to_same a tgt :
  np.well_formed a → np.shape a = tgt → np.broadcast_to a tgt = Ok (np.data a).
Proof.
  intros Hwf <-. unfold np.broadcast_to. rewrite align_same, compatible_same.
  by rewrite expand_same.
Qed.

Lemma setitem_in_range a i rhs len rest row :
  np.shape a = len :: rest → (0 ≤ i < Z.of_nat len)%Z →
  np.broadcast_to rhs rest = Ok row →
  np.setitem a i rhs = Ok (Z.to_nat i, np.with_slot a (Z.to_nat i) row).
Proof.
  intros Hs Hi Hb. unfold np.setitem. rewrite Hs.
  rewrite normalize_index_in_range by done. simpl. by rewrite Hb.
Qed.

(** An index at or past the end of the first axis is refused: nothing is
    written. *)
Lemma setitem_overflow a i rhs len rest :
  np.shape a = len :: rest → (Z.of_nat len ≤ i)%Z →
  ∃ msg, np.setitem a i rhs = Raise (IndexError msg).
Proof.
  intros Hs Hi. unfold np.setitem. rewrite Hs.
  destruct (normalize_index_overflow len i Hi) as [msg ->]. eauto.
Qed.

Lemma setitem_shape a i rhs k a' :
  np.setitem a i rhs = Ok (k, a') → np.shape a' = np.shape a.
Proof.
  unfold np.setitem. destruct (np.shape a) as [|len rest] eqn:Hs; [done|].
  destruct (np.normalize_index len i); [|done]. simpl.
  destruct (np.broadcast_to rhs rest); [|done]. simpl.
  intros [= _ <-]. done.
Qed.

Lemma setitem_newaxis_shape a rhs a' :
  np.setitem_newaxis a rhs = Ok a' → np.shape a' = np.shape a.
Proof.
  unfold np.setitem_newaxis. destruct (np.broadcast_to _ _); [|done].
  simpl. by intros [= <-].
Qed.

(** *** Slots of the first axis *)

Section slots.
Context (a : np.ndarray) (len : nat) (rest : list nat) (k : nat) (row : list float).
Hypothesis Hwf : np.well_formed a.
Hypothesis Hshape : np.shape a = len :: rest.
Hypothesis Hk : (k < len)%nat.
Hypothesis Hrow : length row = np.size_of rest.

Lemma with_slot_well_formed : np.well_formed (np.with_slot a k row).
Proof.
  unfold np.well_formed, np.with_slot in *. simpl. rewrite Hshape in *. simpl in *.
  rewrite !length_app, length_take, length_drop, Hrow, Hwf. nia.
Qed.

Lemma slot_with_slot_same : np.slot (np.with_slot a k row) k = row.
Proof.
  unfold np.well_formed, np.slot, np.with_slot in *. simpl. rewrite Hshape in *. simpl in *.
  rewrite drop_app_length'. 2:{ rewrite length_take. nia. }
  rewrite take_app_length'; done.
Qed.

Lemma slot_with_slot_other j : j ≠ k → np.slot (np.with_slot a k row) j = np.slot a j.
Proof.
  intros Hj.
  unfold np.well_formed, np.slot, np.with_slot in *. simpl. rewrite Hshape in *. simpl in *.
  set (r := np.size_of rest) in *.
  destruct (decide (j < k)%nat) as [Hlt|Hge].
  - rewrite drop_app_le by (rewrite length_take; nia).
    rewrite take_app_le by (rewrite length_drop, length_take; nia).
    rewrite (take_drop_commute (take _ _)), take_take, Nat.min_l by nia.
    by rewrite <- take_drop_commute.
  - assert (k < j)%nat as Hgt by lia.
    rewrite app_assoc. rewrite drop_app_ge by (rewrite length_app, length_take; nia).
    rewrite length_app, length_take, Hrow, drop_drop. fold r. do 2 f_equal. nia.
Qed.

End slots.

(** ** The world *)

Lemma alloc_spec a w :
  alloc a w = (Ok (fresh (dom (heap w))),
               {| heap := <[fresh (dom (heap w)) := a]> (heap w); trace := trace w |}).
Proof. reflexivity. Qed.

Lemma fresh_not_allocated w : heap w !! fresh (dom (heap w)) = None.
Proof. apply not_elem_of_dom, is_fresh. Qed.

Lemma np_zeros_cases shp w r w' :
  np_zeros shp w = (r, w') →
  (∃ e, r = Raise e ∧ w' = w)
  ∨ (∃ l a, r = Ok l ∧ np.zeros shp = Ok a ∧ heap w !! l = None
            ∧ w' = {| heap := <[l := a]> (heap w); trace := trace w |}).
Proof.
  unfold np_zeros, bind, lift_result. destruct (np.zeros shp) as [a|e].
  - rewrite alloc_spec. intros [= <- <-]. right. eexists _, _.
    split_and!; try done. apply fresh_not_allocated.
  - intros [= <- <-]. left. eauto.
Qed.

Lemma store_item_in_range l i rhs w a len rest row :
  heap w !! l = Some a → np.shape a = len :: rest → (0 ≤ i < Z.of_nat len)%Z →
  np.broadcast_to rhs rest = Ok row →
  store_item (Some l) (Some i) rhs w
  = (Ok tt, {| heap := <[l := np.with_slot a (Z.to_nat i) row]> (heap w);
               trace := trace w ++ [Store l (Some (Z.to_nat i))] |}).
Proof.
  intros Hl Hs Hi Hb. unfold store_item, bind, load. rewrite Hl.
  unfold lift_result. erewrite setitem_in_range by done. reflexivity.
Qed.

Lemma store_item_overflow l i rhs w a len rest :
  heap w !! l = Some a → np.shape a = len :: rest → (Z.of_nat len ≤ i)%Z →
  ∃ msg, store_item (Some l) (Some i) rhs w = (Raise (IndexError msg), w).
Proof.
  intros Hl Hs Hi. unfold store_item, bind, load. rewrite Hl.
  destruct (setitem_overflow a i rhs len rest Hs Hi) as [msg Hmsg].
  unfold lift_result. rewrite Hmsg. eauto.
Qed.

(** What a store may change: the array stored into keeps its shape, every
    other array is as it was, no array appears, and the trace grows by stores
    into that array. *)
Lemma store_item_cases tgt idx rhs w r w' :
  store_item tgt idx rhs w = (r, w') →
  w' = w
  ∨ (∃ l a a' k, tgt = Some l ∧ heap w !! l = Some a ∧ np.shape a' = np.shape a
                 ∧ w' = {| heap := <[l := a']> (heap w); trace := trace w ++ [Store l k] |}).
Proof.
  unfold store_item. destruct tgt as [l|]; [|intros [= _ <-]; by left].
  unfold bind, load. destruct (heap w !! l) as [a|] eqn:Hl; [|intros [= _ <-]; by left].
  destruct idx as [i|]; unfold lift_result.
  - destruct (np.setitem a i rhs) as [[k a']|e] eqn:Hset; [|intros [= _ <-]; by left].
    intros [= _ <-]. right. exists l, a, a', (Some k). split_and!; try done.
    eapply setitem_shape, Hset.
  - destruct (np.setitem_newaxis a rhs) as [a'|e] eqn:Hset; [|intros [= _ <-]; by left].
    intros [= _ <-]. right. exists l, a, a', None. split_and!; try done.
    eapply setitem_newaxis_shape, Hset.
Qed.

Section driver.
Context {U FF EN : Type}.
Context {duq : UnitSystem U} {helpers : Helpers U}.
Context {elements_data : ElementsData} {numpy_sum : np.AddReduce}.
Context {forcefield_ops : mdforce.ForceField U FF}.
Context {ensemble_ops : ensemble_generator.EnsembleGenerator U EN}.
Context {numintegrator : ode.Integrator}.

Import MDSimulation.

Local Abbreviation Self := (MDSimulation.t U FF EN * World)%type.
Implicit Types (self : MDSimulation.t U FF EN) (w : World) (ch : channel).

Lemma force_unfold q :
  _force q =
  (forcefield_call (λ ff, mdforce.__call__ ff q);;;
   record_then channels
     (let* c := attr _curr_step in
      match c with
      | Some n => set_self (with_curr_step (Some (n + 1)%Z))
      | None => raise (TypeError "unsupported operand type(s) for +=: 'NoneType' and 'int'")
      end;;;
      attr (λ self, mdforce.acceleration (ob_value (_forcefield self))))).
Proof. reflexivity. Qed.

Lemma conformant_length m n ff ch :
  conformant m n ff → length (np.data (source ch ff)) = np.size_of (slot_shape m n ch).
Proof. intros Hc. destruct (Hc ch) as [Hwf Hs]. unfold np.well_formed in Hwf. by rewrite Hwf, Hs. Qed.

Lemma record_step_in_range ch self w l a len m n c :
  target ch (buffers self) = Some l → heap w !! l = Some a →
  np.shape a = len :: slot_shape m n ch →
  _curr_step self = Some (Z.of_nat c) → (c < len)%nat →
  conformant m n (ob_value (_forcefield self)) →
  record_step (target ch) (source ch) (self, w)
  = (Ok tt, (self, record_world_step ch (buffers self) (ob_value (_forcefield self)) c w)).
Proof.
  intros Ht Hl Hs Hc Hlt Hconf.
  unfold record_step, bind, attr, on_world. simpl. rewrite Ht, Hc.
  erewrite store_item_in_range; [|done|done|lia|].
  2:{ apply broadcast_to_same; apply Hconf. }
  unfold record_world_step. rewrite Ht, Hl, Nat2Z.id. done.
Qed.

(** What one recorded channel does to the heap and the trace. *)
Lemma record_world_step_lookup ch b ff c w l a :
  target ch b = Some l → heap w !! l = Some a →
  record_world_step ch b ff c w
  = {| heap := <[l := np.with_slot a c (np.data (source ch ff))]> (heap w);
       trace := trace w ++ [Store l (Some c)] |}.
Proof. intros Ht Hl. unfold record_world_step. by rewrite Ht, Hl. Qed.

Lemma channels_ready_step ch chs b ff c w len m n :
  distinct_targets b → ch ∉ chs →
  channels_ready (ch :: chs) b w len m n →
  channels_ready chs b (record_world_step ch b ff c w) len m n.
Proof.
  intros Hd Hnin Hr ch' Hch'.
  destruct (Hr ch) as (l & a & Ht & Hl & _); [left|].
  destruct (Hr ch') as (l' & a' & Ht' & Hl' & Hwf' & Hs'); [by right|].
  exists l', a'. split_and!; try done.
  rewrite (record_world_step_lookup _ _ _ _ _ _ _ Ht Hl). simpl.
  rewrite lookup_insert_ne; [done|].
  intros ->. apply Hnin. rewrite (Hd ch ch'); [done|congruence].
Qed.

Lemma record_then_in_range {A} (chs : list channel) (k : M Self A) self w len m n c :
  NoDup chs → distinct_targets (buffers self) →
  channels_ready chs (buffers self) w len m n →
  _curr_step self = Some (Z.of_nat c) → (c < len)%nat →
  conformant m n (ob_value (_forcefield self)) →
  record_then chs k (self, w)
  = k (self, record_world chs (buffers self) (ob_value (_forcefield self)) c w).
Proof.
  intros Hnd Hd. revert w. induction Hnd as [|ch chs Hnin Hnd IH]; intros w Hr Hc Hlt Hconf.
  - reflexivity.
  - simpl. destruct (Hr ch) as (l & a & Ht & Hl & Hwf & Hs); [left|].
    erewrite bind_eq_Ok; [|by eapply record_step_in_range].
    apply IH; try done. by apply channels_ready_step.
Qed.

(** The heap after the channels [chs] were recorded. *)
Lemma record_world_other chs b ff c w l :
  (∀ ch, ch ∈ chs → target ch b ≠ Some l) →
  heap (record_world chs b ff c w) !! l = heap w !! l.
Proof.
  revert w. induction chs as [|ch chs IH]; intros w Hl; [done|].
  simpl. rewrite IH by (intros; apply Hl; by right).
  unfold record_world_step. destruct (target ch b) as [l'|] eqn:Ht; [|done].
  destruct (heap w !! l') eqn:Hl'; [|done]. simpl.
  rewrite lookup_insert_ne; [done|]. intros ->. by apply (Hl ch); [left|].
Qed.

Lemma record_world_target chs b ff c w ch l a :
  NoDup chs → distinct_targets b → ch ∈ chs →
  target ch b = Some l → heap w !! l = Some a →
  heap (record_world chs b ff c w) !! l
  = Some (np.with_slot a c (np.data (source ch ff))).
Proof.
  intros Hnd Hd. revert w. induction Hnd as [|ch0 chs Hnin Hnd IH]; intros w Hin Ht Hl.
  - by apply elem_of_nil in Hin.
  - simpl. apply elem_of_cons in Hin as [->|Hin].
    + rewrite record_world_other.
      * rewrite (record_world_step_lookup _ _ _ _ _ _ _ Ht Hl). simpl. apply lookup_insert_eq.
      * intros ch' Hch' Heq. apply Hnin. rewrite (Hd ch0 ch'); [done|congruence].
    + apply IH; try done. unfold record_world_step.
      destruct (target ch0 b) as [l0|] eqn:Ht0; [|done].
      destruct (heap w !! l0) eqn:Hl0; [|done]. simpl.
      rewrite lookup_insert_ne; [done|]. intros ->.
      apply Hnin. rewrite (Hd ch0 ch); [done|congruence].
Qed.

Lemma record_world_trace chs b ff c w len m n :
  NoDup chs → distinct_targets b → channels_ready chs b w len m n →
  trace (record_world chs b ff c w)
  = trace w ++ omap (λ ch, (λ l, Store l (Some c)) <$> target ch b) chs.
Proof.
  intros Hnd Hd. revert w. induction Hnd as [|ch chs Hnin Hnd IH]; intros w Hr.
  - simpl. by rewrite app_nil_r.
  - simpl. destruct (Hr ch) as (l & a & Ht & Hl & _); [left|].
    rewrite IH by (by apply channels_ready_step).
    rewrite (record_world_step_lookup _ _ _ _ _ _ _ Ht Hl), Ht. simpl.
    by rewrite <- app_assoc.
Qed.

Lemma NoDup_channels : NoDup channels.
Proof. by apply (bool_decide_unpack _). Qed.

Lemma elem_of_channels ch : ch ∈ channels.
Proof. destruct ch; by apply (bool_decide_unpack _). Qed.

End driver.

Section driver.
Context {U FF EN : Type}.
Context {duq : UnitSystem U} {helpers : Helpers U}.
Context {elements_data : ElementsData} {numpy_sum : np.AddReduce}.
Context {forcefield_ops : mdforce.ForceField U FF}.
Context {ensemble_ops : ensemble_generator.EnsembleGenerator U EN}.
Context {numintegrator : ode.Integrator}.

Import MDSimulation.

Local Abbreviation Self := (MDSimulation.t U FF EN * World)%type.
Implicit Types (self : MDSimulation.t U FF EN) (w : World) (ch : channel).

Lemma force_step self w len m n c q ff' :
  buffers_allocated self w len m n →
  _curr_step self = Some (Z.of_nat c) → (c < len)%nat →
  mdforce.__call__ (ob_value (_forcefield self)) q = (Ok tt, ff') →
  conformant m n ff' →
  _force q (self, w)
  = (Ok (mdforce.acceleration ff'),
     (stepped ff' c self, record_world channels (buffers self) ff' c w)).
Proof.
  intros [Hr Hd] Hc Hlt Hcall Hconf. rewrite force_unfold.
  erewrite bind_eq_Ok.
  2:{ unfold forcefield_call. simpl. rewrite Hcall. reflexivity. }
  erewrite (record_then_in_range channels _ (with_forcefield_state ff' self) w len m n c);
    try done; [|apply NoDup_channels].
  unfold bind, attr, set_self, modify, stepped. simpl. rewrite Hc. simpl.
  repeat f_equal. lia.
Qed.

Lemma force_step_allocated self w len m n c ff' :
  buffers_allocated self w len m n → (c < len)%nat → conformant m n ff' →
  buffers_allocated (stepped ff' c self) (record_world channels (buffers self) ff' c w) len m n.
Proof.
  intros [Hr Hd] Hlt Hconf. split; [|done].
  intros ch Hch. destruct (Hr ch Hch) as (l & a & Ht & Hl & Hwf & Hs).
  exists l, (np.with_slot a c (np.data (source ch ff'))). split_and!.
  - done.
  - by apply record_world_target; [apply NoDup_channels|..].
  - eapply with_slot_well_formed; try done. by apply conformant_length.
  - done.
Qed.

(** The callback invoked at the counter [c] on the positions [qs]: it returns
    each time, the counter advances by one per invocation, invocation [i]
    stores into slot [c + i] of each buffer what the force field holds after
    its evaluation [i], and no other slot changes. *)
Lemma force_calls_from qs : ∀ self w len m n c ffs,
  buffers_allocated self w len m n →
  _curr_step self = Some (Z.of_nat c) → (c + length qs ≤ len)%nat →
  evaluations (ob_value (_forcefield self)) qs = Some ffs →
  Forall (conformant m n) ffs →
  ∃ self' w',
    force_calls qs (self, w) = (Ok (mdforce.acceleration <$> ffs), (self', w'))
    ∧ buffers self' = buffers self
    ∧ _trajectory self' = _trajectory self
    ∧ _curr_step self' = Some (Z.of_nat (c + length qs))
    ∧ ob_value (_forcefield self') = default (ob_value (_forcefield self)) (last ffs)
    ∧ buffers_allocated self' w' len m n
    ∧ trace w' = trace w ++ flat_map (stores (buffers self)) (seq c (length qs))
    ∧ (∀ l, (∀ ch, target ch (buffers self) ≠ Some l) → heap w' !! l = heap w !! l)
    ∧ (∀ ch l a, target ch (buffers self) = Some l → heap w !! l = Some a →
         ∃ a', heap w' !! l = Some a'
           ∧ np.shape a' = np.shape a
           ∧ (∀ i ff, ffs !! i = Some ff → np.slot a' (c + i) = np.data (source ch ff))
           ∧ (∀ j, (j < c ∨ c + length qs ≤ j)%nat → np.slot a' j = np.slot a j)).
Proof.
  induction qs as [|q qs IH]; intros self w len m n c ffs Ha Hc Hlen Hev Hconf.
  - injection Hev as <-. exists self, w. simpl. rewrite Nat.add_0_r, app_nil_r.
    split_and!; try done. intros ch l a Ht Hl. exists a. split_and!; try done.
  - simpl in Hev. destruct (mdforce.__call__ _ q) as [[[]|e] ff'] eqn:Hcall; [|done].
    destruct (evaluations ff' qs) as [ffs'|] eqn:Hev'; [|done].
    injection Hev as <-. apply Forall_cons in Hconf as [Hconf Hconfs].
    simpl in Hlen.
    pose proof (force_step self w len m n c q ff' Ha Hc ltac:(lia) Hcall Hconf) as Hstep.
    pose proof (force_step_allocated self w len m n c ff' Ha ltac:(lia) Hconf) as Ha1.
    destruct (IH (stepped ff' c self) _ len m n (S c) ffs' Ha1 eq_refl ltac:(lia) Hev' Hconfs)
      as (self' & w' & Hcalls & Hb & Htr & Hc' & Hff & Ha' & Htrace & Hother & Hslots).
    exists self', w'. destruct Ha as [Hr Hd]. split_and!.
    + simpl. erewrite bind_eq_Ok by exact Hstep. erewrite bind_eq_Ok by exact Hcalls. done.
    + done.
    + done.
    + rewrite Hc'. do 2 f_equal. simpl. lia.
    + rewrite Hff, last_cons. simpl. by destruct (last ffs').
    + done.
    + rewrite Htrace.
      erewrite record_world_trace; [|apply NoDup_channels|done|done].
      simpl. by rewrite <- app_assoc.
    + intros l Hl. rewrite Hother by done. apply record_world_other. intros ch _. apply Hl.
    + intros ch l a Ht Hl.
      destruct (Hr ch (elem_of_channels ch)) as (l0 & a0 & Ht0 & Hl0 & Hwf & Hs).
      assert (l0 = l) as -> by congruence. assert (a0 = a) as -> by congruence.
      destruct (Hslots ch l (np.with_slot a c (np.data (source ch ff'))) Ht)
        as (a' & Hl' & Hs' & Hin & Hout).
      { apply record_world_target; try done; [apply NoDup_channels|apply elem_of_channels]. }
      exists a'. split_and!; try done.
      * intros [|i] ff Hi.
        -- injection Hi as <-. rewrite Nat.add_0_r, Hout by lia.
           apply (slot_with_slot_same a len (slot_shape m n ch) c _ Hwf Hs);
             [lia | by apply conformant_length].
        -- simpl in Hi. rewrite <- (Hin i ff Hi). f_equal. lia.
      * intros j Hj. simpl in Hj. rewrite Hout by lia.
        apply (slot_with_slot_other a len (slot_shape m n ch) c _ Hwf Hs);
          [lia | by apply conformant_length | lia].
Qed.

(** At a counter that is not below the number of slots the invocation raises,
    and the world is as it was. *)
Lemma force_overflow self w len m n c q :
  buffers_allocated self w len m n →
  _curr_step self = Some c → (Z.of_nat len ≤ c)%Z →
  ∃ e self',
    _force q (self, w) = (Raise e, (self', w))
    ∧ buffers self' = buffers self
    ∧ _trajectory self' = _trajectory self
    ∧ _curr_step self' = Some c
    ∧ (∀ ff', mdforce.__call__ (ob_value (_forcefield self)) q = (Ok tt, ff') →
         ∃ msg, e = IndexError msg).
Proof.
  intros [Hr Hd] Hc Hlen. rewrite force_unfold.
  destruct (mdforce.__call__ (ob_value (_forcefield self)) q) as [[[]|e] ff'] eqn:Hcall.
  - destruct (Hr Coulomb (elem_of_channels _)) as (l & a & Ht & Hl & Hwf & Hs).
    destruct (store_item_overflow l c (source Coulomb ff') w a _ _ Hl Hs Hlen) as [msg Hst].
    exists (IndexError msg), (with_forcefield_state ff' self).
    split_and!; try done; [|eauto].
    unfold bind at 1. unfold forcefield_call. simpl. rewrite Hcall.
    simpl. unfold bind at 1. unfold record_step, bind, attr, on_world. simpl.
    simpl in Ht. rewrite Ht, Hc. unfold source in Hst. by rewrite Hst.
  - exists e, (with_forcefield_state ff' self). split_and!; try done.
    unfold bind at 1. unfold forcefield_call. simpl. by rewrite Hcall.
Qed.

End driver.

(** ** Relations that methods respect *)

Global Instance in_world_refl {S} R `{!Reflexive R} : Reflexive (in_world (S := S) R).
Proof. intros st. unfold in_world. reflexivity. Qed.

Global Instance in_world_trans {S} R `{!Transitive R} : Transitive (in_world (S := S) R).
Proof. intros st1 st2 st3. unfold in_world. apply transitivity. Qed.

Lemma respects_on_world {S A} (R : World → World → Prop) (m : M World A) :
  respects R m → respects (in_world (S := S) R) (on_world m).
Proof.
  intros Hm [s w] r [s' w']. unfold on_world. simpl.
  destruct (m w) as [r0 w0] eqn:Hmw. intros [= _ _ <-]. eapply Hm, Hmw.
Qed.

Lemma respects_modify_self {S} (R : World → World → Prop) `{!Reflexive R} (f : S → S) :
  respects (in_world R) (modify (λ sw : S * World, (f sw.1, sw.2))).
Proof. intros [s w] r [s' w'] [= _ _ <-]. unfold in_world. reflexivity. Qed.

Global Instance units_only_refl : Reflexive units_only.
Proof. intros w. split; [done|]. exists []. by rewrite app_nil_r. Qed.

Global Instance units_only_trans : Transitive units_only.
Proof.
  intros w1 w2 w3 [Hh1 (e1 & Ht1 & Hf1)] [Hh2 (e2 & Ht2 & Hf2)]. split; [congruence|].
  exists (e1 ++ e2). rewrite Ht2, Ht1, app_assoc. split; [done|]. by apply Forall_app.
Qed.

Lemma respects_emit_unit name : respects units_only (emit (UnitOp name)).
Proof.
  intros w r w' [= _ <-]. split; [done|]. exists [UnitOp name]. split; [done|].
  apply Forall_singleton. by exists name.
Qed.

Global Instance grows_refl : Reflexive grows.
Proof. intros w. split; [done|]. exists []. by rewrite app_nil_r. Qed.

Global Instance grows_trans : Transitive grows.
Proof.
  intros w1 w2 w3 [Hh1 (e1 & Ht1 & Hf1)] [Hh2 (e2 & Ht2 & Hf2)]. split; [auto|].
  exists (e1 ++ e2). rewrite Ht2, Ht1, app_assoc. split; [done|]. by apply Forall_app.
Qed.

Lemma units_only_grows w w' : units_only w w' → grows w w'.
Proof. intros [Hh Ht]. split; [|done]. intros l a. by rewrite Hh. Qed.

Lemma respects_weaken {S A} (R R' : S → S → Prop) (m : M S A) :
  (∀ s s', R s s' → R' s s') → respects R m → respects R' m.
Proof. intros HR Hm s r s' Hms. eapply HR, Hm, Hms. Qed.

Lemma respects_alloc a : respects grows (alloc a).
Proof.
  intros w r w'. rewrite alloc_spec. intros [= _ <-]. split.
  - intros l a' Hl. simpl. rewrite lookup_insert_ne; [done|].
    intros <-. by rewrite fresh_not_allocated in Hl.
  - exists []. simpl. by rewrite app_nil_r.
Qed.

Lemma respects_load R `{!Reflexive R} l : respects R (load l).
Proof. intros w r w'. unfold load. destruct (heap w !! l); intros [= _ <-]; reflexivity. Qed.

Lemma respects_load_operand R `{!Reflexive R} v : respects R (load_operand v).
Proof. destruct v; [by apply respects_load|by apply respects_raise]. Qed.

Global Instance frame_refl {S} (Rs : S → S → Prop) Rw `{!Reflexive Rs, !Reflexive Rw} :
  Reflexive (frame Rs Rw).
Proof. intros st. split; reflexivity. Qed.

Global Instance frame_trans {S} (Rs : S → S → Prop) Rw `{!Transitive Rs, !Transitive Rw} :
  Transitive (frame Rs Rw).
Proof. intros s1 s2 s3 [? ?] [? ?]. split; etrans; done. Qed.

Create HintDb respects discriminated.

Global Hint Resolve respects_emit_unit respects_alloc : respects.
Global Hint Extern 1 (respects _ (load _)) => apply respects_load; apply _ : respects.
Global Hint Extern 1 (respects _ (load_operand _)) => apply respects_load_operand; apply _ : respects.

(** Walks a method along its binds and case distinctions. *)
Ltac respects_step :=
  lazymatch goal with
  | |- respects _ (bind _ _) => apply respects_bind; [apply _ | | intros ?]
  | |- respects _ (ret _) => apply respects_ret; apply _
  | |- respects _ (raise _) => apply respects_raise; apply _
  | |- respects _ (lift_result _) => apply respects_lift_result; apply _
  | |- respects (in_world _) (on_world _) => apply respects_on_world
  | |- respects (in_world _) (modify _) => apply respects_modify_self; apply _
  | |- respects _ (match ?x with _ => _ end) => destruct x
  | |- _ => solve [auto with respects]
  end.

Ltac respects_tac := repeat respects_step.

Section unit_calls.
Context {U : Type} {duq : UnitSystem U}.

Lemma respects_Unit_ label : respects units_only (Unit_ label).
Proof. unfold Unit_. respects_tac. Qed.

Lemma respects_unit_mul a b : respects units_only (unit_mul a b).
Proof. unfold unit_mul. respects_tac. Qed.

Lemma respects_unit_truediv a b : respects units_only (unit_truediv a b).
Proof. unfold unit_truediv. respects_tac. Qed.

Lemma respects_unit_pow a n : respects units_only (unit_pow a n).
Proof. unfold unit_pow. respects_tac. Qed.

Lemma respects_boltzmann u : respects units_only (boltzmann_const_convert_unit u).
Proof. unfold boltzmann_const_convert_unit. respects_tac. Qed.

End unit_calls.

Global Hint Resolve respects_Unit_ respects_unit_mul respects_unit_truediv
  respects_unit_pow respects_boltzmann : respects.

Section analyzer.
Context {U : Type} {duq : UnitSystem U} {helpers : Helpers U}.
Context {elements_data : ElementsData} {numpy_sum : np.AddReduce}.

Import TrajectoryAnalyzer.

Local Abbreviation Self := (TrajectoryAnalyzer.t U * World)%type.
Implicit Types (st : Self) (w : World) (k e : bool).
Local Abbreviation ta_rel := (TrajectoryAnalyzer.ta_rel (U := U)).

Global Instance ta_rel_refl k e : Reflexive (ta_rel k e).
Proof. intros st. unfold ta_rel. split_and!; try done. Qed.

Global Instance ta_rel_trans k e : Transitive (ta_rel k e).
Proof.
  intros s1 s2 s3 (Hd1 & Ht1 & Hu1 & Hg1 & Hk1 & He1) (Hd2 & Ht2 & Hu2 & Hg2 & Hk2 & He2).
  unfold ta_rel. split_and!; try congruence.
  - by etrans.
  - intros Hk l Hl. apply Hk2, Hk1; done.
  - intros He Hne. rewrite He2; [by apply He1|done|]. by rewrite He1.
Qed.

Lemma ta_rel_attr {A} k e (f : TrajectoryAnalyzer.t U → A) : respects (ta_rel k e) (attr f).
Proof. intros st r st' [= _ <-]. reflexivity. Qed.

Lemma ta_rel_on_world {A} k e (m : M World A) :
  respects grows m → respects (ta_rel k e) (on_world m).
Proof.
  intros Hm [s w] r [s' w']. unfold on_world. simpl.
  destruct (m w) as [r0 w0] eqn:Hmw. intros [= _ <- <-].
  unfold ta_rel. simpl. split_and!; try done. eapply Hm, Hmw.
Qed.

Lemma ta_rel_on_world_units {A} k e (m : M World A) :
  respects units_only m → respects (ta_rel k e) (on_world m).
Proof. intros Hm. apply ta_rel_on_world. eapply respects_weaken, Hm. apply units_only_grows. Qed.

(** The assignments. *)
Lemma ta_rel_set_units k e f :
  (∀ u, _unit_temperature (f u) = _unit_temperature u) →
  (e → ∀ u, _unit_energy (f u) = _unit_energy u) →
  respects (ta_rel k e) (set_units f).
Proof.
  intros Hf He [s w] r [s' w'] [= _ <- <-]. unfold ta_rel. simpl.
  split_and!; try done. intros He' _. by apply He.
Qed.

Lemma ta_rel_set_cache k e f :
  (∀ c, _temperature (f c) = _temperature c) →
  (k → ∀ c, _energy_kinetic_per_atom (f c) = _energy_kinetic_per_atom c) →
  respects (ta_rel k e) (set_cache f).
Proof.
  intros Hf Hk [s w] r [s' w'] [= _ <- <-]. unfold ta_rel. simpl.
  split_and!; try done. intros Hk' l. by rewrite Hk.
Qed.

End analyzer.

Ltac ta_step :=
  lazymatch goal with
  | |- respects _ (bind _ _) => apply respects_bind; [apply _ | | intros ?]
  | |- respects _ (ret _) => apply respects_ret; apply _
  | |- respects _ (raise _) => apply respects_raise; apply _
  | |- respects _ (lift_result _) => apply respects_lift_result; apply _
  | |- respects (TrajectoryAnalyzer.ta_rel _ _) (TrajectoryAnalyzer.attr _) => apply ta_rel_attr
  | |- respects (TrajectoryAnalyzer.ta_rel _ _) (on_world (alloc _)) => apply ta_rel_on_world, respects_alloc
  | |- respects (TrajectoryAnalyzer.ta_rel _ _) (on_world (load_operand _)) =>
      apply ta_rel_on_world, respects_load_operand; apply _
  | |- respects (TrajectoryAnalyzer.ta_rel _ _) (on_world _) =>
      apply ta_rel_on_world_units; solve [auto with respects]
  | |- respects (TrajectoryAnalyzer.ta_rel _ _) (TrajectoryAnalyzer.set_units _) => apply ta_rel_set_units; [done | done]
  | |- respects (TrajectoryAnalyzer.ta_rel _ _) (TrajectoryAnalyzer.set_cache _) => apply ta_rel_set_cache; [done | done]
  | |- respects _ (match ?x with _ => _ end) => destruct x
  | |- _ => solve [auto with respects]
  end.

Ltac ta_tac := repeat ta_step.

Section analyzer_properties.
Context {U : Type} {duq : UnitSystem U} {helpers : Helpers U}.
Context {elements_data : ElementsData} {numpy_sum : np.AddReduce}.

Import TrajectoryAnalyzer.

Local Abbreviation Self := (TrajectoryAnalyzer.t U * World)%type.
Implicit Types (st : Self) (w : World) (k e : bool).
Local Abbreviation ta_rel := (TrajectoryAnalyzer.ta_rel (U := U)).

Lemma ta_rel_unit_mass k e : respects (ta_rel k e) unit_mass.
Proof. unfold unit_mass. ta_tac. Qed.

Lemma ta_rel_unit_length k e : respects (ta_rel k e) unit_length.
Proof. unfold unit_length. ta_tac. Qed.

Lemma ta_rel_unit_time k e : respects (ta_rel k e) unit_time.
Proof. unfold unit_time. ta_tac. Qed.

Hint Resolve ta_rel_unit_mass ta_rel_unit_length ta_rel_unit_time : respects.

Lemma ta_rel_unit_velocity k e : respects (ta_rel k e) unit_velocity.
Proof. unfold unit_velocity. ta_tac. Qed.

Hint Resolve ta_rel_unit_velocity : respects.

Lemma ta_rel_unit_momentum k e : respects (ta_rel k e) unit_momentum.
Proof. unfold unit_momentum. ta_tac. Qed.

Lemma ta_rel_unit_temperature k e : respects (ta_rel k e) unit_temperature.
Proof. unfold unit_temperature. ta_tac. Qed.

(** The energy unit is assigned only where it is absent. *)
Lemma ta_rel_unit_energy k e : respects (ta_rel k e) unit_energy.
Proof.
  intros st r st' Hrun.
  destruct (_unit_energy (units st.1)) eqn:Hue.
  - assert (respects (ta_rel k false) unit_energy) as Hweak by (unfold unit_energy; ta_tac).
    destruct (Hweak st r st' Hrun) as (Hd & Ht & Hu & Hg & Hk & _).
    unfold ta_rel. split_and!; try done.
  - revert Hrun. unfold unit_energy, bind, attr, ret. cbv beta iota. rewrite Hue.
    intros [= _ <-]. reflexivity.
  - revert Hrun. unfold unit_energy, bind, attr, ret. cbv beta iota. rewrite Hue.
    intros [= _ <-]. reflexivity.
Qed.

Hint Resolve ta_rel_unit_momentum ta_rel_unit_temperature ta_rel_unit_energy : respects.

Lemma ta_rel_new_array k e r : respects (ta_rel k e) (new_array r).
Proof. unfold new_array. ta_tac. Qed.

Hint Resolve ta_rel_new_array : respects.

Lemma ta_rel_speeds k e : respects (ta_rel k e) speeds.
Proof. unfold speeds, _calculate_speeds, velocities. ta_tac. Qed.

Hint Resolve ta_rel_speeds : respects.

Lemma ta_rel_momenta k e : respects (ta_rel k e) momenta.
Proof. unfold momenta, _calculate_momenta, masses. ta_tac. Qed.

Hint Resolve ta_rel_momenta : respects.

(** The kinetic energy per atom is assigned only where it is absent. *)
Lemma ta_rel_energy_kinetic_per_atom k e : respects (ta_rel k e) energy_kinetic_per_atom.
Proof.
  intros st r st' Hrun.
  destruct (_energy_kinetic_per_atom (cache st.1)) eqn:Hke.
  - revert Hrun. unfold energy_kinetic_per_atom, bind, attr, ret. cbv beta iota. rewrite Hke.
    intros [= _ <-]. reflexivity.
  - assert (respects (ta_rel false e) energy_kinetic_per_atom) as Hweak
      by (unfold energy_kinetic_per_atom, _calculate_energy_kinetic_per_atom; ta_tac).
    destruct (Hweak st r st' Hrun) as (Hd & Ht & Hu & Hg & _ & He).
    unfold ta_rel. split_and!; try done. intros _ l. by rewrite Hke.
Qed.

Hint Resolve ta_rel_energy_kinetic_per_atom : respects.

Lemma ta_rel_energy_kinetic_total k e : respects (ta_rel k e) energy_kinetic_total.
Proof. unfold energy_kinetic_total, _calculate_energy_kinetic_total. ta_tac. Qed.

Lemma ta_rel_energy_potential_total k e : respects (ta_rel k e) energy_potential_total.
Proof.
  unfold energy_potential_total, _calculate_energy_potential_total,
    energy_potential_coulomb, energy_potential_lennard_jones,
    energy_potential_bond_vibration, energy_potential_angle_vibration.
  ta_tac.
Qed.

Hint Resolve ta_rel_energy_kinetic_total ta_rel_energy_potential_total : respects.

Lemma ta_rel_energy_total k e : respects (ta_rel k e) energy_total.
Proof. unfold energy_total, _calculate_energy_total. ta_tac. Qed.

End analyzer_properties.

Global Hint Resolve ta_rel_unit_mass ta_rel_unit_length ta_rel_unit_time
  ta_rel_unit_velocity ta_rel_unit_momentum ta_rel_unit_temperature ta_rel_unit_energy
  ta_rel_new_array ta_rel_speeds ta_rel_momenta ta_rel_energy_kinetic_per_atom
  ta_rel_energy_kinetic_total ta_rel_energy_potential_total ta_rel_energy_total : respects.

Section analyzer.
Context {U : Type} {duq : UnitSystem U} {helpers : Helpers U}.
Context {elements_data : ElementsData} {numpy_sum : np.AddReduce}.

Import TrajectoryAnalyzer.

Local Abbreviation Self := (TrajectoryAnalyzer.t U * World)%type.
Implicit Types (st : Self) (w : World) (k e : bool).

(** *** Inversions *)

Lemma on_world_Ok {A} (m : M World A) st a st' :
  on_world m st = (Ok a, st') → st'.1 = st.1 ∧ m st.2 = (Ok a, st'.2).
Proof.
  unfold on_world. destruct (m st.2) as [r w'] eqn:Hm. intros [= -> <-]. done.
Qed.

Lemma attr_Ok {A} (f : TrajectoryAnalyzer.t U → A) st a st' :
  attr f st = (Ok a, st') → st' = st ∧ a = f st.1.
Proof. by intros [= <- <-]. Qed.

Lemma new_array_Ok x st r st' :
  new_array x st = (Ok r, st') →
  ∃ l a, r = Some l ∧ x = Ok a ∧ heap st.2 !! l = None
         ∧ st' = (st.1, {| heap := <[l := a]> (heap st.2); trace := trace st.2 |}).
Proof.
  unfold new_array, bind, lift_result, on_world, ret. destruct x as [a|err]; [|done].
  rewrite alloc_spec. simpl. intros [= <- <-]. eexists _, _. split_and!; try done.
  apply fresh_not_allocated.
Qed.

Lemma load_operand_Ok v w a w' :
  load_operand v w = (Ok a, w') → w' = w ∧ ∃ l, v = Some l ∧ heap w !! l = Some a.
Proof.
  destruct v as [l|]; [|done]. unfold load_operand, load.
  destruct (heap w !! l) as [a0|] eqn:Hl; [|done]. intros [= <- <-]. eauto.
Qed.

Lemma unit_truediv_Ok a b w u w' :
  unit_truediv a b w = (Ok u, w') → duq_truediv a b = Ok u.
Proof. unfold unit_truediv, bind, emit, lift_result. by intros [= -> _]. Qed.

Lemma boltzmann_Ok u w x w' :
  boltzmann_const_convert_unit u w = (Ok x, w') → duq_boltzmann_value u = Ok x.
Proof. unfold boltzmann_const_convert_unit, bind, emit, lift_result. by intros [= -> _]. Qed.

Lemma set_cache_Ok f st r st' :
  set_cache f st = (r, st') →
  st' = ({| data := data st.1; units := units st.1; cache := f (cache st.1) |}, st.2).
Proof. by intros [= _ <-]. Qed.

Lemma set_units_Ok f st r st' :
  set_units f st = (r, st') →
  st' = ({| data := data st.1; units := f (units st.1); cache := cache st.1 |}, st.2).
Proof. by intros [= _ <-]. Qed.

(** *** A cached property, read twice *)

Lemma lazy_cached field calc st l :
  field (cache st.1) = Some l → lazy field calc st = (Ok (Some l), st).
Proof.
  intros Hf. unfold lazy, bind, attr, ret. cbv beta iota. rewrite Hf.
  cbv beta iota. by rewrite Hf.
Qed.

Lemma lazy_idempotent field calc :
  (∀ st st', calc st = (Ok tt, st') → is_Some (field (cache st'.1))) →
  ∀ st v st', lazy field calc st = (Ok v, st') →
    is_Some v ∧ field (cache st'.1) = v ∧ lazy field calc st' = (Ok v, st').
Proof.
  intros Hcalc st v st' Hrun.
  assert (is_Some v ∧ field (cache st'.1) = v) as [[l Hl] Hv].
  { revert Hrun. unfold lazy, bind, attr, ret. cbv beta iota.
    destruct (field (cache st.1)) as [l|] eqn:Hf; cbv beta iota.
    - rewrite Hf. intros [= <- <-]. split; [by eexists|done].
    - destruct (calc st) as [[[]|err] st1] eqn:Hc; [|done].
      intros [= <- <-]. split; [|done]. eapply Hcalc, Hc. }
  subst v. split_and!; try done. by apply lazy_cached.
Qed.

(** Each computation ends by assigning the new array to its attribute. *)
Ltac calc_assigns :=
  let H := fresh "H" in
  intros ? ? H;
  repeat (apply bind_Ok in H as (? & ? & ? & H));
  apply set_cache_Ok in H; subst;
  match goal with Hn : new_array _ _ = (Ok _, _) |- _ =>
    apply new_array_Ok in Hn as (? & ? & -> & _) end;
  simpl; eauto.

Lemma calculate_speeds_assigns st st' :
  _calculate_speeds st = (Ok tt, st') → is_Some (_speeds (cache st'.1)).
Proof. revert st st'. unfold _calculate_speeds. calc_assigns. Qed.

Lemma calculate_momenta_assigns st st' :
  _calculate_momenta st = (Ok tt, st') → is_Some (_momenta (cache st'.1)).
Proof. revert st st'. unfold _calculate_momenta. calc_assigns. Qed.

Lemma calculate_energy_kinetic_per_atom_assigns st st' :
  _calculate_energy_kinetic_per_atom st = (Ok tt, st') →
  is_Some (_energy_kinetic_per_atom (cache st'.1)).
Proof. revert st st'. unfold _calculate_energy_kinetic_per_atom. calc_assigns. Qed.

Lemma calculate_energy_kinetic_total_assigns st st' :
  _calculate_energy_kinetic_total st = (Ok tt, st') →
  is_Some (_energy_kinetic_total (cache st'.1)).
Proof. revert st st'. unfold _calculate_energy_kinetic_total. calc_assigns. Qed.

Lemma calculate_energy_potential_total_assigns st st' :
  _calculate_energy_potential_total st = (Ok tt, st') →
  is_Some (_energy_potential_total (cache st'.1)).
Proof. revert st st'. unfold _calculate_energy_potential_total. calc_assigns. Qed.

Lemma calculate_energy_total_assigns st st' :
  _calculate_energy_total st = (Ok tt, st') → is_Some (_energy_total (cache st'.1)).
Proof. revert st st'. unfold _calculate_energy_total. calc_assigns. Qed.

Lemma calculate_temperature_assigns st st' :
  _calculate_temperature st = (Ok tt, st') → is_Some (_temperature (cache st'.1)).
Proof. revert st st'. unfold _calculate_temperature. calc_assigns. Qed.

Lemma read_idempotent q st v st' :
  read q st = (Ok v, st') →
  is_Some v ∧ cache_field q (cache st'.1) = v ∧ read q st' = (Ok v, st').
Proof.
  destruct q; simpl.
  - apply (lazy_idempotent _speeds _calculate_speeds), calculate_speeds_assigns.
  - apply (lazy_idempotent _momenta _calculate_momenta), calculate_momenta_assigns.
  - apply (lazy_idempotent _energy_kinetic_per_atom _calculate_energy_kinetic_per_atom),
      calculate_energy_kinetic_per_atom_assigns.
  - apply (lazy_idempotent _energy_kinetic_total _calculate_energy_kinetic_total),
      calculate_energy_kinetic_total_assigns.
  - apply (lazy_idempotent _energy_potential_total _calculate_energy_potential_total),
      calculate_energy_potential_total_assigns.
  - apply (lazy_idempotent _energy_total _calculate_energy_total),
      calculate_energy_total_assigns.
  - apply (lazy_idempotent _temperature _calculate_temperature),
      calculate_temperature_assigns.
Qed.

End analyzer.

Section analyzer.
Context {U : Type} {duq : UnitSystem U} {helpers : Helpers U}.
Context {elements_data : ElementsData} {numpy_sum : np.AddReduce}.

Import TrajectoryAnalyzer.

Local Abbreviation Self := (TrajectoryAnalyzer.t U * World)%type.
Implicit Types (st : Self) (w : World) (k e : bool).
Local Abbreviation ta_rel := (TrajectoryAnalyzer.ta_rel (U := U)).

Lemma unit_energy_returns st v st' :
  unit_energy st = (Ok v, st') → _unit_energy (units st'.1) = v ∧ v ≠ PNone.
Proof.
  unfold unit_energy. intros Hrun.
  apply bind_Ok in Hrun as (v0 & s1 & [-> ->]%attr_Ok & Hrun).
  apply bind_Ok in Hrun as ([] & s2 & Hcase & [-> ->]%attr_Ok).
  destruct (_unit_energy (units st.1)) eqn:Hue.
  - repeat (apply bind_Ok in Hcase as (? & ? & ? & Hcase)).
    apply set_units_Ok in Hcase as ->. done.
  - injection Hcase as <-. by rewrite Hue.
  - injection Hcase as <-. by rewrite Hue.
Qed.

Lemma energy_kinetic_per_atom_returns st v st' :
  energy_kinetic_per_atom st = (Ok v, st') →
  _energy_kinetic_per_atom (cache st'.1) = v.
Proof.
  intros Hrun.
  by destruct (lazy_idempotent _energy_kinetic_per_atom _calculate_energy_kinetic_per_atom
    calculate_energy_kinetic_per_atom_assigns st v st' Hrun) as (_ & ? & _).
Qed.

(** The computation of the temperature. *)
Lemma calculate_temperature_spec st st' :
  _calculate_temperature st = (Ok tt, st') →
  ∃ l, _temperature (cache st'.1) = Some l ∧ temperature_of st' l.
Proof.
  unfold _calculate_temperature. intros Hrun.
  apply bind_Ok in Hrun as (ue & s1 & Hue & Hrun).
  apply bind_Ok in Hrun as (ut & s2 & [-> ->]%attr_Ok & Hrun).
  apply bind_Ok in Hrun as (ub & s3 & [Hs3 Hdiv%unit_truediv_Ok]%on_world_Ok & Hrun).
  apply bind_Ok in Hrun as (kB & s4 & [Hs4 HkB%boltzmann_Ok]%on_world_Ok & Hrun).
  apply bind_Ok in Hrun as (ke & s5 & Hke & Hrun).
  apply bind_Ok in Hrun as (a & s6 & [Hs6 Hload]%on_world_Ok & Hrun).
  apply load_operand_Ok in Hload as (Hw6 & lk & -> & Hlk).
  apply bind_Ok in Hrun as (m & s7 & Hm & Hrun).
  injection Hm as Hm <-.
  apply bind_Ok in Hrun as (r & s8 & Hnew & Hset).
  apply new_array_Ok in Hnew as (l & arr & -> & [= <-] & Hfresh & ->).
  apply set_cache_Ok in Hset as ->.
  destruct (unit_energy_returns _ _ _ Hue) as [Hfield Hne].
  pose proof (ta_rel_energy_kinetic_per_atom true true _ _ _ Hke) as (_ & _ & Hut & _ & _ & Hue5).
  apply energy_kinetic_per_atom_returns in Hke.
  assert (s6 = s5) as -> by (destruct s5, s6; simpl in *; congruence).
  assert (s4.1 = s1.1) as Hs41 by congruence.
  rewrite Hs41 in Hue5, Hut. rewrite Hfield in Hue5. specialize (Hue5 I Hne).
  exists l. split; [done|].
  exists lk, a, ub, kB, m. simpl. split_and!; try done.
  - rewrite lookup_insert_ne; [done|]. intros <-. congruence.
  - by rewrite Hue5.
  - by rewrite Hue5, Hut.
  - apply lookup_insert_eq.
Qed.

(** A read of the temperature that computes it. *)
Lemma temperature_spec st v st' :
  _temperature (cache st.1) = None → temperature st = (Ok v, st') →
  ∃ l, v = Some l ∧ _temperature (cache st'.1) = Some l ∧ temperature_of st' l.
Proof.
  intros Hc Hrun. unfold temperature in Hrun.
  apply bind_Ok in Hrun as (c & s1 & [-> ->]%attr_Ok & Hrun).
  apply bind_Ok in Hrun as ([] & s2 & Hcase & [-> ->]%attr_Ok).
  rewrite Hc in Hcase.
  apply calculate_temperature_spec in Hcase as (l & Hl & Hok). exists l. by rewrite Hl.
Qed.

End analyzer.

Section constructor.
Context {U : Type} {duq : UnitSystem U} {helpers : Helpers U}.
Context {elements_data : ElementsData} {numpy_sum : np.AddReduce}.

Import TrajectoryAnalyzer.

Local Abbreviation Self := (TrajectoryAnalyzer.t U * World)%type.
Implicit Types (st : Self) (w : World).

Lemma velocity_returns st v st' :
  unit_velocity st = (Ok v, st') → _unit_velocity (units st'.1) = v ∧ v ≠ PNone.
Proof.
  unfold unit_velocity. intros Hrun.
  apply bind_Ok in Hrun as (v0 & s1 & [-> ->]%attr_Ok & Hrun).
  apply bind_Ok in Hrun as ([] & s2 & Hcase & [-> ->]%attr_Ok).
  destruct (_unit_velocity (units st.1)) eqn:Hue.
  - repeat (apply bind_Ok in Hcase as (? & ? & ? & Hcase)).
    apply set_units_Ok in Hcase as ->. done.
  - injection Hcase as <-. by rewrite Hue.
  - injection Hcase as <-. by rewrite Hue.
Qed.

Lemma momentum_returns st v st' :
  unit_momentum st = (Ok v, st') → _unit_momentum (units st'.1) = v ∧ v ≠ PNone.
Proof.
  unfold unit_momentum. intros Hrun.
  apply bind_Ok in Hrun as (v0 & s1 & [-> ->]%attr_Ok & Hrun).
  apply bind_Ok in Hrun as ([] & s2 & Hcase & [-> ->]%attr_Ok).
  destruct (_unit_momentum (units st.1)) eqn:Hue.
  - repeat (apply bind_Ok in Hcase as (? & ? & ? & Hcase)).
    apply set_units_Ok in Hcase as ->. done.
  - injection Hcase as <-. by rewrite Hue.
  - injection Hcase as <-. by rewrite Hue.
Qed.

Lemma unit_mul_Ok a b w u w' :
  unit_mul a b w = (Ok u, w') → duq_mul a b = Ok u.
Proof. unfold unit_mul, bind, emit, lift_result. by intros [= -> _]. Qed.

End constructor.

Lemma flat_map_singleton {A B} (f : A → B) (l : list A) :
  flat_map (λ x, [f x]) l = f <$> l.
Proof. induction l as [|x l IH]; [done|]. simpl. by rewrite IH. Qed.

Section mean.
Context {numpy_sum : np.AddReduce}.

(** The mean over axis 1 of a frames x atoms array, frame by frame. *)
Lemma mean_axis1_frame ke T N m :
  np.shape ke = [T; N] → np.mean ke 1 = Ok m →
  np.shape m = [T]
  ∧ ∀ frame, (frame < T)%nat → np.data m !! frame = Some (np.mean_lane (np.row ke frame)).
Proof.
  intros Hs. unfold np.mean, np.reduce_axis. rewrite Hs. simpl.
  intros [= <-]. simpl. split; [done|]. intros frame Hframe.
  rewrite flat_map_singleton, list_lookup_fmap, Nat.mul_1_r.
  rewrite lookup_seq_lt by done. simpl. do 2 f_equal.
  unfold np.lane, np.row. rewrite Hs. simpl.
  apply list_fmap_ext. intros i j _. f_equal. lia.
Qed.

End mean.

Section analyzer.
Context {U : Type} {duq : UnitSystem U} {helpers : Helpers U}.
Context {elements_data : ElementsData} {numpy_sum : np.AddReduce}.

Import TrajectoryAnalyzer.

Local Abbreviation Self := (TrajectoryAnalyzer.t U * World)%type.
Implicit Types (st : Self) (w : World).

Section init.
Context (positions velocities timestamps : np.ndarray).
Context (atomic_numbers molecule_ids : list Z).
Context (connectivity_matrix : list (list bool)).
Context (coulomb lennard_jones bond_vibration angle_vibration
         distances_interatomic bond_angles : option loc).
Context (unit_length0 unit_time0 unit_velocity0 unit_energy0 unit_angle0 : pyunit U).

Local Abbreviation init :=
  (__init__ positions velocities timestamps atomic_numbers molecule_ids
     connectivity_matrix coulomb lennard_jones bond_vibration angle_vibration
     distances_interatomic bond_angles
     unit_length0 unit_time0 unit_velocity0 unit_energy0 unit_angle0).

(** The constructor raises where it reads [self.atomic_numbers], whatever
    its arguments are, and leaves the world as it is. *)
Lemma init_Raise w :
  init w
  = (Raise (AttributeError "'TrajectoryAnalyzer' object has no attribute 'atomic_numbers'"), w).
Proof. reflexivity. Qed.

End init.

(** A present unit is returned as it is: no call into the unit library, no
    assignment. *)
Lemma unit_energy_present st :
  _unit_energy (units st.1) ≠ PNone →
  unit_energy st = (Ok (_unit_energy (units st.1)), st).
Proof.
  intros Hne. unfold unit_energy, bind, attr, ret. cbv beta iota.
  destruct (_unit_energy (units st.1)) eqn:Hu; [by destruct Hne| |];
    cbv beta iota; by rewrite Hu.
Qed.

Lemma unit_velocity_present st :
  _unit_velocity (units st.1) ≠ PNone →
  unit_velocity st = (Ok (_unit_velocity (units st.1)), st).
Proof.
  intros Hne. unfold unit_velocity, bind, attr, ret. cbv beta iota.
  destruct (_unit_velocity (units st.1)) eqn:Hu; [by destruct Hne| |];
    cbv beta iota; by rewrite Hu.
Qed.

Lemma unit_momentum_present st :
  _unit_momentum (units st.1) ≠ PNone →
  unit_momentum st = (Ok (_unit_momentum (units st.1)), st).
Proof.
  intros Hne. unfold unit_momentum, bind, attr, ret. cbv beta iota.
  destruct (_unit_momentum (units st.1)) eqn:Hu; [by destruct Hne| |];
    cbv beta iota; by rewrite Hu.
Qed.

End analyzer.

Section driver.
Context {U FF EN : Type}.
Context {duq : UnitSystem U} {helpers : Helpers U}.
Context {elements_data : ElementsData} {numpy_sum : np.AddReduce}.
Context {forcefield_ops : mdforce.ForceField U FF}.
Context {ensemble_ops : ensemble_generator.EnsembleGenerator U EN}.
Context {numintegrator : ode.Integrator}.

Import MDSimulation.

Local Abbreviation Self := (MDSimulation.t U FF EN * World)%type.
Implicit Types (self : MDSimulation.t U FF EN) (w : World) (ch : channel) (st : Self).
Local Abbreviation prepare_frame := (MDSimulation.prepare_frame (U := U) (FF := FF) (EN := EN)).
Local Abbreviation driver_frame := (MDSimulation.driver_frame (U := U) (FF := FF) (EN := EN)).

Global Instance prepare_frame_refl : Reflexive prepare_frame.
Proof. by intros st. Qed.

Global Instance prepare_frame_trans : Transitive prepare_frame.
Proof.
  intros s1 s2 s3 (Ha1 & Hb1 & Hc1 & Hd1) (Ha2 & Hb2 & Hc2 & Hd2).
  unfold prepare_frame. split_and!; try congruence. auto.
Qed.

Lemma prepare_frame_np_zeros shp : respects prepare_frame (on_world (np_zeros shp)).
Proof.
  intros st r st' [Hself Hz]%on_world_inv.
  unfold prepare_frame. rewrite Hself.
  apply np_zeros_cases in Hz as [(e & -> & ->)|(l & a & -> & _ & Hl & ->)]; [done|].
  simpl. split_and!; try done. intros l' a' Hl'.
  rewrite lookup_insert_ne; [done|]. intros <-. congruence.
Qed.

Lemma prepare_frame_set_buffers f : respects prepare_frame (set_self (with_buffers f)).
Proof. by intros st r st' [_ ->]%modify_inv. Qed.

Lemma prepare_frame_set_curr_step v : respects prepare_frame (set_self (with_curr_step v)).
Proof. by intros st r st' [_ ->]%modify_inv. Qed.

Lemma prepare_frame_attr {A} (f : MDSimulation.t U FF EN → A) : respects prepare_frame (attr f).
Proof. intros st r st' [= _ <-]. reflexivity. Qed.

Lemma prepare_frame_forcefield_call method : respects prepare_frame (forcefield_call method).
Proof.
  intros st r st'. unfold forcefield_call.
  destruct (method _) as [r0 ff']. by intros [= _ <-].
Qed.

Lemma run_prepare_frame num_steps pbc : respects prepare_frame (run_prepare num_steps pbc).
Proof.
  unfold run_prepare.
  repeat first
    [ apply respects_bind; [apply _ | | intros ?]
    | apply prepare_frame_np_zeros | apply prepare_frame_set_buffers
    | apply prepare_frame_set_curr_step | apply prepare_frame_attr
    | apply prepare_frame_forcefield_call ].
Qed.

Lemma forcefield_call_inv method st r st' :
  forcefield_call method st = (r, st') →
  ∃ ff', method (ob_value (_forcefield st.1)) = (r, ff')
         ∧ st' = (with_forcefield_state ff' st.1, st.2).
Proof.
  unfold forcefield_call. destruct (method _) as [r0 ff']. intros [= <- <-]. eauto.
Qed.

Lemma np_zeros_Ok {S} shp (sw : S * World) l (sw' : S * World) :
  on_world (np_zeros shp) sw = (Ok l, sw') →
  ∃ a, np.zeros shp = Ok a ∧ heap sw.2 !! l = None
       ∧ sw' = (sw.1, {| heap := <[l := a]> (heap sw.2); trace := trace sw.2 |}).
Proof.
  intros [Hself Hz]%on_world_inv.
  apply np_zeros_cases in Hz as [(e & [=] & _)|(l' & a & [= <-] & Hz & Hl & Hw)].
  exists a. split_and!; try done. destruct sw'. simpl in *. by subst.
Qed.

Lemma zeros_well_formed shp a : np.zeros shp = Ok a → np.well_formed a.
Proof.
  intros (_ & _ & Hd)%zeros_inv. unfold np.well_formed. by rewrite Hd, length_replicate.
Qed.

Lemma zeros_shape shp a : np.zeros shp = Ok a → np.shape a = Z.to_nat <$> shp.
Proof. by intros (_ & ? & _)%zeros_inv. Qed.

(** The state in which [run_prepare] hands over to the integration: the six
    buffers are new arrays of zeros, different from each other, with
    [num_steps + 1] slots, and the step counter is 0. *)
Lemma run_prepare_Ok num_steps pbc st st' :
  run_prepare num_steps pbc st = (Ok tt, st') →
  let ens := ob_value (_ensemble st.1) in
  _curr_step st'.1 = Some 0%Z
  ∧ buffers_allocated st'.1 st'.2 (Z.to_nat (num_steps + 1))
      (Z.to_nat (ensemble_generator.number_molecules_total ens))
      (Z.to_nat (ensemble_generator.number_atoms_total ens))
  ∧ (∀ ch l a, target ch (buffers st'.1) = Some l → heap st'.2 !! l = Some a →
       Z.of_nat <$> np.shape a = buffer_shape num_steps ens ch)
  ∧ (∀ ch l, target ch (buffers st'.1) = Some l →
       heap st.2 !! l = None
       ∧ ∃ a, heap st'.2 !! l = Some a
              ∧ np.data a = replicate (np.size_of (np.shape a)) 0%float).
Proof.
  unfold run_prepare. intros Hrun.
  apply bind_Ok in Hrun as (b1 & s1 & (a1 & Hz1 & Hf1 & ->)%np_zeros_Ok & Hrun).
  apply bind_Ok in Hrun as ([] & s1' & [_ ->]%modify_inv & Hrun).
  apply bind_Ok in Hrun as (b2 & s2 & (a2 & Hz2 & Hf2 & ->)%np_zeros_Ok & Hrun).
  apply bind_Ok in Hrun as ([] & s2' & [_ ->]%modify_inv & Hrun).
  apply bind_Ok in Hrun as (b3 & s3 & (a3 & Hz3 & Hf3 & ->)%np_zeros_Ok & Hrun).
  apply bind_Ok in Hrun as ([] & s3' & [_ ->]%modify_inv & Hrun).
  apply bind_Ok in Hrun as (b4 & s4 & (a4 & Hz4 & Hf4 & ->)%np_zeros_Ok & Hrun).
  apply bind_Ok in Hrun as ([] & s4' & [_ ->]%modify_inv & Hrun).
  apply bind_Ok in Hrun as (ens & s5 & [= <- <-] & Hrun).
  apply bind_Ok in Hrun as (b5 & s5' & (a5 & Hz5 & Hf5 & ->)%np_zeros_Ok & Hrun).
  apply bind_Ok in Hrun as ([] & s5'' & [_ ->]%modify_inv & Hrun).
  apply bind_Ok in Hrun as (b6 & s6 & (a6 & Hz6 & Hf6 & ->)%np_zeros_Ok & Hrun).
  apply bind_Ok in Hrun as ([] & s6' & [_ ->]%modify_inv & Hrun).
  apply bind_Ok in Hrun as ([] & s7 & (ff1 & _ & ->)%forcefield_call_inv & Hrun).
  apply bind_Ok in Hrun as ([] & s8 & (ff2 & _ & ->)%forcefield_call_inv & Hrun).
  apply modify_inv in Hrun as [_ ->].
  simpl in *.
  repeat match goal with
  | H : <[_ := _]> _ !! _ = None |- _ => apply lookup_insert_None in H as [H ?]
  end.
  pose proof (zeros_inv _ _ Hz5) as (Hpos5 & _ & _).
  pose proof (zeros_inv _ _ Hz6) as (Hpos6 & _ & _).
  apply Forall_cons in Hpos5 as [Hn [Hm _]%Forall_cons].
  apply Forall_cons in Hpos6 as [_ [Ha _]%Forall_cons].
  assert (∀ ch, ∃ l a,
    target ch {| _energy_potential_coulomb := Some b1;
                 _energy_potential_lennard_jones := Some b2;
                 _energy_potential_bond_vibration := Some b3;
                 _energy_potential_angle_vibration := Some b4;
                 _bond_angles := Some b5;
                 _distances_interatomic := Some b6 |} = Some l
    ∧ heap st.2 !! l = None
    ∧ (<[b6:=a6]> (<[b5:=a5]> (<[b4:=a4]> (<[b3:=a3]> (<[b2:=a2]> (<[b1:=a1]> (heap st.2))))))) !! l = Some a
    ∧ np.well_formed a
    ∧ np.shape a = Z.to_nat (num_steps + 1)
        :: slot_shape (Z.to_nat (ensemble_generator.number_molecules_total (ob_value (_ensemble st.1))))
                      (Z.to_nat (ensemble_generator.number_atoms_total (ob_value (_ensemble st.1)))) ch
    ∧ np.data a = replicate (np.size_of (np.shape a)) 0%float) as Hall.
  { intros ch. destruct ch; simpl.
    - exists b1, a1. split_and!; try done; [by simplify_map_eq|by eapply zeros_well_formed|by apply zeros_shape in Hz1|by apply zeros_inv in Hz1 as (_ & _ & ?)].
    - exists b2, a2. split_and!; try done; [by simplify_map_eq|by eapply zeros_well_formed|by apply zeros_shape in Hz2|by apply zeros_inv in Hz2 as (_ & _ & ?)].
    - exists b3, a3. split_and!; try done; [by simplify_map_eq|by eapply zeros_well_formed|by apply zeros_shape in Hz3|by apply zeros_inv in Hz3 as (_ & _ & ?)].
    - exists b4, a4. split_and!; try done; [by simplify_map_eq|by eapply zeros_well_formed|by apply zeros_shape in Hz4|by apply zeros_inv in Hz4 as (_ & _ & ?)].
    - exists b5, a5. split_and!; try done; [by simplify_map_eq|by eapply zeros_well_formed|by apply zeros_shape in Hz5|by apply zeros_inv in Hz5 as (_ & _ & ?)].
    - exists b6, a6. split_and!; try done; [by simplify_map_eq|by eapply zeros_well_formed|by apply zeros_shape in Hz6|by apply zeros_inv in Hz6 as (_ & _ & ?)]. }
  split_and!; try done.
  - split.
    + intros ch _. destruct (Hall ch) as (l & a & ? & ? & ? & ? & ? & ?). eauto 10.
    + intros ch ch'. destruct ch, ch'; simpl; intros [=]; done.
  - intros ch l a Ht Hl. destruct (Hall ch) as (l' & a' & Ht' & ? & Hl' & ? & Hs & ?).
    assert (l' = l) as -> by (destruct ch; simpl in *; congruence).
    assert (a' = a) as -> by congruence.
    rewrite Hs. destruct ch; simpl; rewrite ?Z2Nat.id by done; done.
  - intros ch l Ht. simpl in Ht. destruct (Hall ch) as (l' & a & Ht' & ? & ? & ? & ? & ?).
    assert (l' = l) as -> by (destruct ch; simpl in *; congruence). eauto.
Qed.

End driver.

Section driver.
Context {U FF EN : Type}.
Context {duq : UnitSystem U} {helpers : Helpers U}.
Context {elements_data : ElementsData} {numpy_sum : np.AddReduce}.
Context {forcefield_ops : mdforce.ForceField U FF}.
Context {ensemble_ops : ensemble_generator.EnsembleGenerator U EN}.
Context {numintegrator : ode.Integrator}.

Import MDSimulation.

Local Abbreviation Self := (MDSimulation.t U FF EN * World)%type.
Implicit Types (self : MDSimulation.t U FF EN) (w : World) (ch : channel) (st : Self).
Local Abbreviation prepare_frame := (MDSimulation.prepare_frame (U := U) (FF := FF) (EN := EN)).
Local Abbreviation driver_frame := (MDSimulation.driver_frame (U := U) (FF := FF) (EN := EN)).

Global Instance driver_frame_refl : Reflexive driver_frame.
Proof.
  intros st. unfold driver_frame. split_and!; try done.
  - intros l a Hl. exists a. done.
  - exists []. by rewrite app_nil_r.
Qed.

Global Instance driver_frame_trans : Transitive driver_frame.
Proof.
  intros s1 s2 s3 (Hb1 & Ht1 & He1 & Hn1 & Hh1 & (ev1 & Htr1 & Hev1))
                  (Hb2 & Ht2 & He2 & Hn2 & Hh2 & (ev2 & Htr2 & Hev2)).
  unfold driver_frame. split_and!; try congruence.
  - auto.
  - intros l a Hl. destruct (Hh1 l a Hl) as (a1 & Hl1 & Hs1 & Ho1).
    destruct (Hh2 l a1 Hl1) as (a2 & Hl2 & Hs2 & Ho2).
    exists a2. split_and!; try congruence.
    intros Hch. rewrite Ho2, Ho1; try done. by rewrite Hb1.
  - exists (ev1 ++ ev2). rewrite Htr2, Htr1, app_assoc. split; [done|].
    apply Forall_app. split; [done|]. by rewrite <- Hb1.
Qed.

Lemma driver_frame_attr {A} (f : MDSimulation.t U FF EN → A) : respects driver_frame (attr f).
Proof. intros st r st' [= _ <-]. reflexivity. Qed.

Lemma driver_frame_forcefield_call method : respects driver_frame (forcefield_call method).
Proof.
  intros st r st' (ff' & _ & ->)%forcefield_call_inv.
  unfold driver_frame. simpl. split_and!; try done.
  - intros l a Hl. by exists a.
  - exists []. by rewrite app_nil_r.
Qed.

Lemma driver_frame_set_curr_step v : respects driver_frame (set_self (with_curr_step v)).
Proof.
  intros st r st' [_ ->]%modify_inv.
  unfold driver_frame. simpl. split_and!; try done.
  - intros l a Hl. by exists a.
  - exists []. by rewrite app_nil_r.
Qed.

Lemma driver_frame_set_results p v ts : respects driver_frame (set_self (with_results p v ts)).
Proof.
  intros st r st' [_ ->]%modify_inv.
  unfold driver_frame. simpl. split_and!; try done.
  - intros l a Hl. by exists a.
  - exists []. by rewrite app_nil_r.
Qed.

Lemma driver_frame_record_step ch :
  respects driver_frame (record_step (target ch) (source ch)).
Proof.
  intros st r st'. unfold record_step, bind, attr. cbv beta iota.
  intros [Hself Hst]%on_world_inv. simpl in Hself, Hst.
  apply store_item_cases in Hst as [Hw|(l & a & a' & k & Ht & Hl & Hs & Hw)].
  - assert (st' = st) as -> by (destruct st, st'; simpl in *; congruence). reflexivity.
  - unfold driver_frame. rewrite Hself, Hw. simpl. split_and!; try done.
    + intros l0 Hl0. rewrite lookup_insert_ne; [done|]. intros <-. congruence.
    + intros l0 a0 Hl0. destruct (decide (l = l0)) as [<-|Hne].
      * exists a'. rewrite lookup_insert_eq. split_and!; try done; [congruence|].
        intros Hch. by destruct (Hch ch).
      * exists a0. rewrite lookup_insert_ne by done. done.
    + exists [Store l k]. split; [done|]. apply Forall_singleton. right. eauto.
Qed.

Lemma driver_frame_force q : respects driver_frame (_force q).
Proof.
  rewrite force_unfold. unfold record_then, channels. cbn [foldr].
  repeat first
    [ apply driver_frame_forcefield_call | apply driver_frame_record_step
    | apply driver_frame_attr | apply driver_frame_set_curr_step
    | apply respects_raise; apply _
    | apply respects_bind; [apply _ | | intros ?]
    | match goal with |- respects _ (match ?x with _ => _ end) => destruct x end ].
Qed.

Lemma driver_frame_integrate i : respects driver_frame (integrate_with_force i).
Proof.
  induction i as [p v ts|e|q k IH]; simpl.
  - apply respects_ret; apply _.
  - apply respects_raise; apply _.
  - apply respects_bind; [apply _|apply driver_frame_force|]. intros a. apply IH.
Qed.

(** When the integration returns, and the integrator keeps its contract, the
    position series has the frames of the contract. *)
Lemma integrate_yields_frames frames i st p v ts st' :
  yields_frames frames i → integrate_with_force i st = (Ok (p, v, ts), st') →
  head (np.shape p) = Some frames.
Proof.
  intros Hy. revert st. induction Hy as [p0 v0 ts0 Hp|e|q k _ IH]; intros st; simpl.
  - by intros [= <- _ _ _].
  - done.
  - intros (a & s1 & _ & Hrun)%bind_Ok. eapply IH, Hrun.
Qed.

Lemma driver_frame_units_only st w' :
  units_only st.2 w' → driver_frame st (st.1, w').
Proof.
  intros [Hheap (evs & Htr & Hevs)].
  unfold driver_frame. simpl. rewrite Hheap. split_and!; try done.
  - intros l a Hl. by exists a.
  - exists evs. split; [done|]. eapply Forall_impl; [done|]. intros e He. by left.
Qed.

(** [run_integrate], outcome by outcome: the integration raised, and
    [run_integrate] raises its exception in the state the integration left;
    or the integration returned, the three series were assigned, and
    [run_integrate] raises the exception of the constructor of the
    analyzer. It never returns. *)
Lemma run_integrate_cases num_steps dt st r st' :
  run_integrate num_steps dt st = (r, st') →
  let ens := ob_value (_ensemble st.1) in
  let i := ode.integrate (ensemble_generator.positions ens)
             (ensemble_generator.velocities ens) dt num_steps in
  (∃ e, integrate_with_force i st = (Raise e, st') ∧ r = Raise e)
  ∨ (∃ p v ts s2,
       integrate_with_force i st = (Ok (p, v, ts), s2)
       ∧ st' = (with_results p v ts s2.1, s2.2)
       ∧ r = Raise (AttributeError
                      "'TrajectoryAnalyzer' object has no attribute 'atomic_numbers'")).
Proof.
  unfold run_integrate. intros Hrun. cbv zeta.
  apply bind_cases in Hrun as [(e & [=] & _)|(ens & s1 & [= <- <-] & Hrun)].
  apply bind_cases in Hrun as [(e & Hint & ->)|([[p v] ts] & s2 & Hint & Hrun)];
    [left; by eauto|].
  right. exists p, v, ts, s2. split; [done|].
  apply bind_cases in Hrun as [(e & [[=] _]%modify_inv & _)|([] & s3 & [_ ->]%modify_inv & Hrun)].
  apply bind_cases in Hrun as [(e & [=] & _)|(self & s4 & [= <- <-] & Hrun)].
  apply bind_cases in Hrun as [(e & Hinit & ->)|(tr & s5 & Hinit & _)].
  - apply on_world_inv in Hinit as [Hself Hinit]. rewrite init_Raise in Hinit.
    injection Hinit as <- Hw. split; [|done].
    destruct st' as [self' w']. simpl in *. by subst.
  - apply on_world_inv in Hinit as [_ Hinit]. by rewrite init_Raise in Hinit.
Qed.

Lemma run_integrate_frame num_steps dt : respects driver_frame (run_integrate num_steps dt).
Proof.
  intros st r st' Hrun.
  destruct (run_integrate_cases _ _ _ _ _ Hrun)
    as [(e & Hint & _)|(p & v & ts & s2 & Hint & -> & _)].
  - eapply driver_frame_integrate, Hint.
  - etrans; [eapply driver_frame_integrate, Hint|].
    eapply (driver_frame_set_results p v ts s2); reflexivity.
Qed.

End driver.

Section driver.
Context {U FF EN : Type}.
Context {duq : UnitSystem U} {helpers : Helpers U}.
Context {elements_data : ElementsData} {numpy_sum : np.AddReduce}.
Context {forcefield_ops : mdforce.ForceField U FF}.
Context {ensemble_ops : ensemble_generator.EnsembleGenerator U EN}.
Context {numintegrator : ode.Integrator}.

Import MDSimulation.

Local Abbreviation Self := (MDSimulation.t U FF EN * World)%type.
Implicit Types (self : MDSimulation.t U FF EN) (w : World) (ch : channel) (st : Self).
Local Abbreviation prepare_frame := (MDSimulation.prepare_frame (U := U) (FF := FF) (EN := EN)).
Local Abbreviation driver_frame := (MDSimulation.driver_frame (U := U) (FF := FF) (EN := EN)).

(** The arrays that existed before the buffers of this run were made are
    none of these buffers. *)
Lemma prepared_then_frame st s1 st' :
  prepare_frame st s1 →
  (∀ ch l, target ch (buffers s1.1) = Some l → heap st.2 !! l = None) →
  driver_frame s1 st' →
  (∀ l a, heap st.2 !! l = Some a → heap st'.2 !! l = Some a)
  ∧ ∃ evs, trace st'.2 = trace st.2 ++ evs
           ∧ Forall (λ e, ∀ l k, e = Store l k → heap st.2 !! l = None) evs.
Proof.
  intros (_ & _ & Hold & Htr) Hfresh (_ & _ & _ & _ & Hheap & (evs & Htr' & Hevs)). split.
  - intros l a Hl. destruct (Hheap l a (Hold l a Hl)) as (a' & Hl' & _ & Hsame).
    rewrite Hl', Hsame; [done|]. intros ch Hch. apply Hfresh in Hch. congruence.
  - exists evs. rewrite Htr', Htr. split; [done|].
    eapply Forall_impl; [exact Hevs|]. intros e [[name ->]|(ch & l & k & Hch & ->)] l' k'; [done|].
    intros [= <- _]. eauto.
Qed.

(** [run], whatever its outcome: the arrays that existed are as they were,
    and every store of the run went into an array that did not exist. *)
Lemma run_old_arrays num_steps dt pbc st r st' :
  run num_steps dt pbc st = (r, st') →
  (∀ l a, heap st.2 !! l = Some a → heap st'.2 !! l = Some a)
  ∧ ∃ evs, trace st'.2 = trace st.2 ++ evs
           ∧ Forall (λ e, ∀ l k, e = Store l k → heap st.2 !! l = None) evs.
Proof.
  unfold run. intros Hrun.
  apply bind_cases in Hrun as [(e & Hprep & _)|([] & s1 & Hprep & Hint)].
  - destruct (run_prepare_frame _ _ _ _ _ Hprep) as (_ & _ & Hold & Htr). split; [done|].
    exists []. by rewrite app_nil_r.
  - pose proof (run_prepare_frame _ _ _ _ _ Hprep) as Hframe.
    destruct (run_prepare_Ok _ _ _ _ Hprep) as (_ & _ & _ & Hfresh).
    eapply (prepared_then_frame st s1 st'); [done| |].
    + intros ch l Hch. by destruct (Hfresh ch l Hch).
    + eapply run_integrate_frame, Hint.
Qed.

(** A [run] that raises leaves [_trajectory] as it was. *)
Lemma run_Raise_trajectory num_steps dt pbc st e st' :
  run num_steps dt pbc st = (Raise e, st') → _trajectory st'.1 = _trajectory st.1.
Proof.
  unfold run. intros Hrun.
  apply bind_cases in Hrun as [(e' & Hprep & _)|([] & s1 & Hprep & Hint)].
  - by destruct (run_prepare_frame _ _ _ _ _ Hprep) as (? & _).
  - destruct (run_prepare_frame _ _ _ _ _ Hprep) as (Ht & _).
    destruct (run_integrate_frame _ _ _ _ _ Hint) as (_ & Ht' & _). congruence.
Qed.

Lemma init_Ok forcefield ensemble self :
  __init__ forcefield ensemble = Ok self →
  _forcefield self = forcefield ∧ _ensemble self = ensemble
  ∧ _trajectory self = None ∧ _curr_step self = None.
Proof.
  unfold __init__. destruct (_ || _); [done|]. destruct (_ || _); [done|].
  by intros [= <-].
Qed.

Lemma force_calls_then_raise qs q st accs st1 e st2 :
  force_calls qs st = (Ok accs, st1) → _force q st1 = (Raise e, st2) →
  force_calls (qs ++ [q]) st = (Raise e, st2).
Proof.
  revert st accs. induction qs as [|q0 qs IH]; intros st accs; simpl.
  - intros [= _ <-] Hq. by erewrite bind_eq_Raise.
  - intros (a & s1 & Hq0 & Hrest)%bind_Ok Hq.
    apply bind_Ok in Hrest as (accs' & s2 & Hqs & [= _ <-]).
    erewrite bind_eq_Ok by exact Hq0. erewrite bind_eq_Raise; [done|]. eapply IH; done.
Qed.

(** The six stores of one invocation. *)
Lemma stores_six self w len m n :
  buffers_allocated self w len m n →
  ∃ ls, NoDup ls ∧ length ls = 6%nat
        ∧ ∀ i, stores (buffers self) i = (λ l, Store l (Some i)) <$> ls.
Proof.
  intros [Hr Hd].
  set (f := λ ch, default 1%positive (target ch (buffers self))).
  assert (∀ ch, target ch (buffers self) = Some (f ch)) as Hf.
  { intros ch. destruct (Hr ch (elem_of_channels _)) as (l & ? & Ht & _).
    unfold f. by rewrite Ht. }
  exists (f <$> channels). split_and!; [|done|].
  - apply NoDup_fmap_2_strong; [|apply NoDup_channels].
    intros ch ch' _ _ Heq. apply Hd. by rewrite !Hf, Heq.
  - intros i. unfold stores. clear Hr. induction channels as [|ch chs IH]; [done|].
    csimpl. rewrite Hf. csimpl. by rewrite IH.
Qed.

End driver.

Section driver_claims.
Context {U FF EN : Type}.
Context {duq : UnitSystem U} {helpers : Helpers U}.
Context {elements_data : ElementsData} {numpy_sum : np.AddReduce}.
Context {forcefield_ops : mdforce.ForceField U FF}.
Context {ensemble_ops : ensemble_generator.EnsembleGenerator U EN}.
Context {numintegrator : ode.Integrator}.

Import MDSimulation.

Local Abbreviation Self := (MDSimulation.t U FF EN * World)%type.
Implicit Types (self : MDSimulation.t U FF EN) (w : World) (ch : channel) (st : Self).
Local Abbreviation prepare_frame := (MDSimulation.prepare_frame (U := U) (FF := FF) (EN := EN)).
Local Abbreviation driver_frame := (MDSimulation.driver_frame (U := U) (FF := FF) (EN := EN)).

(** [run], outcome by outcome: its preparation raised; or its preparation
    returned and [run_integrate] went on from there. *)
Lemma run_cases num_steps dt pbc st r st' :
  run num_steps dt pbc st = (r, st') →
  (∃ e, run_prepare num_steps pbc st = (Raise e, st') ∧ r = Raise e)
  ∨ (∃ s1, run_prepare num_steps pbc st = (Ok tt, s1)
           ∧ run_integrate num_steps dt s1 = (r, st')).
Proof.
  unfold run. intros Hrun.
  apply bind_cases in Hrun as [(e & Hprep & ->)|([] & s1 & Hprep & Hint)]; eauto.
Qed.

(** No [run] returns. *)
Lemma run_raises num_steps dt pbc st r st' :
  run num_steps dt pbc st = (r, st') → ∃ e, r = Raise e.
Proof.
  intros [(e & _ & ->)|(s1 & _ & Hint)]%run_cases; [by eauto|].
  destruct (run_integrate_cases _ _ _ _ _ Hint) as [(e & _ & ->)|(? & ? & ? & ? & _ & _ & ->)];
    eauto.
Qed.

(** A run whose preparation and integration return raises where it
    constructs the analyzer, holding the three series. *)
Lemma run_after_integration num_steps dt pbc st s1 p v ts s2 :
  run_prepare num_steps pbc st = (Ok tt, s1) →
  integrate_with_force
    (ode.integrate (ensemble_generator.positions (ob_value (_ensemble st.1)))
       (ensemble_generator.velocities (ob_value (_ensemble st.1))) dt num_steps) s1
  = (Ok (p, v, ts), s2) →
  run num_steps dt pbc st
  = (Raise (AttributeError "'TrajectoryAnalyzer' object has no attribute 'atomic_numbers'"),
     (with_results p v ts s2.1, s2.2)).
Proof.
  intros Hprep Hok.
  destruct (run_prepare_frame _ _ _ _ _ Hprep) as (_ & Hens & _).
  unfold run. erewrite bind_eq_Ok by exact Hprep.
  destruct (run_integrate num_steps dt s1) as [r st'] eqn:Hint.
  pose proof (run_integrate_cases _ _ _ _ _ Hint) as Hcases. cbv zeta in Hcases.
  rewrite Hens in Hcases.
  destruct Hcases as [(e & Hraise & _)|(p' & v' & ts' & s2' & Hok' & -> & ->)]; [congruence|].
  assert (p' = p ∧ v' = v ∧ ts' = ts ∧ s2' = s2) as (-> & -> & -> & ->)
    by (split_and!; congruence).
  done.
Qed.


(** The preparation of a [run] returns when no dimension is negative and the
    two calls of the force field return. *)
Lemma np_zeros_returns {S} shp (sw : S * World) :
  forallb (Z.leb 0) shp = true → ∃ l w', on_world (np_zeros shp) sw = (Ok l, (sw.1, w')).
Proof.
  intros Hshp. destruct sw as [s w]. unfold on_world, np_zeros, bind, lift_result, np.zeros.
  simpl. rewrite Hshp. rewrite alloc_spec. eauto.
Qed.

Lemma forcefield_call_eq method st r ff' :
  method (ob_value (_forcefield st.1)) = (r, ff') →
  forcefield_call method st = (r, (with_forcefield_state ff' st.1, st.2)).
Proof. intros Hm. unfold forcefield_call. by rewrite Hm. Qed.

Lemma run_prepare_returns num_steps (pbc : bool) st ff1 ff2 :
  let ens := ob_value (_ensemble st.1) in
  (0 ≤ num_steps + 1)%Z →
  (0 ≤ ensemble_generator.number_molecules_total ens)%Z →
  (0 ≤ ensemble_generator.number_atoms_total ens)%Z →
  mdforce.initialize_forcefield (ob_value (_forcefield st.1))
    (np.shape (ensemble_generator.positions ens))
    (if pbc then Some (ensemble_generator.box_lengths ens) else None) = (Ok tt, ff1) →
  mdforce.fit_units_to_input_data ff1 (ensemble_generator.unit_positions ens)
    (ensemble_generator.unit_time ens) = (Ok tt, ff2) →
  ∃ s1, run_prepare num_steps pbc st = (Ok tt, s1).
Proof.
  intros ens Hn Hm Ha Hinit Hfit. unfold run_prepare.
  assert (forallb (Z.leb 0) [num_steps + 1]%Z = true) as H1 by (simpl; lia).
  assert (forallb (Z.leb 0)
            [num_steps + 1; ensemble_generator.number_molecules_total ens]%Z = true) as H2
    by (simpl; lia).
  assert (forallb (Z.leb 0)
            [num_steps + 1; ensemble_generator.number_atoms_total ens;
             ensemble_generator.number_atoms_total ens]%Z = true) as H3
    by (simpl; lia).
  destruct (np_zeros_returns _ st H1) as (b1 & w1 & Hz1).
  erewrite bind_eq_Ok by exact Hz1. erewrite bind_eq_Ok by reflexivity.
  match goal with |- context [bind (on_world (np_zeros _)) _ ?s] =>
    destruct (np_zeros_returns _ s H1) as (b2 & w2 & Hz2) end.
  erewrite bind_eq_Ok by exact Hz2. erewrite bind_eq_Ok by reflexivity.
  match goal with |- context [bind (on_world (np_zeros _)) _ ?s] =>
    destruct (np_zeros_returns _ s H1) as (b3 & w3 & Hz3) end.
  erewrite bind_eq_Ok by exact Hz3. erewrite bind_eq_Ok by reflexivity.
  match goal with |- context [bind (on_world (np_zeros _)) _ ?s] =>
    destruct (np_zeros_returns _ s H1) as (b4 & w4 & Hz4) end.
  erewrite bind_eq_Ok by exact Hz4. erewrite bind_eq_Ok by reflexivity.
  erewrite bind_eq_Ok by reflexivity. unfold ensemble. simpl. fold ens.
  match goal with |- context [bind (on_world (np_zeros _)) _ ?s] =>
    destruct (np_zeros_returns _ s H2) as (b5 & w5 & Hz5) end.
  erewrite bind_eq_Ok by exact Hz5. erewrite bind_eq_Ok by reflexivity.
  match goal with |- context [bind (on_world (np_zeros _)) _ ?s] =>
    destruct (np_zeros_returns _ s H3) as (b6 & w6 & Hz6) end.
  erewrite bind_eq_Ok by exact Hz6. erewrite bind_eq_Ok by reflexivity.
  erewrite bind_eq_Ok by (apply forcefield_call_eq; simpl; exact Hinit).
  erewrite bind_eq_Ok by (apply forcefield_call_eq; simpl; exact Hfit).
  eauto.
Qed.

(** C1 (step alignment). With the buffers allocated and the step counter at
    0, the callback invoked on the positions [qs] (no more of them than there
    are slots) returns each time; the counter ends at the number of
    invocations; the stores of the run are, in this order, the six stores of
    invocation 0 into slot 0, the six of invocation 1 into slot 1, and so on,
    each into a different buffer; slot [i] of every buffer holds what the
    force field held after its evaluation [i], and the slots from the number
    of invocations on are as they were. *)
Theorem step_alignment self w len m n qs ffs :
  buffers_allocated self w len m n →
  _curr_step self = Some 0%Z →
  (length qs ≤ len)%nat →
  evaluations (ob_value (_forcefield self)) qs = Some ffs →
  Forall (conformant m n) ffs →
  ∃ self' w',
    force_calls qs (self, w) = (Ok (mdforce.acceleration <$> ffs), (self', w'))
    ∧ _curr_step self' = Some (Z.of_nat (length qs))
    ∧ buffers self' = buffers self
    ∧ trace w' = trace w ++ flat_map (stores (buffers self)) (seq 0 (length qs))
    ∧ (∃ ls, NoDup ls ∧ length ls = 6%nat
             ∧ ∀ i, stores (buffers self) i = (λ l, Store l (Some i)) <$> ls)
    ∧ (∀ ch l a, target ch (buffers self) = Some l → heap w !! l = Some a →
         ∃ a', heap w' !! l = Some a'
           ∧ np.shape a' = np.shape a
           ∧ (∀ i ff, ffs !! i = Some ff → np.slot a' i = np.data (source ch ff))
           ∧ (∀ j, (length qs ≤ j)%nat → np.slot a' j = np.slot a j)).
Proof.
  intros Ha Hc Hlen Hev Hconf.
  destruct (force_calls_from qs self w len m n 0 ffs Ha Hc Hlen Hev Hconf)
    as (self' & w' & Hrun & Hb & _ & Hc' & _ & _ & Htr & _ & Hslots).
  exists self', w'. split_and!; try done.
  - by eapply stores_six.
  - intros ch l a Ht Hl. destruct (Hslots ch l a Ht Hl) as (a' & Hl' & Hs & Hin & Hout).
    exists a'. split_and!; try done. intros j Hj. apply Hout. lia.
Qed.

(** C2 (step overflow). With the buffers allocated with [len] slots and the
    counter at 0, after [len] invocations one more invocation raises, an
    [IndexError] when the force field itself evaluated, and leaves the heap
    and the trace exactly as the [len] invocations left them: no slot is
    written, no buffer changes its shape, the counter stays at [len]. The
    sequence of [len + 1] invocations raises that exception. *)
Theorem step_overflow self w len m n qs ffs q :
  buffers_allocated self w len m n →
  _curr_step self = Some 0%Z →
  length qs = len →
  evaluations (ob_value (_forcefield self)) qs = Some ffs →
  Forall (conformant m n) ffs →
  ∃ self1 w1 e self2,
    force_calls qs (self, w) = (Ok (mdforce.acceleration <$> ffs), (self1, w1))
    ∧ _force q (self1, w1) = (Raise e, (self2, w1))
    ∧ force_calls (qs ++ [q]) (self, w) = (Raise e, (self2, w1))
    ∧ _curr_step self2 = Some (Z.of_nat len)
    ∧ buffers self2 = buffers self
    ∧ (∀ ff', mdforce.__call__ (ob_value (_forcefield self1)) q = (Ok tt, ff') →
         ∃ msg, e = IndexError msg).
Proof.
  intros Ha Hc Hlen Hev Hconf.
  destruct (force_calls_from qs self w len m n 0 ffs Ha Hc ltac:(lia) Hev Hconf)
    as (self1 & w1 & Hrun & Hb & _ & Hc1 & _ & Ha1 & _).
  rewrite Nat.add_0_l, Hlen in Hc1.
  destruct (force_overflow self1 w1 len m n (Z.of_nat len) q Ha1 Hc1 ltac:(lia))
    as (e & self2 & Hq & Hb2 & _ & Hc2 & He).
  exists self1, w1, e, self2. split_and!; try done; [|congruence].
  eapply force_calls_then_raise; done.
Qed.

(** C3 (sizes). When the preparation of a [run] returned, then whatever the
    run does afterwards: [num_steps + 1] is not negative; each of the six
    buffers the driver holds when the run ends is an array of the heap whose
    shape is [num_steps + 1] for the four energies, [(num_steps + 1, number
    of molecules)] for the bond angles and [(num_steps + 1, number of atoms,
    number of atoms)] for the distances; and when the integration returned
    its series, the driver holds them, and the position series has
    [num_steps + 1] frames when the integrator returns series of
    [num_steps + 1] frames as its contract says. *)
Theorem buffer_sizing num_steps dt pbc st s1 r st' :
  run_prepare num_steps pbc st = (Ok tt, s1) →
  run num_steps dt pbc st = (r, st') →
  let ens := ob_value (_ensemble st.1) in
  let i := ode.integrate (ensemble_generator.positions ens)
             (ensemble_generator.velocities ens) dt num_steps in
  (0 ≤ num_steps + 1)%Z
  ∧ (∀ ch, ∃ l a,
       target ch (buffers st'.1) = Some l
       ∧ heap st'.2 !! l = Some a
       ∧ Z.of_nat <$> np.shape a = buffer_shape num_steps ens ch)
  ∧ (∀ p v ts s2,
       integrate_with_force i s1 = (Ok (p, v, ts), s2) →
       _positions st'.1 = Some p ∧ _velocities st'.1 = Some v ∧ _timestamps st'.1 = Some ts
       ∧ (yields_frames (Z.to_nat (num_steps + 1)) i →
          head (np.shape p) = Some (Z.to_nat (num_steps + 1)))).
Proof.
  intros Hprep Hrun. cbv zeta.
  destruct (run_prepare_frame _ _ _ _ _ Hprep) as (_ & Hens & _).
  destruct (run_prepare_Ok _ _ _ _ Hprep) as (_ & [Hr Hd] & Hshape & _).
  apply run_cases in Hrun as [(e & Hprep' & _)|(s1' & Hprep' & Hint)]; [congruence|].
  assert (s1' = s1) as -> by congruence.
  pose proof (run_integrate_frame _ _ _ _ _ Hint) as (Hb & _ & _ & _ & Hheap & _).
  split_and!.
  - destruct (Hr Coulomb (elem_of_channels _)) as (l & a & Ht & Hl & _ & Hs).
    specialize (Hshape Coulomb l a Ht Hl). rewrite Hs in Hshape. simpl in Hshape.
    injection Hshape as Hn. lia.
  - intros ch. destruct (Hr ch (elem_of_channels _)) as (l & a & Ht & Hl & _ & Hs).
    destruct (Hheap l a Hl) as (a' & Hl' & Hs' & _).
    exists l, a'. rewrite Hb. split_and!; try done.
    rewrite Hs'. exact (Hshape ch l a Ht Hl).
  - intros p v ts s2 Hok.
    pose proof (run_integrate_cases _ _ _ _ _ Hint) as Hcases. cbv zeta in Hcases.
    rewrite Hens in Hcases.
    destruct Hcases as [(e & Hraise & _)|(p' & v' & ts' & s2' & Hok' & -> & _)]; [congruence|].
    assert (p' = p ∧ v' = v ∧ ts' = ts) as (-> & -> & ->) by (split_and!; congruence).
    simpl. split_and!; try done.
    intros Hy. eapply integrate_yields_frames; [exact Hy|exact Hok].
Qed.


(** C5 (run atomicity). A [run] that raises, at whatever step, leaves the
    attribute [_trajectory] as it was: on a driver without an earlier
    completed run the accessor still raises the not-yet-run error, and an
    earlier trajectory is still the one returned; every array that existed
    before the run, the arrays of an earlier trajectory included, has the
    contents it had. *)
Theorem run_failure_atomic num_steps dt pbc st e st' :
  run num_steps dt pbc st = (Raise e, st') →
  _trajectory st'.1 = _trajectory st.1
  ∧ trajectory st'.1 = trajectory st.1
  ∧ (_trajectory st.1 = None →
       trajectory st'.1 = Raise (ValueError "The simulation has not yet been run."))
  ∧ (∀ l a, heap st.2 !! l = Some a → heap st'.2 !! l = Some a).
Proof.
  intros Hrun. pose proof (run_Raise_trajectory _ _ _ _ _ _ Hrun) as Htr.
  split_and!.
  - done.
  - unfold trajectory. by rewrite Htr.
  - intros Hnone. unfold trajectory. by rewrite Htr, Hnone.
  - by destruct (run_old_arrays _ _ _ _ _ _ Hrun).
Qed.

(** C9, as amended (construction checks the classes). The constructor raises,
    a ValueError, exactly when the class of the force-field argument does not
    derive from ForceField or the class of the ensemble argument does not
    derive from EnsembleGenerator; it looks at nothing else of its arguments;
    when it returns, the two arguments are stored as they are, and no
    trajectory and no step counter are there yet. *)
Theorem construction_checks_classes (forcefield : pyobject FF) (ensemble : pyobject EN) :
  ((∃ msg, __init__ (U := U) forcefield ensemble = Raise (ValueError msg))
   ↔ (isinstance forcefield mdforce.class_name = false
      ∨ isinstance ensemble ensemble_generator.class_name = false))
  ∧ (∀ e, __init__ (U := U) forcefield ensemble = Raise e → ∃ msg, e = ValueError msg)
  ∧ (∀ self, __init__ (U := U) forcefield ensemble = Ok self →
       _forcefield self = forcefield ∧ _ensemble self = ensemble
       ∧ _trajectory self = None ∧ _curr_step self = None).
Proof.
  split_and!.
  - unfold __init__, isinstance.
    destruct (issubclass (ob_class forcefield) _), (issubclass (ob_class ensemble) _);
      simpl; split; try (intros [msg [=]]); try (intros [[=]|[=]]); eauto.
  - unfold __init__. destruct (_ || _); [intros e [= <-]; eauto|].
    destruct (_ || _); [intros e [= <-]; eauto|]. done.
  - apply init_Ok.
Qed.

(** C10 (a repeated run). On any driver, whatever ran on it before: when no
    dimension is negative and the two calls that prepare the force field
    return, the preparation of [run] returns, and it hands over to the
    integration with the step counter at 0 and with six buffers that are
    arrays of zeros with [num_steps + 1] slots, none of which existed before
    this run; these are the buffers the driver has when the run ends. Every
    array that existed before the run has the contents it had, the buffers
    of an earlier run among them, and every store of the run went into an
    array that did not exist before it. *)
Theorem rerun_uses_new_buffers num_steps dt (pbc : bool) st ff1 ff2 r st' :
  let ens := ob_value (_ensemble st.1) in
  (0 ≤ num_steps + 1)%Z →
  (0 ≤ ensemble_generator.number_molecules_total ens)%Z →
  (0 ≤ ensemble_generator.number_atoms_total ens)%Z →
  mdforce.initialize_forcefield (ob_value (_forcefield st.1))
    (np.shape (ensemble_generator.positions ens))
    (if pbc then Some (ensemble_generator.box_lengths ens) else None) = (Ok tt, ff1) →
  mdforce.fit_units_to_input_data ff1 (ensemble_generator.unit_positions ens)
    (ensemble_generator.unit_time ens) = (Ok tt, ff2) →
  run num_steps dt pbc st = (r, st') →
  ∃ s1,
    run_prepare num_steps pbc st = (Ok tt, s1)
    ∧ run_integrate num_steps dt s1 = (r, st')
    ∧ _curr_step s1.1 = Some 0%Z
    ∧ buffers st'.1 = buffers s1.1
    ∧ (∀ ch, ∃ l a,
         target ch (buffers s1.1) = Some l
         ∧ heap st.2 !! l = None
         ∧ heap s1.2 !! l = Some a
         ∧ Z.of_nat <$> np.shape a = buffer_shape num_steps ens ch
         ∧ np.data a = replicate (np.size_of (np.shape a)) 0%float)
    ∧ (∀ ch ch', target ch (buffers s1.1) = target ch' (buffers s1.1) → ch = ch')
    ∧ (∀ l a, heap st.2 !! l = Some a → heap st'.2 !! l = Some a)
    ∧ (∃ evs, trace st'.2 = trace st.2 ++ evs
              ∧ Forall (λ e, ∀ l k, e = Store l k → heap st.2 !! l = None) evs).
Proof.
  intros ens Hn Hm Ha Hinit Hfit Hrun.
  destruct (run_prepare_returns num_steps pbc st ff1 ff2 Hn Hm Ha Hinit Hfit) as [s1 Hprep].
  destruct (run_old_arrays _ _ _ _ _ _ Hrun) as [Hold Htrace].
  destruct (run_prepare_Ok _ _ _ _ Hprep) as (Hc & [Hr Hd] & Hshape & Hfresh).
  apply run_cases in Hrun as [(e & Hprep' & _)|(s1' & Hprep' & Hint)]; [congruence|].
  assert (s1' = s1) as -> by congruence.
  pose proof (run_integrate_frame _ _ _ _ _ Hint) as (Hb & _).
  exists s1. split_and!; try done.
  intros ch. destruct (Hr ch (elem_of_channels _)) as (l & a & Ht & Hl & _ & Hs).
  destruct (Hfresh ch l Ht) as (Hnew & a' & Hl' & Hzero).
  assert (a' = a) as -> by congruence.
  exists l, a. split_and!; try done. exact (Hshape ch l a Ht Hl).
Qed.

End driver_claims.

Section analyzer_claims.
Context {U : Type} {duq : UnitSystem U} {helpers : Helpers U}.
Context {elements_data : ElementsData} {numpy_sum : np.AddReduce}.

Import TrajectoryAnalyzer.

Local Abbreviation Self := (TrajectoryAnalyzer.t U * World)%type.
Implicit Types (st : Self) (w : World).

(** The arrays of the heap stay where they are under a read of the
    temperature: a location it returns as new was free before. *)
Lemma ta_rel_temperature_heap st v st' :
  temperature st = (Ok v, st') →
  _temperature (cache st.1) = None → ∀ l, v = Some l → heap st.2 !! l = None.
Proof.
  intros Hrun Hnone l ->. unfold temperature in Hrun.
  apply bind_Ok in Hrun as (c & s1 & [-> ->]%attr_Ok & Hrun).
  apply bind_Ok in Hrun as ([] & s2 & Hcase & [-> Hl]%attr_Ok).
  rewrite Hnone in Hcase. unfold _calculate_temperature in Hcase.
  apply bind_Ok in Hcase as (ue & s1 & Hue & Hcase).
  apply bind_Ok in Hcase as (ut & s3 & [-> ->]%attr_Ok & Hcase).
  apply bind_Ok in Hcase as (ub & s3 & Hdiv & Hcase).
  apply bind_Ok in Hcase as (kB & s4 & HkB & Hcase).
  apply bind_Ok in Hcase as (ke & s5 & Hke & Hcase).
  apply bind_Ok in Hcase as (a & s6 & Hload & Hcase).
  apply bind_Ok in Hcase as (m & s7 & [= _ <-] & Hcase).
  apply bind_Ok in Hcase as (r & s8 & Hnew & Hset).
  apply new_array_Ok in Hnew as (l' & arr & -> & _ & Hfresh & ->).
  apply set_cache_Ok in Hset as ->. simpl in Hl. injection Hl as ->.
  destruct (heap st.2 !! l') as [x|] eqn:Hx; [|done].
  assert (grows st.2 s6.2) as [Hg _].
  { etrans; [eapply (ta_rel_unit_energy false false), Hue|].
    etrans; [eapply (ta_rel_on_world_units false false), Hdiv; auto with respects|].
    etrans; [eapply (ta_rel_on_world_units false false), HkB; auto with respects|].
    etrans; [eapply (ta_rel_energy_kinetic_per_atom false false), Hke|].
    eapply (ta_rel_on_world false false), Hload. apply respects_load_operand; apply _. }
  apply Hg in Hx. congruence.
Qed.



End analyzer_claims.

Section unit_claims.
Context {U : Type} {duq : UnitSystem U} {helpers : Helpers U}.
Context {elements_data : ElementsData} {numpy_sum : np.AddReduce}.

Import TrajectoryAnalyzer.

Local Abbreviation Self := (TrajectoryAnalyzer.t U * World)%type.
Implicit Types (st : Self) (w : World).

Lemma unit_pow_Ok a n w u w' :
  unit_pow a n w = (Ok u, w') → duq_pow a n = Ok u.
Proof. unfold unit_pow, bind, emit, lift_result. by intros [= -> _]. Qed.

(** An absent velocity unit is derived as length / time and assigned. *)
Lemma unit_velocity_derives st v st' :
  _unit_velocity (units st.1) = PNone → unit_velocity st = (Ok v, st') →
  ∃ l s1 tm s2 u,
    unit_length st = (Ok l, s1) ∧ unit_time s1 = (Ok tm, s2)
    ∧ duq_truediv l tm = Ok u
    ∧ v = PUnit u ∧ _unit_velocity (units st'.1) = PUnit u.
Proof.
  intros Hnone. unfold unit_velocity. intros Hrun.
  apply bind_Ok in Hrun as (v0 & s0 & [-> ->]%attr_Ok & Hrun).
  apply bind_Ok in Hrun as ([] & s3 & Hcase & [-> ->]%attr_Ok).
  rewrite Hnone in Hcase.
  apply bind_Ok in Hcase as (l & s1 & Hl & Hcase).
  apply bind_Ok in Hcase as (tm & s2 & Htm & Hcase).
  apply bind_Ok in Hcase as (u & s2' & [_ Hdiv%unit_truediv_Ok]%on_world_Ok & ->%set_units_Ok).
  exists l, s1, tm, s2, u. split_and!; done.
Qed.

(** An absent momentum unit is derived as mass * velocity and assigned. *)
Lemma unit_momentum_derives st v st' :
  _unit_momentum (units st.1) = PNone → unit_momentum st = (Ok v, st') →
  ∃ m s1 vel s2 u,
    unit_mass st = (Ok m, s1) ∧ unit_velocity s1 = (Ok vel, s2)
    ∧ duq_mul m vel = Ok u
    ∧ v = PUnit u ∧ _unit_momentum (units st'.1) = PUnit u.
Proof.
  intros Hnone. unfold unit_momentum. intros Hrun.
  apply bind_Ok in Hrun as (v0 & s0 & [-> ->]%attr_Ok & Hrun).
  apply bind_Ok in Hrun as ([] & s3 & Hcase & [-> ->]%attr_Ok).
  rewrite Hnone in Hcase.
  apply bind_Ok in Hcase as (m & s1 & Hm & Hcase).
  apply bind_Ok in Hcase as (vel & s2 & Hvel & Hcase).
  apply bind_Ok in Hcase as (u & s2' & [_ Hmul%unit_mul_Ok]%on_world_Ok & ->%set_units_Ok).
  exists m, s1, vel, s2, u. split_and!; done.
Qed.

(** An absent energy unit is derived as mass * length ** 2 / time ** 2 and
    assigned. *)
Lemma unit_energy_derives st v st' :
  _unit_energy (units st.1) = PNone → unit_energy st = (Ok v, st') →
  ∃ m s1 l s2 s3 tm s4 l2 ml2 t2 u,
    unit_mass st = (Ok m, s1) ∧ unit_length s1 = (Ok l, s2)
    ∧ s3.1 = s2.1 ∧ unit_time s3 = (Ok tm, s4)
    ∧ duq_pow l 2 = Ok l2 ∧ duq_mul m (PUnit l2) = Ok ml2
    ∧ duq_pow tm 2 = Ok t2 ∧ duq_truediv (PUnit ml2) (PUnit t2) = Ok u
    ∧ v = PUnit u ∧ _unit_energy (units st'.1) = PUnit u.
Proof.
  intros Hnone. unfold unit_energy. intros Hrun.
  apply bind_Ok in Hrun as (v0 & s0 & [-> ->]%attr_Ok & Hrun).
  apply bind_Ok in Hrun as ([] & s9 & Hcase & [-> ->]%attr_Ok).
  rewrite Hnone in Hcase.
  apply bind_Ok in Hcase as (m & s1 & Hm & Hcase).
  apply bind_Ok in Hcase as (l & s2 & Hl & Hcase).
  apply bind_Ok in Hcase as (l2 & s2a & [Hs2a Hl2%unit_pow_Ok]%on_world_Ok & Hcase).
  apply bind_Ok in Hcase as (ml2 & s3 & [Hs3 Hml2%unit_mul_Ok]%on_world_Ok & Hcase).
  apply bind_Ok in Hcase as (tm & s4 & Htm & Hcase).
  apply bind_Ok in Hcase as (t2 & s5 & [_ Ht2%unit_pow_Ok]%on_world_Ok & Hcase).
  apply bind_Ok in Hcase as (u & s6 & [_ Hdiv%unit_truediv_Ok]%on_world_Ok & ->%set_units_Ok).
  exists m, s1, l, s2, s3, tm, s4, l2, ml2, t2, u. split_and!; try done. congruence.
Qed.

Lemma derived_unit_present p st :
  derived_unit p → unit_field p (units st.1) ≠ PNone →
  read_unit p st = (Ok (unit_field p (units st.1)), st).
Proof.
  intros [Hp|[Hp|Hp]] Hne; subst p; simpl.
  - by apply unit_velocity_present.
  - by apply unit_momentum_present.
  - by apply unit_energy_present.
Qed.

Lemma derived_unit_returns p st v st' :
  derived_unit p → read_unit p st = (Ok v, st') →
  unit_field p (units st'.1) = v ∧ v ≠ PNone.
Proof.
  intros [Hp|[Hp|Hp]]; subst p; simpl.
  - apply velocity_returns.
  - apply momentum_returns.
  - apply unit_energy_returns.
Qed.


End unit_claims.

(** ** The statements on concrete inputs *)

Module Concrete.
Import Stub.

Lemma prepared_allocated :
  MDSimulation.buffers_allocated prepared.1 prepared.2 3 1 2.
Proof.
  split.
  - intros ch _. destruct ch; eexists _, _; split_and!; vm_compute; reflexivity.
  - intros ch ch'. destruct ch, ch'; vm_compute; congruence.
Defined.

Lemma three_evaluations_conformant :
  Forall (MDSimulation.conformant 1 2) three_evaluations.
Proof.
  repeat apply Forall_cons_2; [..|apply Forall_nil_2];
    intros ch; destruct ch; split; vm_compute; reflexivity.
Defined.

(** Three invocations on the buffers prepared for [run(2, ...)]. *)
Lemma step_alignment_witness :
  ∃ self' w',
    MDSimulation.force_calls three_positions (prepared.1, prepared.2)
    = (Ok (mdforce.acceleration <$> three_evaluations), (self', w'))
    ∧ MDSimulation._curr_step self' = Some (Z.of_nat (length three_positions))
    ∧ MDSimulation.buffers self' = MDSimulation.buffers prepared.1
    ∧ trace w' = trace prepared.2
        ++ flat_map (MDSimulation.stores (MDSimulation.buffers prepared.1))
             (seq 0 (length three_positions))
    ∧ (∃ ls, NoDup ls ∧ length ls = 6%nat
             ∧ ∀ i, MDSimulation.stores (MDSimulation.buffers prepared.1) i
                    = (λ l, Store l (Some i)) <$> ls)
    ∧ (∀ ch l a, MDSimulation.target ch (MDSimulation.buffers prepared.1) = Some l →
         heap prepared.2 !! l = Some a →
         ∃ a', heap w' !! l = Some a'
           ∧ np.shape a' = np.shape a
           ∧ (∀ i ff, three_evaluations !! i = Some ff →
                np.slot a' i = np.data (MDSimulation.source ch ff))
           ∧ (∀ j, (length three_positions ≤ j)%nat → np.slot a' j = np.slot a j)).
Proof.
  apply (step_alignment prepared.1 prepared.2 3 1 2 three_positions three_evaluations).
  - exact prepared_allocated.
  - vm_compute. reflexivity.
  - vm_compute. lia.
  - vm_compute. reflexivity.
  - exact three_evaluations_conformant.
Defined.

(** A fourth invocation on the three slots. *)
Lemma step_overflow_witness :
  ∃ self1 w1 e self2,
    MDSimulation.force_calls three_positions (prepared.1, prepared.2)
    = (Ok (mdforce.acceleration <$> three_evaluations), (self1, w1))
    ∧ MDSimulation._force (ens_positions two_atoms) (self1, w1) = (Raise e, (self2, w1))
    ∧ MDSimulation.force_calls (three_positions ++ [ens_positions two_atoms])
        (prepared.1, prepared.2) = (Raise e, (self2, w1))
    ∧ MDSimulation._curr_step self2 = Some (Z.of_nat 3)
    ∧ MDSimulation.buffers self2 = MDSimulation.buffers prepared.1
    ∧ (∀ ff', mdforce.__call__ (ob_value (MDSimulation._forcefield self1))
                (ens_positions two_atoms) = (Ok tt, ff') →
         ∃ msg, e = IndexError msg).
Proof.
  apply (step_overflow prepared.1 prepared.2 3 1 2 three_positions three_evaluations).
  - exact prepared_allocated.
  - vm_compute. reflexivity.
  - vm_compute. reflexivity.
  - vm_compute. reflexivity.
  - exact three_evaluations_conformant.
Defined.

(** The same through [run]: an integrator that calls the force function
    once more than the contract allows makes [run(2, 1.0)] raise the
    [IndexError], and no trajectory is there. *)
Lemma run_with_extra_call_raises :
  (MDSimulation.run (numintegrator := integrator 1) 2 1 false
     (new_driver a_force_field, empty_world)).1
  = Raise (IndexError "index is out of bounds for axis 0").
Proof. vm_compute. reflexivity. Qed.

Lemma integrator_yields_frames :
  MDSimulation.yields_frames 3
    (integrator 0 (ens_positions two_atoms) (ens_velocities two_atoms) 1%float 2%Z).
Proof.
  unfold integrator. simpl. repeat (apply MDSimulation.yields_call; intros ?).
  apply MDSimulation.yields_return. reflexivity.
Defined.

(** The integration of [run(2, 1.0)] on the two atoms returns its series. *)
Lemma integration_returns :
  MDSimulation.integrate_with_force
    (integrator 0 (ens_positions two_atoms) (ens_velocities two_atoms) 1%float 2%Z) prepared
  = (Ok (series.1.1, series.1.2, series.2), integrated.2).
Proof. vm_compute. reflexivity. Defined.

(** [run(2, 1.0)] on the two atoms: three slots in each buffer, three
    frames. *)
Lemma buffer_sizing_witness :
  (0 ≤ 2 + 1)%Z
  ∧ (∀ ch, ∃ l a,
       MDSimulation.target ch (MDSimulation.buffers after_run.1) = Some l
       ∧ heap after_run.2 !! l = Some a
       ∧ Z.of_nat <$> np.shape a = MDSimulation.buffer_shape 2 two_atoms ch)
  ∧ MDSimulation._positions after_run.1 = Some series.1.1
  ∧ MDSimulation._velocities after_run.1 = Some series.1.2
  ∧ MDSimulation._timestamps after_run.1 = Some series.2
  ∧ head (np.shape series.1.1) = Some 3%nat.
Proof.
  assert (MDSimulation.run_prepare 2 false (new_driver a_force_field, empty_world)
          = (Ok tt, prepared)) as Hprep by (vm_compute; reflexivity).
  assert (MDSimulation.run (numintegrator := integrator 0) 2 1 false
            (new_driver a_force_field, empty_world)
          = (Raise (AttributeError "'TrajectoryAnalyzer' object has no attribute 'atomic_numbers'"),
             after_run)) as Hrun by (vm_compute; reflexivity).
  destruct (buffer_sizing (numintegrator := integrator 0) 2 1 false
              (new_driver a_force_field, empty_world) prepared _ after_run Hprep Hrun)
    as (Hsteps & Hbuffers & Hseries).
  destruct (Hseries series.1.1 series.1.2 series.2 integrated.2 integration_returns)
    as (Hp & Hv & Hts & Hframes).
  split_and!; [exact Hsteps|exact Hbuffers|exact Hp|exact Hv|exact Hts|].
  apply Hframes, integrator_yields_frames.
Defined.


Lemma run_failure_atomic_witness :
  MDSimulation._trajectory failed_run.2.1 = None
  ∧ MDSimulation.trajectory failed_run.2.1
    = MDSimulation.trajectory (new_driver failing_force_field)
  ∧ (MDSimulation._trajectory (new_driver failing_force_field) = None →
       MDSimulation.trajectory failed_run.2.1
       = Raise (ValueError "The simulation has not yet been run."))
  ∧ (∀ l a, heap empty_world !! l = Some a → heap failed_run.2.2 !! l = Some a).
Proof.
  refine (run_failure_atomic (numintegrator := integrator 0) 2 1 false
            (new_driver failing_force_field, empty_world)
            (CollaboratorError "__call__") failed_run.2 _).
  vm_compute. reflexivity.
Defined.

(** [run(1, 1.0)] on the driver that ran [run(2, 1.0)]. *)
Lemma rerun_uses_new_buffers_witness :
  ∃ s1,
    MDSimulation.run_prepare 1 false after_run = (Ok tt, s1)
    ∧ MDSimulation.run_integrate (numintegrator := integrator 0) 1 1 s1
      = (second_run.1, second_run.2)
    ∧ MDSimulation._curr_step s1.1 = Some 0%Z
    ∧ MDSimulation.buffers second_run.2.1 = MDSimulation.buffers s1.1
    ∧ (∀ ch, ∃ l a,
         MDSimulation.target ch (MDSimulation.buffers s1.1) = Some l
         ∧ heap after_run.2 !! l = None
         ∧ heap s1.2 !! l = Some a
         ∧ Z.of_nat <$> np.shape a = MDSimulation.buffer_shape 1 two_atoms ch
         ∧ np.data a = replicate (np.size_of (np.shape a)) 0%float)
    ∧ (∀ ch ch', MDSimulation.target ch (MDSimulation.buffers s1.1)
                 = MDSimulation.target ch' (MDSimulation.buffers s1.1) → ch = ch')
    ∧ (∀ l a, heap after_run.2 !! l = Some a → heap second_run.2.2 !! l = Some a)
    ∧ (∃ evs, trace second_run.2.2 = trace after_run.2 ++ evs
              ∧ Forall (λ e, ∀ l k, e = Store l k → heap after_run.2 !! l = None) evs).
Proof.
  refine (rerun_uses_new_buffers (numintegrator := integrator 0) 1 1 false after_run
            (ob_value (MDSimulation._forcefield after_run.1))
            (ob_value (MDSimulation._forcefield after_run.1))
            second_run.1 second_run.2 _ _ _ _ _ _).
  - lia.
  - vm_compute. discriminate.
  - vm_compute. discriminate.
  - vm_compute. reflexivity.
  - vm_compute. reflexivity.
  - vm_compute. reflexivity.
Defined.

(** The buffers of the first run after the second run, read on the concrete
    heap: the first Coulomb series is as the first run filled it, and the
    second run filled arrays of its own. *)
Lemma first_buffers_after_second_run :
  MDSimulation._energy_potential_coulomb (MDSimulation.buffers after_run.1)
  = Some 1%positive
  ∧ heap second_run.2.2 !! 1%positive
    = Some {| np.shape := [3%nat]; np.data := [1; 2; 3]%float |}
  ∧ MDSimulation._energy_potential_coulomb (MDSimulation.buffers second_run.2.1)
    = Some 7%positive
  ∧ heap second_run.2.2 !! 7%positive
    = Some {| np.shape := [2%nat]; np.data := [4; 5]%float |}.
Proof. vm_compute. done. Qed.

(** The constructor on the stub collaborators. *)
Lemma construction_checks_classes_witness :
  MDSimulation._forcefield (new_driver a_force_field) = forcefield_object a_force_field
  ∧ MDSimulation._ensemble (new_driver a_force_field) = ensemble_object two_atoms
  ∧ MDSimulation._trajectory (new_driver a_force_field) = None
  ∧ MDSimulation._curr_step (new_driver a_force_field) = None.
Proof.
  refine (proj2 (proj2 (construction_checks_classes (U := unit_expr)
            (forcefield_object a_force_field) (ensemble_object two_atoms))) _ _).
  vm_compute. reflexivity.
Defined.

(** C9, the claim as stated fails: an object that has every operation of
    the force-field contract, of a class that does not derive from
    ForceField, is refused with the ValueError of the constructor, although
    both arguments satisfy their capability contracts. *)
Lemma capability_is_not_what_is_checked :
  MDSimulation.satisfies_forcefield_contract (duck_object a_force_field) = true
  ∧ MDSimulation.satisfies_ensemble_contract (ensemble_object two_atoms) = true
  ∧ isinstance (duck_object a_force_field) mdforce.class_name = false
  ∧ MDSimulation.__init__ (U := unit_expr) (duck_object a_force_field)
      (ensemble_object two_atoms)
    = Raise (ValueError "Argument `forcefield` should either be an instance or a subclass of `mdforce.models.forcefield_superclass.ForceField`.").
Proof. vm_compute. done. Qed.

(** The constructor reads the class of its arguments and nothing else: an
    object of a class that derives from ForceField is accepted whatever its
    attributes are. *)
Lemma construction_ignores_attributes :
  MDSimulation.satisfies_forcefield_contract
      {| ob_class := forcefield_class; ob_attrs := []; ob_value := a_force_field |} = false
  ∧ MDSimulation.__init__ (U := unit_expr)
      {| ob_class := forcefield_class; ob_attrs := []; ob_value := a_force_field |}
      (ensemble_object two_atoms)
    = Ok {| MDSimulation._forcefield :=
              {| ob_class := forcefield_class; ob_attrs := []; ob_value := a_force_field |};
            MDSimulation._ensemble := ensemble_object two_atoms;
            MDSimulation._trajectory := None;
            MDSimulation._positions := None;
            MDSimulation._velocities := None;
            MDSimulation._timestamps := None;
            MDSimulation.buffers := MDSimulation.buffers (new_driver a_force_field);
            MDSimulation._curr_step := None |}.
Proof. vm_compute. done. Qed.


(** The temperatures of the two frames, read on the concrete heap: the
    kinetic energies per atom are 12.5 and 32 in the first frame, the
    Boltzmann constant of the stub is 2, and (12.5 + 32) / 2 / (1.5 * 2) is
    the first temperature. *)
Lemma temperature_values :
  heap temperature_read.2.2 !! 3%positive
  = Some {| np.shape := [2; 2]%nat; np.data := [12.5; 32; 0.5; 800]%float |}
  ∧ heap temperature_read.2.2 !! 4%positive
    = Some {| np.shape := [2%nat];
              np.data := [((12.5 + 32) / 2 / (3 / 2 * 2))%float;
                          ((0.5 + 800) / 2 / (3 / 2 * 2))%float] |}.
Proof. vm_compute. done. Qed.




(** The constructor of the analyzer on the two frames. *)
Lemma constructed_raises :
  constructed
  = (Raise (AttributeError "'TrajectoryAnalyzer' object has no attribute 'atomic_numbers'"),
     empty_world).
Proof. vm_compute. reflexivity. Qed.

End Concrete.

(** ** The reads of an analyzer, step by step *)

Section read_steps.
Context {U : Type} {duq : UnitSystem U} {helpers : Helpers U}.
Context {elements_data : ElementsData} {numpy_sum : np.AddReduce}.

Import TrajectoryAnalyzer Derived.

Local Abbreviation Self := (TrajectoryAnalyzer.t U * World)%type.
Implicit Types (st : Self) (w : World) (h : gmap positive np.ndarray).
Local Abbreviation unit_read_frame := (Derived.unit_read_frame (U := U)).

(** *** The steps of a method, outcome by outcome *)

(** A unit property does not touch the data, the cache or the heap. *)
Global Instance unit_read_frame_refl : Reflexive unit_read_frame.
Proof. intros st. unfold unit_read_frame. split_and!; try done. Qed.

Global Instance unit_read_frame_trans : Transitive unit_read_frame.
Proof.
  intros s1 s2 s3 (Hd1 & Hc1 & Hu1) (Hd2 & Hc2 & Hu2). unfold unit_read_frame.
  split_and!; try congruence. by etrans.
Qed.

Lemma unit_read_frame_attr {A} (f : TrajectoryAnalyzer.t U → A) :
  respects unit_read_frame (attr f).
Proof. intros st r st' [= _ <-]. reflexivity. Qed.

Lemma unit_read_frame_on_world {A} (m : M World A) :
  respects units_only m → respects unit_read_frame (on_world m).
Proof.
  intros Hm [s w] r [s' w']. unfold on_world. simpl.
  destruct (m w) as [r0 w0] eqn:Hmw. intros [= _ <- <-].
  unfold unit_read_frame. simpl. split_and!; try done. eapply Hm, Hmw.
Qed.

Lemma unit_read_frame_set_units f : respects unit_read_frame (set_units f).
Proof. intros [s w] r [s' w'] [= _ <- <-]. unfold unit_read_frame. simpl. done. Qed.

End read_steps.

Ltac unit_read_step :=
  lazymatch goal with
  | |- respects _ (bind _ _) => apply respects_bind; [apply _ | | intros ?]
  | |- respects _ (ret _) => apply respects_ret; apply _
  | |- respects _ (TrajectoryAnalyzer.attr _) => apply unit_read_frame_attr
  | |- respects _ (on_world _) => apply unit_read_frame_on_world; solve [auto with respects]
  | |- respects _ (TrajectoryAnalyzer.set_units _) => apply unit_read_frame_set_units
  | |- respects _ (match ?x with _ => _ end) => destruct x
  | |- _ => solve [auto with respects]
  end.

Ltac unit_read_tac := repeat unit_read_step.

Section unit_reads.
Context {U : Type} {duq : UnitSystem U} {helpers : Helpers U}.
Context {elements_data : ElementsData} {numpy_sum : np.AddReduce}.

Import TrajectoryAnalyzer Derived.

Local Abbreviation Self := (TrajectoryAnalyzer.t U * World)%type.
Implicit Types (st : Self) (w : World) (h : gmap positive np.ndarray).
Local Abbreviation unit_read_frame := (Derived.unit_read_frame (U := U)).

Lemma unit_read_frame_unit_mass : respects unit_read_frame unit_mass.
Proof. unfold unit_mass. unit_read_tac. Qed.

Lemma unit_read_frame_unit_length : respects unit_read_frame unit_length.
Proof. unfold unit_length. unit_read_tac. Qed.

Lemma unit_read_frame_unit_time : respects unit_read_frame unit_time.
Proof. unfold unit_time. unit_read_tac. Qed.

Hint Resolve unit_read_frame_unit_mass unit_read_frame_unit_length
  unit_read_frame_unit_time : respects.

Lemma unit_read_frame_unit_velocity : respects unit_read_frame unit_velocity.
Proof. unfold unit_velocity. unit_read_tac. Qed.

Hint Resolve unit_read_frame_unit_velocity : respects.

Lemma unit_read_frame_unit_momentum : respects unit_read_frame unit_momentum.
Proof. unfold unit_momentum. unit_read_tac. Qed.

Lemma unit_read_frame_unit_energy : respects unit_read_frame unit_energy.
Proof. unfold unit_energy. unit_read_tac. Qed.

Lemma unit_read_frame_unit_temperature : respects unit_read_frame unit_temperature.
Proof. unfold unit_temperature. unit_read_tac. Qed.

Lemma unit_read_frame_read_unit p : respects unit_read_frame (read_unit p).
Proof.
  destruct p; simpl;
    auto using unit_read_frame_unit_mass, unit_read_frame_unit_length,
      unit_read_frame_unit_time, unit_read_frame_unit_velocity,
      unit_read_frame_unit_momentum, unit_read_frame_unit_energy,
      unit_read_frame_unit_temperature.
Qed.

End unit_reads.

(** ** What a read keeps of the cache *)

Section cache_relations.
Context {U : Type} {duq : UnitSystem U} {helpers : Helpers U}.
Context {elements_data : ElementsData} {numpy_sum : np.AddReduce}.

Import TrajectoryAnalyzer Derived.

Local Abbreviation Self := (TrajectoryAnalyzer.t U * World)%type.
Implicit Types (st : Self) (w : World) (sel : quantity → Prop).
Local Abbreviation cache_kept := (Derived.cache_kept (U := U)).
Local Abbreviation cache_same := (Derived.cache_same (U := U)).

Global Instance cache_kept_refl sel : Reflexive (cache_kept sel).
Proof. intros st. unfold Derived.cache_kept. split_and!; try done. Qed.

Global Instance cache_kept_trans sel : Transitive (cache_kept sel).
Proof.
  intros s1 s2 s3 (Hd1 & Hg1 & Hk1) (Hd2 & Hg2 & Hk2). unfold Derived.cache_kept.
  split_and!; [congruence|by etrans|]. intros q l Hq Hl. by apply Hk2, Hk1.
Qed.

Lemma cache_kept_attr {A} sel (f : TrajectoryAnalyzer.t U → A) :
  respects (cache_kept sel) (attr f).
Proof. intros st r st' [= _ <-]. reflexivity. Qed.

Lemma cache_kept_on_world {A} sel (m : M World A) :
  respects grows m → respects (cache_kept sel) (on_world m).
Proof.
  intros Hm [s w] r [s' w']. unfold on_world. simpl.
  destruct (m w) as [r0 w0] eqn:Hmw. intros [= _ <- <-].
  unfold Derived.cache_kept. simpl. split_and!; try done. eapply Hm, Hmw.
Qed.

Lemma cache_kept_on_world_units {A} sel (m : M World A) :
  respects units_only m → respects (cache_kept sel) (on_world m).
Proof.
  intros Hm. apply cache_kept_on_world. eapply respects_weaken, Hm. apply units_only_grows.
Qed.

Lemma cache_kept_set_units sel f : respects (cache_kept sel) (set_units f).
Proof. intros [s w] r [s' w'] [= _ <- <-]. unfold Derived.cache_kept. simpl. done. Qed.

Lemma cache_kept_set_cache sel f :
  (∀ q, sel q → ∀ c, cache_field q (f c) = cache_field q c) →
  respects (cache_kept sel) (set_cache f).
Proof.
  intros Hf [s w] r [s' w'] [= _ <- <-]. unfold Derived.cache_kept. simpl.
  split_and!; try done. intros q l Hq. by rewrite Hf.
Qed.

Lemma cache_kept_unit_read st st' sel :
  unit_read_frame st st' → cache_kept sel st st'.
Proof.
  intros (Hd & Hc & Hu). split_and!; [done|by apply units_only_grows|]. by rewrite Hc.
Qed.

(** A property computes only where its attribute is [None]: what the
    computation keeps of the other attributes, the property keeps of all. *)
Lemma cache_kept_lazy q calc :
  respects (cache_kept (λ q', q' ≠ q)) calc →
  ∀ sel, respects (cache_kept sel) (lazy (cache_field q) calc).
Proof.
  intros Hcalc sel st r st'. unfold lazy, bind, attr, ret. cbv beta iota.
  destruct (cache_field q (cache st.1)) as [l|] eqn:Hf; cbv beta iota.
  - intros [= _ <-]. reflexivity.
  - intros Hrun.
    assert (cache_kept (λ q', q' ≠ q) st st') as (Hd & Hg & Hk).
    { destruct (calc st) as [[[]|err] s1] eqn:Hc; injection Hrun as _ <-; eapply Hcalc, Hc. }
    split_and!; try done. intros q' l _ Hl. apply Hk; [|done]. intros ->. congruence.
Qed.

Global Instance cache_same_refl sel : Reflexive (cache_same sel).
Proof. by intros st q. Qed.

Global Instance cache_same_trans sel : Transitive (cache_same sel).
Proof. intros s1 s2 s3 H1 H2 q Hq. by rewrite H2, H1. Qed.

Lemma cache_same_attr {A} sel (f : TrajectoryAnalyzer.t U → A) :
  respects (cache_same sel) (attr f).
Proof. intros st r st' [= _ <-]. reflexivity. Qed.

Lemma cache_same_on_world {A} sel (m : M World A) : respects (cache_same sel) (on_world m).
Proof.
  intros [s w] r [s' w']. unfold on_world. simpl.
  destruct (m w) as [r0 w0] eqn:Hmw. by intros [= _ <- <-].
Qed.

Lemma cache_same_set_units sel f : respects (cache_same sel) (set_units f).
Proof. by intros [s w] r [s' w'] [= _ <- <-]. Qed.

Lemma cache_same_set_cache sel f :
  (∀ q, ¬ sel q → ∀ c, cache_field q (f c) = cache_field q c) →
  respects (cache_same sel) (set_cache f).
Proof. intros Hf [s w] r [s' w'] [= _ <- <-] q Hq. simpl. by apply Hf. Qed.

Lemma cache_same_unit_read st st' sel : unit_read_frame st st' → cache_same sel st st'.
Proof. intros (Hd & Hc & Hu) q _. by rewrite Hc. Qed.

End cache_relations.

Ltac cache_step :=
  lazymatch goal with
  | |- respects _ (bind _ _) => apply respects_bind; [apply _ | | intros ?]
  | |- respects _ (ret _) => apply respects_ret; apply _
  | |- respects _ (raise _) => apply respects_raise; apply _
  | |- respects _ (lift_result _) => apply respects_lift_result; apply _
  | |- respects (Derived.cache_kept _) (TrajectoryAnalyzer.attr _) => apply cache_kept_attr
  | |- respects (Derived.cache_same _) (TrajectoryAnalyzer.attr _) => apply cache_same_attr
  | |- respects (Derived.cache_kept _) (on_world (alloc _)) =>
      apply cache_kept_on_world, respects_alloc
  | |- respects (Derived.cache_kept _) (on_world (load_operand _)) =>
      apply cache_kept_on_world, respects_load_operand; apply _
  | |- respects (Derived.cache_kept _) (on_world _) =>
      apply cache_kept_on_world_units; solve [auto with respects]
  | |- respects (Derived.cache_same _) (on_world _) => apply cache_same_on_world
  | |- respects (Derived.cache_kept _) (TrajectoryAnalyzer.set_units _) =>
      apply cache_kept_set_units
  | |- respects (Derived.cache_same _) (TrajectoryAnalyzer.set_units _) =>
      apply cache_same_set_units
  | |- respects (Derived.cache_kept _) (TrajectoryAnalyzer.set_cache _) =>
      apply cache_kept_set_cache;
      let q := fresh "q" in let Hq := fresh "Hq" in
      intros q Hq ?; destruct q; try done; by destruct Hq
  | |- respects (Derived.cache_same _) (TrajectoryAnalyzer.set_cache _) =>
      apply cache_same_set_cache;
      let q := fresh "q" in let Hq := fresh "Hq" in
      intros q Hq ?; destruct q; try done; by destruct Hq
  | |- respects _ (match ?x with _ => _ end) => destruct x
  | |- _ => solve [auto with respects]
  end.

Ltac cache_tac := repeat cache_step.

Section cache_reads.
Context {U : Type} {duq : UnitSystem U} {helpers : Helpers U}.
Context {elements_data : ElementsData} {numpy_sum : np.AddReduce}.

Import TrajectoryAnalyzer Derived.

Local Abbreviation Self := (TrajectoryAnalyzer.t U * World)%type.
Implicit Types (st : Self) (w : World) (sel : quantity → Prop).
Local Abbreviation cache_kept := (Derived.cache_kept (U := U)).
Local Abbreviation cache_same := (Derived.cache_same (U := U)).

Lemma cache_kept_read_unit p sel : respects (cache_kept sel) (read_unit p).
Proof.
  intros st r st' Hrun. eapply cache_kept_unit_read, unit_read_frame_read_unit, Hrun.
Qed.

Lemma cache_kept_unit_energy sel : respects (cache_kept sel) unit_energy.
Proof. apply (cache_kept_read_unit UnitEnergy). Qed.

Lemma cache_kept_unit_temperature sel : respects (cache_kept sel) unit_temperature.
Proof. apply (cache_kept_read_unit UnitTemperature). Qed.

Lemma new_array_kept sel r : respects (cache_kept sel) (new_array r).
Proof. unfold new_array. cache_tac. Qed.

Hint Resolve cache_kept_unit_energy cache_kept_unit_temperature new_array_kept : respects.

Lemma cache_kept_speeds sel : respects (cache_kept sel) speeds.
Proof.
  apply (cache_kept_lazy Speeds _calculate_speeds).
  unfold _calculate_speeds, velocities. cache_tac.
Qed.

Hint Resolve cache_kept_speeds : respects.

Lemma cache_kept_momenta sel : respects (cache_kept sel) momenta.
Proof.
  apply (cache_kept_lazy Momenta _calculate_momenta).
  unfold _calculate_momenta, masses. cache_tac.
Qed.

Hint Resolve cache_kept_momenta : respects.

Lemma cache_kept_energy_kinetic_per_atom sel :
  respects (cache_kept sel) energy_kinetic_per_atom.
Proof.
  apply (cache_kept_lazy EnergyKineticPerAtom _calculate_energy_kinetic_per_atom).
  unfold _calculate_energy_kinetic_per_atom. cache_tac.
Qed.

Hint Resolve cache_kept_energy_kinetic_per_atom : respects.

Lemma cache_kept_energy_kinetic_total sel :
  respects (cache_kept sel) energy_kinetic_total.
Proof.
  apply (cache_kept_lazy EnergyKineticTotal _calculate_energy_kinetic_total).
  unfold _calculate_energy_kinetic_total. cache_tac.
Qed.

Lemma cache_kept_energy_potential_total sel :
  respects (cache_kept sel) energy_potential_total.
Proof.
  apply (cache_kept_lazy EnergyPotentialTotal _calculate_energy_potential_total).
  unfold _calculate_energy_potential_total, energy_potential_coulomb,
    energy_potential_lennard_jones, energy_potential_bond_vibration,
    energy_potential_angle_vibration.
  cache_tac.
Qed.

Hint Resolve cache_kept_energy_kinetic_total cache_kept_energy_potential_total : respects.

Lemma cache_kept_energy_total sel : respects (cache_kept sel) energy_total.
Proof.
  apply (cache_kept_lazy EnergyTotal _calculate_energy_total).
  unfold _calculate_energy_total. cache_tac.
Qed.

Lemma cache_kept_temperature sel : respects (cache_kept sel) temperature.
Proof.
  apply (cache_kept_lazy Temperature _calculate_temperature).
  unfold _calculate_temperature. cache_tac.
Qed.

Lemma cache_kept_read q sel : respects (cache_kept sel) (read q).
Proof.
  destruct q; simpl;
    auto using cache_kept_speeds, cache_kept_momenta, cache_kept_energy_kinetic_per_atom,
      cache_kept_energy_kinetic_total, cache_kept_energy_potential_total,
      cache_kept_energy_total, cache_kept_temperature.
Qed.

End cache_reads.

(** ** Which attributes of the cache a read assigns *)

Section footprint.
Context {U : Type} {duq : UnitSystem U} {helpers : Helpers U}.
Context {elements_data : ElementsData} {numpy_sum : np.AddReduce}.

Import TrajectoryAnalyzer Derived.

Local Abbreviation Self := (TrajectoryAnalyzer.t U * World)%type.
Implicit Types (st : Self) (w : World) (sel : quantity → Prop).
Local Abbreviation cache_same := (Derived.cache_same (U := U)).

Lemma cache_same_lazy field calc sel :
  respects (cache_same sel) calc → respects (cache_same sel) (lazy field calc).
Proof. intros Hcalc. unfold lazy. cache_tac. Qed.

Lemma cache_same_read_unit p sel : respects (cache_same sel) (read_unit p).
Proof.
  intros st r st' Hrun. eapply cache_same_unit_read, unit_read_frame_read_unit, Hrun.
Qed.

Lemma cache_same_unit_energy sel : respects (cache_same sel) unit_energy.
Proof. apply (cache_same_read_unit UnitEnergy). Qed.

Lemma cache_same_unit_temperature sel : respects (cache_same sel) unit_temperature.
Proof. apply (cache_same_read_unit UnitTemperature). Qed.

Lemma new_array_same sel r : respects (cache_same sel) (new_array r).
Proof. unfold new_array. cache_tac. Qed.

Hint Resolve cache_same_unit_energy cache_same_unit_temperature new_array_same : respects.

(** A computation that starts by reading a name the class does not define
    does nothing else. *)
Lemma respects_bind_raise {S A B} (R : S → S → Prop) `{!Reflexive R} e (k : A → M S B) :
  respects R (bind (raise e) k).
Proof. intros s r s' [= _ <-]. reflexivity. Qed.

(** The reads of the speeds, of the momenta and of the total potential
    energy assign nothing. *)
Lemma cache_same_speeds sel : respects (cache_same sel) speeds.
Proof.
  apply (cache_same_lazy _speeds _calculate_speeds).
  unfold _calculate_speeds, velocities. apply respects_bind_raise; apply _.
Qed.

Lemma cache_same_momenta sel : respects (cache_same sel) momenta.
Proof.
  apply (cache_same_lazy _momenta _calculate_momenta).
  unfold _calculate_momenta, masses. apply respects_bind_raise; apply _.
Qed.

Lemma cache_same_energy_potential_total sel :
  respects (cache_same sel) energy_potential_total.
Proof.
  apply (cache_same_lazy _energy_potential_total _calculate_energy_potential_total).
  unfold _calculate_energy_potential_total, energy_potential_coulomb.
  apply respects_bind_raise; apply _.
Qed.

Hint Resolve cache_same_speeds cache_same_momenta cache_same_energy_potential_total
  : respects.

(** What the body of each of the other computations assigns. *)
Lemma cache_same_energy_kinetic_per_atom sel :
  (∀ q, assigns EnergyKineticPerAtom q = true → sel q) →
  respects (cache_same sel) energy_kinetic_per_atom.
Proof.
  intros Hsel.
  apply (cache_same_lazy _energy_kinetic_per_atom _calculate_energy_kinetic_per_atom).
  unfold _calculate_energy_kinetic_per_atom. cache_tac.
  apply cache_same_set_cache. intros q Hq c. destruct q; try done. by destruct Hq; apply Hsel.
Qed.

Lemma cache_same_energy_kinetic_total sel :
  (∀ q, assigns EnergyKineticTotal q = true → sel q) →
  respects (cache_same sel) energy_kinetic_total.
Proof.
  intros Hsel.
  apply (cache_same_lazy _energy_kinetic_total _calculate_energy_kinetic_total).
  unfold _calculate_energy_kinetic_total. cache_tac.
  - apply cache_same_energy_kinetic_per_atom. intros q Hq. apply Hsel. by destruct q.
  - apply cache_same_set_cache. intros q Hq c. destruct q; try done. by destruct Hq; apply Hsel.
Qed.

Lemma cache_same_energy_total sel :
  (∀ q, assigns EnergyTotal q = true → sel q) → respects (cache_same sel) energy_total.
Proof.
  intros Hsel. apply (cache_same_lazy _energy_total _calculate_energy_total).
  unfold _calculate_energy_total. cache_tac.
  - apply cache_same_energy_kinetic_total. intros q Hq. apply Hsel. by destruct q.
  - apply cache_same_set_cache. intros q Hq c. destruct q; try done. by destruct Hq; apply Hsel.
Qed.

Lemma cache_same_temperature sel :
  (∀ q, assigns Temperature q = true → sel q) → respects (cache_same sel) temperature.
Proof.
  intros Hsel. apply (cache_same_lazy _temperature _calculate_temperature).
  unfold _calculate_temperature. cache_tac.
  - apply cache_same_energy_kinetic_per_atom. intros q Hq. apply Hsel. by destruct q.
  - apply cache_same_set_cache. intros q Hq c. destruct q; try done. by destruct Hq; apply Hsel.
Qed.

Lemma cache_same_read q sel :
  (∀ q', assigns q q' = true → sel q') → respects (cache_same sel) (read q).
Proof.
  destruct q; simpl;
    auto using cache_same_speeds, cache_same_momenta, cache_same_energy_kinetic_per_atom,
      cache_same_energy_kinetic_total, cache_same_energy_potential_total,
      cache_same_energy_total, cache_same_temperature.
Qed.

End footprint.

(** ** Arrays, element by element *)

Section elements.
Context {numpy_sum : np.AddReduce}.

Import Derived.

(** A reduction over the second axis of a two-dimensional array. *)
Lemma reduce_axis1 f ke T N :
  np.shape ke = [T; N] →
  ∃ r, np.reduce_axis f 1 ke = Ok r
       ∧ np.shape r = [T]
       ∧ ∀ i, (i < T)%nat →
           item1 r i = f ((λ j, nth (i * N + j) (np.data ke) 0%float) <$> seq 0 N).
Proof.
  intros Hs. unfold np.reduce_axis. rewrite Hs. simpl.
  eexists. split; [done|]. simpl. split; [done|]. intros i Hi.
  unfold item1. simpl.
  rewrite flat_map_singleton, nth_lookup, list_lookup_fmap, Nat.mul_1_r.
  rewrite lookup_seq_lt by done. simpl. f_equal.
  unfold np.lane. apply list_fmap_ext. intros k x _. f_equal. lia.
Qed.

Lemma broadcast_dims_same s : np.broadcast_dims s s = Some s.
Proof. induction s as [|a s IH]; [done|]. simpl. by rewrite IH, Nat.eqb_refl. Qed.

Lemma broadcast_shapes_same s : np.broadcast_shapes s s = Some s.
Proof.
  unfold np.broadcast_shapes. rewrite Nat.max_id, Nat.sub_diag. simpl.
  apply broadcast_dims_same.
Qed.

(** An operator on two arrays of one shape works element by element. *)
Lemma binop_same_Ok f a b :
  np.well_formed a → np.well_formed b → np.shape b = np.shape a →
  np.binop f a b
  = Ok {| np.shape := np.shape a; np.data := zip_with f (np.data a) (np.data b) |}.
Proof.
  intros Ha Hb Hs. unfold np.binop. rewrite Hs, broadcast_shapes_same.
  rewrite (broadcast_to_same a) by done. rewrite (broadcast_to_same b) by done. done.
Qed.

Lemma nth_zip_with f (xs ys : list float) i :
  (i < length xs)%nat → (i < length ys)%nat →
  nth i (zip_with f xs ys) 0%float = f (nth i xs 0%float) (nth i ys 0%float).
Proof.
  revert ys i. induction xs as [|x xs IH]; intros [|y ys] [|i] Hx Hy;
    simpl in *; try lia; [done|]. apply IH; lia.
Qed.

Lemma scalar_l_well_formed f x a : np.well_formed a → np.well_formed (np.scalar_l f x a).
Proof. unfold np.well_formed. simpl. by rewrite length_fmap. Qed.

Lemma nth_fmap_float (g : float → float) xs i :
  (i < length xs)%nat → nth i (g <$> xs) 0%float = g (nth i xs 0%float).
Proof.
  revert i. induction xs as [|x xs IH]; intros [|i] Hi; simpl in *; try lia; [done|].
  apply IH. lia.
Qed.

End elements.

(** ** What the computations that can return compute *)

Section formulas.
Context {U : Type} {duq : UnitSystem U} {helpers : Helpers U}.
Context {elements_data : ElementsData} {numpy_sum : np.AddReduce}.

Import TrajectoryAnalyzer Derived.

Local Abbreviation Self := (TrajectoryAnalyzer.t U * World)%type.
Implicit Types (st : Self) (w : World).
Local Abbreviation stored := (Derived.stored (U := U)).

(** A property whose attribute is [None] does what its computation does. *)
Lemma lazy_computes field calc st st' :
  field (cache st.1) = None → calc st = (Ok tt, st') →
  lazy field calc st = (Ok (field (cache st'.1)), st').
Proof.
  intros Hf Hc. unfold lazy, bind, attr, ret. cbv beta iota. rewrite Hf. cbv beta iota.
  by rewrite Hc.
Qed.

Lemma lazy_raises field calc st e st' :
  field (cache st.1) = None → calc st = (Raise e, st') →
  lazy field calc st = (Raise e, st').
Proof.
  intros Hf Hc. unfold lazy, bind, attr, ret. cbv beta iota. rewrite Hf. cbv beta iota.
  by rewrite Hc.
Qed.

(** A cached array is read as an operand. *)
Lemma load_operand_cached st l a :
  heap st.2 !! l = Some a → on_world (load_operand (Some l)) st = (Ok a, st).
Proof.
  intros Hl. destruct st as [s w]. unfold on_world, load_operand, load. simpl in *.
  by rewrite Hl.
Qed.

(** A computed array becomes a new object of the heap. *)
Lemma new_array_returns st a :
  ∃ l, heap st.2 !! l = None
       ∧ new_array (Ok a) st
         = (Ok (Some l), (st.1, {| heap := <[l := a]> (heap st.2); trace := trace st.2 |})).
Proof.
  exists (fresh (dom (heap st.2))). split; [apply fresh_not_allocated|].
  destruct st as [s w]. reflexivity.
Qed.




(** The computation of the temperature on an analyzer that holds neither
    kinetic energies per atom nor momenta: it raises, at the latest where
    it reads the kinetic energies, and leaves the cache as it was. *)
Lemma calculate_temperature_raises st :
  _energy_kinetic_per_atom (cache st.1) = None → _momenta (cache st.1) = None →
  ∃ e st', _calculate_temperature st = (Raise e, st') ∧ cache st'.1 = cache st.1.
Proof.
  intros Hke Hmo. unfold _calculate_temperature.
  destruct (unit_energy st) as [[ue|e] s1] eqn:Hue.
  2: { exists e, s1. erewrite bind_eq_Raise by exact Hue. split; [done|].
       by destruct (unit_read_frame_unit_energy _ _ _ Hue) as (_ & ? & _). }
  destruct (unit_read_frame_unit_energy _ _ _ Hue) as (_ & Hc1 & _).
  erewrite bind_eq_Ok by exact Hue. erewrite bind_eq_Ok by reflexivity.
  match goal with |- context [bind (on_world ?m) _ s1] =>
    destruct (on_world m s1) as [[ub|e] s2] eqn:Hdiv end.
  2: { exists e, s2. erewrite bind_eq_Raise by exact Hdiv. split; [done|].
       apply on_world_inv in Hdiv as [Hs2 _]. congruence. }
  pose proof Hdiv as [Hs2 _]%on_world_inv. erewrite bind_eq_Ok by exact Hdiv.
  match goal with |- context [bind (on_world ?m) _ s2] =>
    destruct (on_world m s2) as [[kB|e] s3] eqn:HkB end.
  2: { exists e, s3. erewrite bind_eq_Raise by exact HkB. split; [done|].
       apply on_world_inv in HkB as [Hs3 _]. congruence. }
  pose proof HkB as [Hs3 _]%on_world_inv. erewrite bind_eq_Ok by exact HkB.
  assert (cache s3.1 = cache st.1) as Hc3 by congruence.
  exists (no_attribute "masses"), s3. split; [|done].
  erewrite bind_eq_Raise; [done|].
  apply (lazy_raises _energy_kinetic_per_atom _calculate_energy_kinetic_per_atom);
    [by rewrite Hc3|].
  unfold _calculate_energy_kinetic_per_atom. erewrite bind_eq_Raise; [done|].
  apply (lazy_raises _momenta _calculate_momenta); [by rewrite Hc3|done].
Qed.

(** X1 (nothing cached, nothing computed). On an analyzer with nothing in
    its cache, as the constructor would leave it, a read of any derived
    quantity raises. For the six quantities other than the temperature it
    is the AttributeError of the first name the computation reads that the
    class does not define ([velocities] for the speeds, [masses] for the
    momenta and the kinetic energies, [energy_potential_coulomb] for the
    potential and the total energy), and the analyzer and the world are
    exactly as they were. A read of the temperature raises too, after its
    calls into the unit library, and leaves the cache as it was. *)
Theorem reads_of_an_empty_cache_raise q st :
  (∀ q', cache_field q' (cache st.1) = None) →
  (q ≠ Temperature → read q st = (Raise (no_attribute (missing q)), st))
  ∧ ∃ e st', read q st = (Raise e, st') ∧ cache st'.1 = cache st.1.
Proof.
  intros Hempty.
  assert (speeds st = (Raise (no_attribute "velocities"), st)) as Hspeeds.
  { apply (lazy_raises _speeds _calculate_speeds); [exact (Hempty Speeds)|done]. }
  assert (momenta st = (Raise (no_attribute "masses"), st)) as Hmomenta.
  { apply (lazy_raises _momenta _calculate_momenta); [exact (Hempty Momenta)|done]. }
  assert (energy_kinetic_per_atom st = (Raise (no_attribute "masses"), st)) as Hper_atom.
  { apply (lazy_raises _energy_kinetic_per_atom _calculate_energy_kinetic_per_atom);
      [exact (Hempty EnergyKineticPerAtom)|].
    unfold _calculate_energy_kinetic_per_atom. by erewrite bind_eq_Raise by exact Hmomenta. }
  assert (energy_kinetic_total st = (Raise (no_attribute "masses"), st)) as Hkinetic.
  { apply (lazy_raises _energy_kinetic_total _calculate_energy_kinetic_total);
      [exact (Hempty EnergyKineticTotal)|].
    unfold _calculate_energy_kinetic_total. by erewrite bind_eq_Raise by exact Hper_atom. }
  assert (energy_potential_total st
          = (Raise (no_attribute "energy_potential_coulomb"), st)) as Hpotential.
  { apply (lazy_raises _energy_potential_total _calculate_energy_potential_total);
      [exact (Hempty EnergyPotentialTotal)|done]. }
  assert (energy_total st = (Raise (no_attribute "energy_potential_coulomb"), st)) as Htotal.
  { apply (lazy_raises _energy_total _calculate_energy_total); [exact (Hempty EnergyTotal)|].
    unfold _calculate_energy_total. by erewrite bind_eq_Raise by exact Hpotential. }
  assert (∀ q', q' ≠ Temperature → read q' st = (Raise (no_attribute (missing q')), st))
    as Hsix by (intros q' Hq'; by destruct q').
  split; [by apply Hsix|].
  destruct (decide (q = Temperature)) as [->|Hq]; [|by eauto].
  destruct (calculate_temperature_raises st (Hempty EnergyKineticPerAtom) (Hempty Momenta))
    as (e & st' & Hcalc & Hcache).
  exists e, st'. split; [|done].
  apply (lazy_raises _temperature _calculate_temperature); [exact (Hempty Temperature)|done].
Qed.

End formulas.

(** ** What the reads assign, keep and leave out *)

Section reads.
Context {U : Type} {duq : UnitSystem U} {helpers : Helpers U}.
Context {elements_data : ElementsData} {numpy_sum : np.AddReduce}.

Import TrajectoryAnalyzer Derived.

Local Abbreviation Self := (TrajectoryAnalyzer.t U * World)%type.
Implicit Types (st : Self) (w : World) (sel : quantity → Prop).
Local Abbreviation cache_same := (Derived.cache_same (U := U)).
Local Abbreviation cache_kept := (Derived.cache_kept (U := U)).
Local Abbreviation later := (Derived.later (U := U)).

Hint Resolve cache_same_unit_energy cache_same_unit_temperature new_array_same : respects.

Lemma lazy_Raise field calc st e st' :
  lazy field calc st = (Raise e, st') →
  field (cache st.1) = None ∧ calc st = (Raise e, st').
Proof.
  unfold lazy, bind, attr, ret. cbv beta iota.
  destruct (field (cache st.1)) as [l|] eqn:Hf; cbv beta iota; [done|].
  destruct (calc st) as [[[]|err] s1] eqn:Hc; [done|]. by intros [= -> ->].
Qed.

(** A computation that raises has not assigned its attribute. *)
Ltac same_read :=
  first [ apply cache_same_speeds | apply cache_same_momenta
        | apply cache_same_energy_kinetic_per_atom | apply cache_same_energy_kinetic_total
        | apply cache_same_energy_potential_total | apply cache_same_energy_total ];
  let q := fresh "q" in intros q ?; by destruct q.

Ltac raising_tac :=
  repeat (apply respects_raising_bind; [apply _ | first [same_read | solve [cache_tac]] | intros ?]);
  apply respects_raising_modify.

Lemma calculate_raising q st e st' :
  read q st = (Raise e, st') →
  cache_field q (cache st.1) = None ∧ cache_field q (cache st'.1) = None.
Proof.
  intros Hrun.
  assert (cache_field q (cache st.1) = None ∧ cache_same (λ q', q' ≠ q) st st') as [Hn Hs].
  { destruct q; simpl in Hrun; apply lazy_Raise in Hrun as [Hn Hrun]; (split; [done|]);
      revert Hrun; generalize st e st'; clear.
    - change (respects_raising (cache_same (λ q', q' ≠ Speeds)) _calculate_speeds).
      unfold _calculate_speeds, velocities. raising_tac.
    - change (respects_raising (cache_same (λ q', q' ≠ Momenta)) _calculate_momenta).
      unfold _calculate_momenta, masses. raising_tac.
    - change (respects_raising (cache_same (λ q', q' ≠ EnergyKineticPerAtom))
                _calculate_energy_kinetic_per_atom).
      unfold _calculate_energy_kinetic_per_atom. raising_tac.
    - change (respects_raising (cache_same (λ q', q' ≠ EnergyKineticTotal))
                _calculate_energy_kinetic_total).
      unfold _calculate_energy_kinetic_total. raising_tac.
    - change (respects_raising (cache_same (λ q', q' ≠ EnergyPotentialTotal))
                _calculate_energy_potential_total).
      unfold _calculate_energy_potential_total, energy_potential_coulomb,
        energy_potential_lennard_jones, energy_potential_bond_vibration,
        energy_potential_angle_vibration.
      raising_tac.
    - change (respects_raising (cache_same (λ q', q' ≠ EnergyTotal)) _calculate_energy_total).
      unfold _calculate_energy_total. raising_tac.
    - change (respects_raising (cache_same (λ q', q' ≠ Temperature)) _calculate_temperature).
      unfold _calculate_temperature. raising_tac. }
  split; [done|]. rewrite Hs; [done|]. by intros Hq.
Qed.

Lemma later_kept st st' : later st st' → cache_kept (λ _, True) st st'.
Proof.
  induction 1 as [st|q st r s1 s2 Hrun _ IH|p st r s1 s2 Hrun _ IH].
  - reflexivity.
  - etrans; [eapply cache_kept_read, Hrun|done].
  - etrans; [eapply cache_kept_read_unit, Hrun|done].
Qed.



(** X9 (a read that raises). When a read of a derived quantity raises, its
    attribute was [None] and is [None] afterwards, so the next read computes
    again; the data are the same, every array has the contents it had, and
    what was cached before is still cached. *)
Theorem failed_read_is_not_cached q st e st' :
  read q st = (Raise e, st') →
  cache_field q (cache st.1) = None ∧ cache_field q (cache st'.1) = None
  ∧ data st'.1 = data st.1
  ∧ (∀ l a, heap st.2 !! l = Some a → heap st'.2 !! l = Some a)
  ∧ (∀ q' l, cache_field q' (cache st.1) = Some l → cache_field q' (cache st'.1) = Some l).
Proof.
  intros Hrun. destruct (calculate_raising _ _ _ _ Hrun) as [Hn Hn'].
  destruct (cache_kept_read q (λ _, True) _ _ _ Hrun) as (Hd & [Hg _] & Hk).
  split_and!; try done. by eauto.
Qed.

End reads.

(** ** The constructor and the base units *)

Section constructor_units.
Context {U : Type} {duq : UnitSystem U} {helpers : Helpers U}.
Context {elements_data : ElementsData} {numpy_sum : np.AddReduce}.

Import TrajectoryAnalyzer Derived.

Local Abbreviation Self := (TrajectoryAnalyzer.t U * World)%type.
Implicit Types (st : Self) (w : World).

(** X10 (the constructor raises at line 107). Whatever the seventeen
    arguments are, [TrajectoryAnalyzer.__init__] raises [AttributeError] for
    the name [atomic_numbers], which the class does not define: the read of
    [self.atomic_numbers] at line 107 comes before the masses, the units and
    the cache are assigned. Nothing is asked of the element table or of the
    unit library, and nothing is allocated: the world is left as it was. *)
Theorem constructor_raises
    (positions velocities timestamps : np.ndarray)
    (atomic_numbers molecule_ids : list Z)
    (connectivity_matrix : list (list bool))
    (coulomb lennard_jones bond_vibration angle_vibration
     distances_interatomic bond_angles : option loc)
    (unit_length0 unit_time0 unit_velocity0 unit_energy0 unit_angle0 : pyunit U) w :
  __init__ positions velocities timestamps atomic_numbers molecule_ids
    connectivity_matrix coulomb lennard_jones bond_vibration angle_vibration
    distances_interatomic bond_angles
    unit_length0 unit_time0 unit_velocity0 unit_energy0 unit_angle0 w
  = (Raise (no_attribute "atomic_numbers"), w).
Proof. reflexivity. Qed.

(** X12 (labels are resolved once). For the mass, length and time units:
    a read that finds a label asks the unit library for the unit of the
    label, once, and stores the unit; a read that finds anything else
    returns it and changes nothing. So what a read returns is never a label,
    it is stored, and the next read returns it and changes nothing. A read
    raises only when the unit library refuses the label, and then the label
    stays. *)
Theorem labels_are_resolved_once p st r st' :
  base_unit p → read_unit p st = (r, st') →
  (∀ label, unit_field p (units st.1) = PStr label →
     trace st'.2 = trace st.2 ++ [UnitOp "Unit"] ∧ heap st'.2 = heap st.2
     ∧ match r with
       | Ok v => ∃ u, duq_Unit label = Ok u ∧ v = PUnit u
       | Raise e => duq_Unit label = Raise e ∧ st'.1 = st.1
       end)
  ∧ ((∀ label, unit_field p (units st.1) ≠ PStr label) →
       r = Ok (unit_field p (units st.1)) ∧ st' = st)
  ∧ (∀ v, r = Ok v →
       (∀ label, v ≠ PStr label)
       ∧ unit_field p (units st'.1) = v
       ∧ read_unit p st' = (Ok v, st')).
Proof.
  intros Hp Hrun.
  assert (∀ (field : Units U → pyunit U) (upd : pyunit U → Units U → Units U),
    (∀ v u, field (upd v u) = v) →
    (let* v := attr (λ self, field (units self)) in
     match v with
     | PStr label => let* u := on_world (Unit_ label) in set_units (upd (PUnit u))
     | _ => ret tt
     end;;; attr (λ self, field (units self))) st = (r, st') →
    (∀ label, field (units st.1) = PStr label →
       trace st'.2 = trace st.2 ++ [UnitOp "Unit"] ∧ heap st'.2 = heap st.2
       ∧ match r with
         | Ok v => ∃ u, duq_Unit label = Ok u ∧ v = PUnit u
         | Raise e => duq_Unit label = Raise e ∧ st'.1 = st.1
         end)
    ∧ ((∀ label, field (units st.1) ≠ PStr label) → r = Ok (field (units st.1)) ∧ st' = st)
    ∧ (∀ v, r = Ok v →
         (∀ label, v ≠ PStr label) ∧ field (units st'.1) = v
         ∧ (let* v := attr (λ self, field (units self)) in
            match v with
            | PStr label => let* u := on_world (Unit_ label) in set_units (upd (PUnit u))
            | _ => ret tt
            end;;; attr (λ self, field (units self))) st' = (Ok v, st'))) as Hgen.
  { intros field upd Hupd. unfold bind, attr, ret. cbv beta iota.
    destruct (field (units st.1)) as [|label|u] eqn:Hu; cbv beta iota.
    - rewrite Hu. intros [= <- <-]. split_and!; [done|done|].
      intros v [= <-]. rewrite Hu. cbv beta iota. by rewrite Hu.
    - destruct st as [s w]. unfold on_world, Unit_, bind, emit, lift_result. simpl.
      destruct (duq_Unit label) as [u|e] eqn:Hunit; simpl.
      + rewrite Hupd. intros [= <- <-]. simpl. split_and!.
        * intros l' [= <-]. split_and!; try done. eauto.
        * intros Hne. by destruct (Hne label).
        * intros v [= <-]. rewrite Hupd. split_and!; try done. simpl. by rewrite Hupd.
      + intros [= <- <-]. simpl. split_and!; [|by intros Hne; destruct (Hne label)|done].
        intros l' [= <-]. done.
    - rewrite Hu. intros [= <- <-]. split_and!; [done|done|].
      intros v [= <-]. rewrite Hu. cbv beta iota. by rewrite Hu. }
  destruct Hp as [->|[->| ->]]; simpl in *.
  - apply (Hgen _unit_mass with_unit_mass); [done|exact Hrun].
  - apply (Hgen _unit_length with_unit_length); [done|exact Hrun].
  - apply (Hgen _unit_time with_unit_time); [done|exact Hrun].
Qed.

End constructor_units.

(** ** A whole run *)

Section integration.
Context {U FF EN : Type}.
Context {duq : UnitSystem U} {helpers : Helpers U}.
Context {elements_data : ElementsData} {numpy_sum : np.AddReduce}.
Context {forcefield_ops : mdforce.ForceField U FF}.
Context {ensemble_ops : ensemble_generator.EnsembleGenerator U EN}.
Context {numintegrator : ode.Integrator}.

Import MDSimulation Recording.

Local Abbreviation Self := (MDSimulation.t U FF EN * World)%type.
Implicit Types (self : MDSimulation.t U FF EN) (w : World) (ch : channel) (st : Self).
Implicit Types (i : ode.Integration) (ff : FF).

Lemma record_step_self tgt src st r st' :
  record_step tgt src st = (r, st') → st'.1 = st.1.
Proof.
  unfold record_step, bind, attr. cbv beta iota. by intros [H _]%on_world_inv.
Qed.

(** An invocation that returns has evaluated the force field and returns its
    acceleration. *)
Lemma force_Ok q st a st' :
  _force q st = (Ok a, st') →
  ∃ ff', mdforce.__call__ (ob_value (_forcefield st.1)) q = (Ok tt, ff')
         ∧ a = mdforce.acceleration ff' ∧ ob_value (_forcefield st'.1) = ff'.
Proof.
  unfold _force. intros Hrun.
  apply bind_Ok in Hrun as ([] & s0 & (ff' & Hcall & ->)%forcefield_call_inv & Hrun).
  apply bind_Ok in Hrun as ([] & s1 & H1%record_step_self & Hrun).
  apply bind_Ok in Hrun as ([] & s2 & H2%record_step_self & Hrun).
  apply bind_Ok in Hrun as ([] & s3 & H3%record_step_self & Hrun).
  apply bind_Ok in Hrun as ([] & s4 & H4%record_step_self & Hrun).
  apply bind_Ok in Hrun as ([] & s5 & H5%record_step_self & Hrun).
  apply bind_Ok in Hrun as ([] & s6 & H6%record_step_self & Hrun).
  apply bind_Ok in Hrun as (c & s7 & [= <- <-] & Hrun).
  apply bind_Ok in Hrun as ([] & s8 & Hset & [= <- <-]).
  destruct (_curr_step s6.1) as [n|]; [|done].
  apply modify_inv in Hset as [_ ->]. simpl.
  rewrite H6, H5, H4, H3, H2, H1. simpl. eauto.
Qed.

(** An invocation whose evaluation of the force field raises stores
    nothing. *)
Lemma force_call_raises q st e ff' :
  mdforce.__call__ (ob_value (_forcefield st.1)) q = (Raise e, ff') →
  _force q st = (Raise e, (with_forcefield_state ff' st.1, st.2)).
Proof.
  intros Hcall. unfold _force, bind at 1. unfold forcefield_call. by rewrite Hcall.
Qed.

Lemma length_integration_calls i ff :
  length (integration_calls i ff) = length (integration_evaluations i ff).
Proof.
  revert ff. induction i as [p v ts|e|q k IH]; intros ff; simpl; try done.
  destruct (mdforce.__call__ ff q) as [[[]|e] ff']; simpl; [|done]. by rewrite IH.
Qed.

Lemma evaluations_integration_calls i ff n :
  evaluations ff (take n (integration_calls i ff))
  = Some (take n (integration_evaluations i ff)).
Proof.
  revert i ff. induction n as [|n IH]; intros i ff; [by rewrite !take_0|].
  destruct i as [p v ts|e|q k]; simpl; try done.
  destruct (mdforce.__call__ ff q) as [[[]|e] ff'] eqn:Hcall; simpl; [|done].
  by rewrite Hcall, IH.
Qed.

(** The integration after the first [n] of its calls were answered. *)
Lemma integrate_after_calls n : ∀ i st accs st1,
  force_calls (take n (integration_calls i (ob_value (_forcefield st.1)))) st
  = (Ok accs, st1) →
  integrate_with_force i st = integrate_with_force (after_calls i accs) st1.
Proof.
  induction n as [|n IH]; intros i st accs st1.
  - rewrite take_0. simpl. by intros [= <- <-].
  - destruct i as [p v ts|e|q k]; simpl; try by intros [= <- <-].
    destruct (mdforce.__call__ _ q) as [[[]|e] ff'] eqn:Hcall; simpl;
      [|by intros [= <- <-]].
    intros (a & s' & Hq & Hrest)%bind_Ok.
    apply bind_Ok in Hrest as (accs' & s2 & Hqs & [= <- <-]).
    destruct (force_Ok _ _ _ _ Hq) as (ff1 & Hcall1 & -> & Hff).
    assert (ff1 = ff') as -> by congruence.
    erewrite bind_eq_Ok by exact Hq. simpl.
    apply IH. by rewrite Hff.
Qed.

Lemma evaluations_after_calls n : ∀ i ff,
  integration_evaluations
    (after_calls i (mdforce.acceleration <$> take n (integration_evaluations i ff)))
    (default ff (last (take n (integration_evaluations i ff))))
  = drop n (integration_evaluations i ff).
Proof.
  induction n as [|n IH]; intros i ff.
  - rewrite take_0, drop_0. reflexivity.
  - destruct i as [p v ts|e|q k]; simpl; try done.
    destruct (mdforce.__call__ ff q) as [[[]|e] ff'] eqn:Hcall; simpl.
    + rewrite <- (IH (k (mdforce.acceleration ff')) ff'). f_equal.
      rewrite last_cons. by destruct (last _).
    + by rewrite Hcall.
Qed.

(** An integration that makes no further evaluation stores nothing. *)
Lemma integrate_no_evaluations i st r st' :
  integration_evaluations i (ob_value (_forcefield st.1)) = [] →
  integrate_with_force i st = (r, st') →
  st'.2 = st.2 ∧ buffers st'.1 = buffers st.1 ∧ _curr_step st'.1 = _curr_step st.1
  ∧ ∀ p v ts, r = Ok (p, v, ts) → i = ode.Return p v ts.
Proof.
  destruct i as [p v ts|e|q k]; simpl.
  - intros _ [= <- <-]. split_and!; try done. by intros ? ? ? [= -> -> ->].
  - intros _ [= <- <-]. done.
  - destruct (mdforce.__call__ _ q) as [[[]|e] ff'] eqn:Hcall; [done|]. intros _.
    erewrite bind_eq_Raise by (by apply force_call_raises). by intros [= <- <-].
Qed.

(** What an integration leaves in the buffers: evaluation [i] in slot [i],
    for the evaluations that fit; and it raises an [IndexError] when there
    are more evaluations than slots. *)
Lemma integrate_records i self w len m n r st' :
  buffers_allocated self w len m n → _curr_step self = Some 0%Z →
  Forall (conformant m n)
    (take len (integration_evaluations i (ob_value (_forcefield self)))) →
  integrate_with_force i (self, w) = (r, st') →
  let ffs := integration_evaluations i (ob_value (_forcefield self)) in
  buffers st'.1 = buffers self
  ∧ _curr_step st'.1 = Some (Z.of_nat (len `min` length ffs))
  ∧ (∀ ch l a, target ch (buffers self) = Some l → heap w !! l = Some a →
       ∃ a', heap st'.2 !! l = Some a' ∧ np.shape a' = np.shape a
         ∧ (∀ j ff, (j < len)%nat → ffs !! j = Some ff →
              np.slot a' j = np.data (source ch ff))
         ∧ (∀ j, (len `min` length ffs ≤ j)%nat → np.slot a' j = np.slot a j))
  ∧ ((len < length ffs)%nat → ∃ msg, r = Raise (IndexError msg))
  ∧ (∀ p v ts, r = Ok (p, v, ts) →
       (length ffs ≤ len)%nat
       ∧ after_calls i (mdforce.acceleration <$> ffs) = ode.Return p v ts).
Proof.
  intros Ha Hc Hconf Hrun ffs.
  set (qs := take len (integration_calls i (ob_value (_forcefield self)))).
  assert (length qs = (len `min` length ffs)%nat) as Hlen
    by (unfold qs; by rewrite length_take, length_integration_calls).
  destruct (force_calls_from qs self w len m n 0 (take len ffs) Ha Hc)
    as (self1 & w1 & Hcalls & Hb & _ & Hc1 & Hff & Ha1 & _ & _ & Hslots);
    [lia|apply evaluations_integration_calls|done|].
  rewrite (integrate_after_calls len i (self, w) _ (self1, w1) Hcalls) in Hrun.
  pose proof (evaluations_after_calls len i (ob_value (_forcefield self))) as Hdrop.
  fold ffs in Hdrop. rewrite <- Hff in Hdrop. simpl in Hc1. rewrite Hlen in Hc1.
  assert (∀ ch l a, target ch (buffers self) = Some l → heap w !! l = Some a →
    ∃ a', heap w1 !! l = Some a' ∧ np.shape a' = np.shape a
      ∧ (∀ j ff, (j < len)%nat → ffs !! j = Some ff →
           np.slot a' j = np.data (source ch ff))
      ∧ (∀ j, (len `min` length ffs ≤ j)%nat → np.slot a' j = np.slot a j)) as Hw1.
  { intros ch l a Ht Hl. destruct (Hslots ch l a Ht Hl) as (a' & Hl' & Hs' & Hin & Hout).
    exists a'. split_and!; try done.
    - intros j ff Hj Hjff. apply (Hin j ff). by rewrite lookup_take_lt.
    - intros j Hj. apply Hout. right. simpl. lia. }
  destruct (decide (length ffs ≤ len)%nat) as [Hfit|Hover].
  - rewrite drop_ge in Hdrop by done.
    destruct (integrate_no_evaluations _ (self1, w1) _ _ Hdrop Hrun) as (Hw & Hb' & Hc' & Hret).
    simpl in *. rewrite Hw, Hb', Hc'. split_and!; try done; [lia|].
    intros p v ts Hr. split; [done|]. rewrite <- (Hret p v ts Hr).
    by rewrite take_ge.
  - assert (len `min` length ffs = len)%nat as Hmin by lia. rewrite Hmin in *.
    destruct (drop len ffs) as [|ff' rest] eqn:Hd.
    { apply (f_equal length) in Hd. rewrite length_drop in Hd. simpl in Hd. lia. }
    destruct (after_calls i (mdforce.acceleration <$> take len ffs))
      as [p v ts|e|q k] eqn:Hres; simpl in Hdrop; try done.
    destruct (mdforce.__call__ (ob_value (_forcefield self1)) q) as [[[]|e] ff1] eqn:Hcall;
      [|done].
    destruct (force_overflow self1 w1 len m n (Z.of_nat len) q Ha1 Hc1 ltac:(lia))
      as (e & self2 & Hforce & Hb2 & _ & Hc2 & Hidx).
    destruct (Hidx ff1 Hcall) as [msg ->].
    simpl in Hrun. erewrite bind_eq_Raise in Hrun by exact Hforce.
    injection Hrun as <- <-. simpl. split_and!; try done; [congruence|by eauto].
Qed.

End integration.

Section whole_run.
Context {U FF EN : Type}.
Context {duq : UnitSystem U} {helpers : Helpers U}.
Context {elements_data : ElementsData} {numpy_sum : np.AddReduce}.
Context {forcefield_ops : mdforce.ForceField U FF}.
Context {ensemble_ops : ensemble_generator.EnsembleGenerator U EN}.
Context {numintegrator : ode.Integrator}.

Import MDSimulation Recording.

Local Abbreviation Self := (MDSimulation.t U FF EN * World)%type.
Implicit Types (self : MDSimulation.t U FF EN) (w : World) (ch : channel) (st : Self).

(** A slot of an array of zeros. *)
Lemma slot_zeros a len rest j :
  np.shape a = len :: rest → np.data a = replicate (np.size_of (np.shape a)) 0%float →
  (j < len)%nat → np.slot a j = replicate (np.size_of rest) 0%float.
Proof.
  intros Hs Hd Hj. unfold np.slot. rewrite Hd, Hs, size_of_cons. simpl.
  rewrite drop_replicate, take_replicate. f_equal. nia.
Qed.

(** X13 (a negative number of steps). [run] with [num_steps] below -1 raises
    the ValueError of [np.zeros] for a negative dimension, and leaves the
    driver and the world exactly as they were: nothing is allocated, the
    force field is not initialised, an earlier trajectory stays. *)
Theorem run_refuses_negative_steps num_steps dt pbc st :
  (num_steps < -1)%Z →
  run num_steps dt pbc st = (Raise (ValueError "negative dimensions are not allowed"), st).
Proof.
  intros Hn. unfold run, run_prepare, bind at 1. unfold bind at 1.
  unfold on_world, np_zeros, bind at 1. unfold lift_result, np.zeros. simpl.
  assert ((0 <=? num_steps + 1)%Z = false) as -> by lia. simpl. by destruct st.
Qed.


(** X15 (more evaluations than slots, in a run). When the integrator makes
    more evaluations than the [num_steps + 1] slots of the buffers, [run]
    raises an [IndexError]; the attribute [_trajectory] is as it was; and the
    slots of the buffers hold the first [num_steps + 1] evaluations: none was
    overwritten. *)
Theorem run_raises_when_integrator_overruns num_steps dt pbc st s1 :
  run_prepare num_steps pbc st = (Ok tt, s1) →
  let ens := ob_value (_ensemble st.1) in
  let i := ode.integrate (ensemble_generator.positions ens)
             (ensemble_generator.velocities ens) dt num_steps in
  let ffs := integration_evaluations i (ob_value (_forcefield s1.1)) in
  let len := Z.to_nat (num_steps + 1) in
  let m := Z.to_nat (ensemble_generator.number_molecules_total ens) in
  let n := Z.to_nat (ensemble_generator.number_atoms_total ens) in
  (len < length ffs)%nat → Forall (conformant m n) (take len ffs) →
  ∃ msg st',
    run num_steps dt pbc st = (Raise (IndexError msg), st')
    ∧ _trajectory st'.1 = _trajectory st.1
    ∧ ∀ ch, ∃ l a,
        target ch (buffers st'.1) = Some l ∧ heap st'.2 !! l = Some a
        ∧ ∀ j ff, (j < len)%nat → ffs !! j = Some ff →
            np.slot a j = np.data (source ch ff).
Proof.
  intros Hprep ens i ffs len m n Hover Hconf.
  destruct (run_prepare_frame _ _ _ _ _ Hprep) as (Htr & Hens & _).
  destruct (run_prepare_Ok _ _ _ _ Hprep) as (Hc & Ha & _ & Hzero).
  destruct s1 as [self1 w1]. simpl in *.
  destruct (integrate_with_force i (self1, w1)) as [r s2] eqn:Hint.
  destruct (integrate_records i self1 w1 len m n _ _ Ha Hc Hconf Hint)
    as (Hb & Hc2 & Hslots & Hraise & _).
  destruct (Hraise Hover) as [msg ->].
  pose proof (driver_frame_integrate _ _ _ _ Hint) as (_ & Htr2 & _).
  exists msg, s2. split_and!.
  - unfold run. erewrite bind_eq_Ok by exact Hprep.
    unfold run_integrate. erewrite bind_eq_Ok by reflexivity. unfold ensemble. simpl.
    rewrite Hens.
    by erewrite bind_eq_Raise by exact Hint.
  - simpl in *. congruence.
  - intros ch. destruct Ha as [Hr Hd].
    destruct (Hr ch (elem_of_channels ch)) as (l & a & Ht & Hl & Hwf & Hs).
    destruct (Hslots ch l a Ht Hl) as (a' & Hl' & Hs' & Hin & Hout).
    exists l, a'. rewrite Hb. done.
Qed.

Lemma np_zeros_Raise {S} shp (sw : S * World) e (sw' : S * World) :
  on_world (np_zeros shp) sw = (Raise e, sw') →
  e = ValueError "negative dimensions are not allowed" ∧ sw' = sw.
Proof.
  destruct sw as [s w]. unfold on_world, np_zeros, bind, lift_result, np.zeros. simpl.
  destruct (forallb _ _); [by rewrite alloc_spec|]. by intros [= <- <-].
Qed.

(** X17 (the force field is prepared before the integration). When the
    preparation of a run returns, the force field was initialised with the
    shape of the positions of the ensemble, and with the box lengths of the
    ensemble under periodic boundary conditions and [None] otherwise; then
    fitted to the length and time units of the ensemble; the state these two
    calls left is the one the integration starts from, in the same
    force-field object. When the preparation raises, it is the ValueError of
    an allocation with a negative dimension, with the force field untouched,
    or the exception of the initialisation, after which the units are not
    fitted, or the exception of the fit; and the step counter is as it
    was. *)
Theorem run_prepares_force_field num_steps pbc st r s1 :
  run_prepare num_steps pbc st = (r, s1) →
  let ens := ob_value (_ensemble st.1) in
  let ff0 := ob_value (_forcefield st.1) in
  let shape := np.shape (ensemble_generator.positions ens) in
  let box := if pbc then Some (ensemble_generator.box_lengths ens) else None in
  let length_unit := ensemble_generator.unit_positions ens in
  let time_unit := ensemble_generator.unit_time ens in
  ob_class (_forcefield s1.1) = ob_class (_forcefield st.1)
  ∧ ob_attrs (_forcefield s1.1) = ob_attrs (_forcefield st.1)
  ∧ match r with
    | Ok _ =>
        ∃ ff1, mdforce.initialize_forcefield ff0 shape box = (Ok tt, ff1)
               ∧ mdforce.fit_units_to_input_data ff1 length_unit time_unit
                 = (Ok tt, ob_value (_forcefield s1.1))
               ∧ _curr_step s1.1 = Some 0%Z
    | Raise e =>
        _curr_step s1.1 = _curr_step st.1
        ∧ ((e = ValueError "negative dimensions are not allowed"
            ∧ ob_value (_forcefield s1.1) = ff0)
           ∨ mdforce.initialize_forcefield ff0 shape box
             = (Raise e, ob_value (_forcefield s1.1))
           ∨ ∃ ff1, mdforce.initialize_forcefield ff0 shape box = (Ok tt, ff1)
                    ∧ mdforce.fit_units_to_input_data ff1 length_unit time_unit
                      = (Raise e, ob_value (_forcefield s1.1)))
    end.
Proof.
  unfold run_prepare. intros Hrun. cbv zeta.
  apply bind_cases in Hrun as [(e & [-> ->]%np_zeros_Raise & ->)
                              |(b1 & s & (a1 & _ & _ & ->)%np_zeros_Ok & Hrun)];
    [by eauto 10|].
  apply bind_cases in Hrun as [(e & [[=] _]%modify_inv & _)
                              |([] & s & [_ ->]%modify_inv & Hrun)].
  apply bind_cases in Hrun as [(e & [-> ->]%np_zeros_Raise & ->)
                              |(b2 & s & (a2 & _ & _ & ->)%np_zeros_Ok & Hrun)];
    [by eauto 10|].
  apply bind_cases in Hrun as [(e & [[=] _]%modify_inv & _)
                              |([] & s & [_ ->]%modify_inv & Hrun)].
  apply bind_cases in Hrun as [(e & [-> ->]%np_zeros_Raise & ->)
                              |(b3 & s & (a3 & _ & _ & ->)%np_zeros_Ok & Hrun)];
    [by eauto 10|].
  apply bind_cases in Hrun as [(e & [[=] _]%modify_inv & _)
                              |([] & s & [_ ->]%modify_inv & Hrun)].
  apply bind_cases in Hrun as [(e & [-> ->]%np_zeros_Raise & ->)
                              |(b4 & s & (a4 & _ & _ & ->)%np_zeros_Ok & Hrun)];
    [by eauto 10|].
  apply bind_cases in Hrun as [(e & [[=] _]%modify_inv & _)
                              |([] & s & [_ ->]%modify_inv & Hrun)].
  apply bind_cases in Hrun as [(e & [=] & _)|(ens & s & [= <- <-] & Hrun)].
  apply bind_cases in Hrun as [(e & [-> ->]%np_zeros_Raise & ->)
                              |(b5 & s & (a5 & _ & _ & ->)%np_zeros_Ok & Hrun)];
    [by eauto 10|].
  apply bind_cases in Hrun as [(e & [[=] _]%modify_inv & _)
                              |([] & s & [_ ->]%modify_inv & Hrun)].
  apply bind_cases in Hrun as [(e & [-> ->]%np_zeros_Raise & ->)
                              |(b6 & s & (a6 & _ & _ & ->)%np_zeros_Ok & Hrun)];
    [by eauto 10|].
  apply bind_cases in Hrun as [(e & [[=] _]%modify_inv & _)
                              |([] & s & [_ ->]%modify_inv & Hrun)].
  apply bind_cases in Hrun as [(e & (ff1 & Hinit & ->)%forcefield_call_inv & ->)
                              |([] & s & (ff1 & Hinit & ->)%forcefield_call_inv & Hrun)];
    [simpl in *; by eauto 10|].
  apply bind_cases in Hrun as [(e & (ff2 & Hfit & ->)%forcefield_call_inv & ->)
                              |([] & s & (ff2 & Hfit & ->)%forcefield_call_inv & Hrun)];
    [simpl in *; by eauto 10|].
  apply modify_inv in Hrun as [-> ->]. simpl in *. by eauto 10.
Qed.

End whole_run.

(** ** The statements on the two atoms *)

Module Worked.
Import Stub Scenario.

(** The reads after the first read of the temperature. *)
Lemma reads_later : Derived.later first_temperature.2 then_kinetic_total.2.
Proof.
  refine (Derived.later_read_unit TrajectoryAnalyzer.UnitLength first_temperature.2
            then_unit_length.1 then_unit_length.2 _ _ _); [vm_compute; reflexivity|].
  refine (Derived.later_read TrajectoryAnalyzer.EnergyTotal then_unit_length.2
            then_energy_total.1 then_energy_total.2 _ _ _); [vm_compute; reflexivity|].
  refine (Derived.later_read TrajectoryAnalyzer.EnergyKineticTotal then_energy_total.2
            then_kinetic_total.1 then_kinetic_total.2 _ _ _); [vm_compute; reflexivity|].
  apply Derived.later_now.
Defined.

(** The total energy of an analyzer with nothing in its cache. *)
Lemma reads_of_an_empty_cache_raise_witness :
  (TrajectoryAnalyzer.EnergyTotal ≠ TrajectoryAnalyzer.Temperature →
   TrajectoryAnalyzer.read TrajectoryAnalyzer.EnergyTotal blank
   = (Raise (Derived.no_attribute "energy_potential_coulomb"), blank))
  ∧ ∃ e st',
      TrajectoryAnalyzer.read TrajectoryAnalyzer.EnergyTotal blank = (Raise e, st')
      ∧ TrajectoryAnalyzer.cache st'.1 = TrajectoryAnalyzer.cache blank.1.
Proof.
  refine (reads_of_an_empty_cache_raise TrajectoryAnalyzer.EnergyTotal blank _).
  intros q'. destruct q'; reflexivity.
Defined.

(** The temperature of an analyzer with nothing in its cache: the read
    raises for the name [masses], after two calls into the unit library. *)
Lemma temperature_of_an_empty_cache :
  (TrajectoryAnalyzer.read TrajectoryAnalyzer.Temperature blank).1
  = Raise (Derived.no_attribute "masses")
  ∧ trace (TrajectoryAnalyzer.read TrajectoryAnalyzer.Temperature blank).2.2
    = [UnitOp "__truediv__"; UnitOp "convert_unit"].
Proof. vm_compute. done. Qed.


Lemma kinetic_per_atom_values :
  kinetic_per_atom_read.1 = Ok (Some 3%positive)
  ∧ heap kinetic_per_atom_read.2.2 !! 3%positive = Some two_kinetic_energies.
Proof. vm_compute. done. Qed.



Lemma energy_total_values :
  (TrajectoryAnalyzer.energy_total with_energies).1 = Ok (Some 3%positive)
  ∧ heap (TrajectoryAnalyzer.energy_total with_energies).2.2 !! 3%positive
    = Some {| np.shape := [2]%nat; np.data := [40.5; 802]%float |}.
Proof. vm_compute. done. Qed.



(** The total energy of [analyzer]: the read raises for the name
    [energy_potential_coulomb], after the temperature was cached. *)
Lemma failed_read_is_not_cached_witness :
  TrajectoryAnalyzer.cache_field TrajectoryAnalyzer.EnergyTotal
    (TrajectoryAnalyzer.cache then_unit_length.2.1) = None
  ∧ TrajectoryAnalyzer.cache_field TrajectoryAnalyzer.EnergyTotal
      (TrajectoryAnalyzer.cache then_energy_total.2.1) = None
  ∧ TrajectoryAnalyzer.data then_energy_total.2.1
    = TrajectoryAnalyzer.data then_unit_length.2.1
  ∧ (∀ l a, heap then_unit_length.2.2 !! l = Some a →
            heap then_energy_total.2.2 !! l = Some a)
  ∧ (∀ q' l,
       TrajectoryAnalyzer.cache_field q' (TrajectoryAnalyzer.cache then_unit_length.2.1)
       = Some l →
       TrajectoryAnalyzer.cache_field q' (TrajectoryAnalyzer.cache then_energy_total.2.1)
       = Some l).
Proof.
  refine (failed_read_is_not_cached TrajectoryAnalyzer.EnergyTotal then_unit_length.2
            (Derived.no_attribute "energy_potential_coulomb") then_energy_total.2 _).
  vm_compute. reflexivity.
Defined.

(** The length unit held as the label [nm]: the read resolves it with one
    call into the unit library and stores the unit. *)
Lemma labels_are_resolved_once_witness :
  (∀ label,
     TrajectoryAnalyzer.unit_field TrajectoryAnalyzer.UnitLength
       (TrajectoryAnalyzer.units labelled.1) = PStr label →
     trace label_read.2.2 = trace labelled.2 ++ [UnitOp "Unit"]
     ∧ heap label_read.2.2 = heap labelled.2
     ∧ match label_read.1 with
       | Ok v => ∃ u, duq_Unit label = Ok u ∧ v = PUnit u
       | Raise e => duq_Unit label = Raise e ∧ label_read.2.1 = labelled.1
       end)
  ∧ ((∀ label,
        TrajectoryAnalyzer.unit_field TrajectoryAnalyzer.UnitLength
          (TrajectoryAnalyzer.units labelled.1) ≠ PStr label) →
       label_read.1
       = Ok (TrajectoryAnalyzer.unit_field TrajectoryAnalyzer.UnitLength
               (TrajectoryAnalyzer.units labelled.1))
       ∧ label_read.2 = labelled)
  ∧ (∀ v, label_read.1 = Ok v →
       (∀ label, v ≠ PStr label)
       ∧ TrajectoryAnalyzer.unit_field TrajectoryAnalyzer.UnitLength
           (TrajectoryAnalyzer.units label_read.2.1) = v
       ∧ TrajectoryAnalyzer.read_unit TrajectoryAnalyzer.UnitLength label_read.2
         = (Ok v, label_read.2)).
Proof.
  refine (labels_are_resolved_once TrajectoryAnalyzer.UnitLength labelled
            label_read.1 label_read.2 _ _).
  - right. left. reflexivity.
  - vm_compute. reflexivity.
Defined.

(** The read of the label, on the concrete state. *)
Lemma label_read_values :
  TrajectoryAnalyzer._unit_length (TrajectoryAnalyzer.units labelled.1) = PStr "nm"
  ∧ label_read.1 = Ok (PUnit (Base "nm"))
  ∧ TrajectoryAnalyzer._unit_length (TrajectoryAnalyzer.units label_read.2.1)
    = PUnit (Base "nm")
  ∧ trace label_read.2.2 = trace analyzer.2 ++ [UnitOp "Unit"].
Proof. vm_compute. done. Qed.

(** [run(-2, 1.0)] on a new driver. *)
Lemma run_refuses_negative_steps_witness :
  MDSimulation.run (numintegrator := integrator 0) (-2) 1 false
    (new_driver a_force_field, empty_world)
  = (Raise (ValueError "negative dimensions are not allowed"),
     (new_driver a_force_field, empty_world)).
Proof.
  refine (run_refuses_negative_steps (numintegrator := integrator 0) (-2) 1 false
            (new_driver a_force_field, empty_world) _).
  lia.
Defined.

Lemma evaluations_conformant extra :
  Forall (MDSimulation.conformant 1 2) (take 3 (run_evaluations extra)).
Proof.
  destruct extra as [|extra];
    (repeat apply Forall_cons_2; [..|apply Forall_nil_2];
     intros ch; destruct ch; split; vm_compute; reflexivity).
Defined.


(** [run(2, 1.0)] with an integrator that makes a fourth evaluation. *)
Lemma run_raises_when_integrator_overruns_witness :
  ∃ msg st',
    MDSimulation.run (numintegrator := integrator 1) 2 1 false
      (new_driver a_force_field, empty_world) = (Raise (IndexError msg), st')
    ∧ MDSimulation._trajectory st'.1 = MDSimulation._trajectory (new_driver a_force_field)
    ∧ ∀ ch, ∃ l a,
        MDSimulation.target ch (MDSimulation.buffers st'.1) = Some l
        ∧ heap st'.2 !! l = Some a
        ∧ ∀ j ff, (j < 3)%nat → run_evaluations 1 !! j = Some ff →
            np.slot a j = np.data (MDSimulation.source ch ff).
Proof.
  refine (run_raises_when_integrator_overruns (numintegrator := integrator 1) 2 1 false
            (new_driver a_force_field, empty_world) prepared _ _ _).
  - vm_compute. reflexivity.
  - vm_compute. lia.
  - exact (evaluations_conformant 1).
Defined.

(** The preparation of [run(2, 1.0)] without periodic boundary
    conditions. *)
Lemma run_prepares_force_field_witness :
  ob_class (MDSimulation._forcefield prepared.1) = forcefield_class
  ∧ ob_attrs (MDSimulation._forcefield prepared.1) = forcefield_attrs
  ∧ ∃ ff1,
      mdforce.initialize_forcefield a_force_field [2; 3]%nat None = (Ok tt, ff1)
      ∧ mdforce.fit_units_to_input_data ff1 (PStr "nm") (PStr "ps")
        = (Ok tt, ob_value (MDSimulation._forcefield prepared.1))
      ∧ MDSimulation._curr_step prepared.1 = Some 0%Z.
Proof.
  refine (run_prepares_force_field 2 false (new_driver a_force_field, empty_world)
            (Ok tt) prepared _).
  vm_compute. reflexivity.
Defined.

(** With periodic boundary conditions the force field is given the box
    lengths of the ensemble. *)
Lemma run_prepares_force_field_periodic :
  ∃ ff1,
    mdforce.initialize_forcefield a_force_field [2; 3]%nat
      (Some (ensemble_generator.box_lengths two_atoms)) = (Ok tt, ff1)
    ∧ MDSimulation._curr_step
        (MDSimulation.run_prepare 2 true (new_driver a_force_field, empty_world)).2.1
      = Some 0%Z.
Proof. vm_compute. eauto. Qed.

End Worked.
